(** * full_kg: the batch splitter and the GraphRAG driver scripts

    A shallow embedding of [batch_processor.py], [data_ingestion.py] and
    [test-integration.py].  The Python code is translated function by function.
    The file system, the text codecs and the subprocess are the part of the
    Python runtime the scripts act on; they are modelled here by their POSIX
    and CPython behaviour:

    - a directory is an association list from entry names to nodes, in the
      order [os.scandir] reports them; a node is a regular file (its bytes) or
      a directory.  There are no symbolic links, no permission failures and no
      limit on name lengths, and a name is a single path component;
    - a Python exception is an outcome of its own, and the state reached when
      it is raised is kept: what was moved before a failure stays moved;
    - a string that names a file or is an argument of a process is the
      sequence of bytes the operating system is given;
    - the external [graphrag] tool is a parameter: any function from the
      command line and the file system to an exit status, the bytes written
      to the two streams and a new file system; so are the encoding of the
      locale in which captured bytes are read as text, what [open] finds
      outside the working directory, and the two splitters of
      [langchain_text_splitters], each call of which returns or raises. *)

From Stdlib Require Import List String Ascii ZArith Lia Bool Arith Permutation.
From Stdlib Require Import DecimalString DecimalNat.
Import ListNotations.

Open Scope string_scope.
Open Scope list_scope.

(** ** Exceptions, outcomes, and the state-and-exception monad *)

(** The exceptions the code and the library calls it makes can raise;
    [OtherError] is an exception of any other class, by the name of the
    class, which only the code taken as a parameter raises. *)
Inductive exn : Type :=
| FileExistsError
| FileNotFoundError
| NotADirectoryError
| IsADirectoryError
| ShutilError
| ValueError
| UnicodeDecodeError
| CalledProcessError (cmd : list string) (returncode : Z)
                     (output stderr : option string)
| OtherError (name : string).

Inductive outcome (A : Type) : Type :=
| Returned (a : A)
| Raised (e : exn).

Arguments Returned {A} a.
Arguments Raised {A} e.

Definition M (S A : Type) : Type := S -> outcome A * S.

Definition ret {S A} (a : A) : M S A := fun s => (Returned a, s).

Definition raise {S A} (e : exn) : M S A := fun s => (Raised e, s).

Definition bind {S A B} (m : M S A) (k : A -> M S B) : M S B :=
  fun s =>
    match m s with
    | (Returned a, s') => k a s'
    | (Raised e, s') => (Raised e, s')
    end.

Definition gets {S A} (f : S -> A) : M S A := fun s => (Returned (f s), s).

Definition modify {S} (f : S -> S) : M S unit := fun s => (Returned tt, f s).

(** [try: m except: h]: the handler [h] picks the exceptions it catches. *)
Definition try_except {S A} (m : M S A) (h : exn -> option (M S A)) : M S A :=
  fun s =>
    match m s with
    | (Returned a, s') => (Returned a, s')
    | (Raised e, s') =>
        match h e with
        | Some k => k s'
        | None => (Raised e, s')
        end
    end.

Declare Scope py_scope.
Delimit Scope py_scope with py.
Notation "x <- m ;; k" := (bind m (fun x => k))
  (at level 100, m at next level, right associativity) : py_scope.
Notation "m ;; k" := (bind m (fun _ => k))
  (at level 100, right associativity) : py_scope.
Open Scope py_scope.

(** [for a in l: body a] *)
Fixpoint for_each {S A} (l : list A) (body : A -> M S unit) : M S unit :=
  match l with
  | [] => ret tt
  | a :: r => body a ;; for_each r body
  end.

(** ** Directory trees *)

#[local] Set Warnings "-register-all".

Inductive node : Type :=
| File (data : string)
| Dir (entries : list (string * node)).

Definition listing : Type := list (string * node).

Definition names (l : listing) : list string := map fst l.

Fixpoint lookup (k : string) (l : listing) : option node :=
  match l with
  | [] => None
  | (k', x) :: r => if String.eqb k' k then Some x else lookup k r
  end.

(** Take the entry named [k] out of a directory. *)
Fixpoint unlink (k : string) (l : listing) : listing :=
  match l with
  | [] => []
  | (k', x) :: r =>
      if String.eqb k' k then unlink k r else (k', x) :: unlink k r
  end.

(** Put [x] where the entry named [k] is. *)
Fixpoint replace (k : string) (x : node) (l : listing) : listing :=
  match l with
  | [] => []
  | (k', y) :: r =>
      if String.eqb k' k then (k', x) :: r else (k', y) :: replace k x r
  end.

(** A new entry comes last. *)
Definition link (k : string) (x : node) (l : listing) : listing :=
  l ++ [(k, x)].

(** How many regular files a tree holds. *)
Fixpoint count_files (x : node) : nat :=
  match x with
  | File _ => 1
  | Dir es =>
      (fix go (es : list (string * node)) : nat :=
         match es with
         | [] => 0
         | (_, y) :: r => count_files y + go r
         end) es
  end.

Definition total_files (l : listing) : nat := count_files (Dir l).

(** [os.path.exists] of a path given by its components. *)
Fixpoint lookup_path (p : list string) (l : listing) : option node :=
  match p with
  | [] => Some (Dir l)
  | c :: q =>
      match lookup c l with
      | Some (Dir es) => lookup_path q es
      | Some (File d) => match q with [] => Some (File d) | _ => None end
      | None => None
      end
  end.

Definition path_exists (p : list string) (l : listing) : bool :=
  match lookup_path p l with Some _ => true | None => false end.

(** ** Strings as Python has them *)

(** [s.split(sep)] for a separator of one character. *)
Fixpoint split_on (sep : ascii) (s : string) : list string :=
  match s with
  | EmptyString => [EmptyString]
  | String c r =>
      let parts := split_on sep r in
      if Ascii.eqb c sep then EmptyString :: parts
      else match parts with
           | p :: ps => String c p :: ps
           | [] => [String c EmptyString]
           end
  end.

(** [s.endswith(suffix)], which is also what the pattern [*suffix] matches. *)
Definition endswith (suffix s : string) : bool :=
  Nat.leb (String.length suffix) (String.length s) &&
  String.eqb
    (substring (String.length s - String.length suffix)
               (String.length suffix) s)
    suffix.

(** [str(i)] of a natural number. *)
Definition str (i : nat) : string := NilZero.string_of_uint (Nat.to_uint i).

(** [range(start, stop, step)] for a positive step; [stop] iterations are
    always enough. *)
Fixpoint range_step (fuel start stop step : nat) : list nat :=
  match fuel with
  | 0 => []
  | S fuel' =>
      if Nat.ltb start stop
      then start :: range_step fuel' (start + step) stop step
      else []
  end.

Definition range (start stop step : nat) : list nat :=
  range_step stop start stop step.

(** [l[i:j]] for [0 <= i <= j]. *)
Definition slice {A} (l : list A) (i j : nat) : list A :=
  firstn (j - i) (skipn i l).

(** [enumerate(l, start)] *)
Fixpoint enumerate {A} (start : nat) (l : list A) : list (nat * A) :=
  match l with
  | [] => []
  | a :: r => (start, a) :: enumerate (S start) r
  end.

(** * batch_processor.py *)

Module batch_processor.

(** ** Paths below the input directory

    [input_path / name] names the input directory itself when [name] is
    empty or a single dot (pathlib drops such a component), its parent when
    [name] is two dots, and the entry [name] of the input directory
    otherwise. *)
Inductive dest : Type :=
| Here
| Up
| Sub (name : string).

Definition resolve (name : string) : dest :=
  if String.eqb name "" then Here
  else if String.eqb name "." then Here
  else if String.eqb name ".." then Up
  else Sub name.

(** The calls that change the file system, in the order they completed. *)
Inductive call : Type :=
| Mkdir (d : dest)
| Move (file : string) (d : dest).

(** The input directory [inp], the other entries [up] of its parent, the
    name [input_name] it has there, the local list [created_dirs], and the
    record of the completed calls. *)
Record state : Type := mk_state {
  inp : listing;
  up : listing;
  input_name : string;
  created_dirs : list dest;
  trace : list call
}.

Definition with_inp (l : listing) (st : state) : state :=
  mk_state l (up st) (input_name st) (created_dirs st) (trace st).

Definition with_up (l : listing) (st : state) : state :=
  mk_state (inp st) l (input_name st) (created_dirs st) (trace st).

Definition with_created (ds : list dest) (st : state) : state :=
  mk_state (inp st) (up st) (input_name st) ds (trace st).

Definition logged (c : call) (st : state) : state :=
  mk_state (inp st) (up st) (input_name st) (created_dirs st) (trace st ++ [c]).

(** A directory as the script finds it. *)
Definition start (input parent : listing) (name : string) : state :=
  mk_state input parent name [] [].

(** ** The library calls *)

(** [subdir.mkdir(exist_ok=True)]: an existing directory is accepted, an
    existing regular file is not. *)
Definition mkdir_exist_ok (d : dest) : M state unit :=
  fun st =>
    match d with
    | Sub s =>
        match lookup s (inp st) with
        | None => (Returned tt, logged (Mkdir d) (with_inp (link s (Dir []) (inp st)) st))
        | Some (Dir _) => (Returned tt, logged (Mkdir d) st)
        | Some (File _) => (Raised FileExistsError, st)
        end
    | Here | Up => (Returned tt, logged (Mkdir d) st)
    end.

(** What [shutil.move] does with the node [x] named [n] when its target
    [L/n] lies in the existing directory [L]: a target that is a directory
    takes the node inside it, unless an entry [n] is there already; a target
    that is a regular file is replaced by a regular file ([os.rename]) and
    stops a directory ([copytree] cannot create it). *)
Definition place (n : string) (x : node) (L : listing) : outcome listing :=
  match lookup n L with
  | None => Returned (link n x L)
  | Some (Dir inner) =>
      match lookup n inner with
      | Some _ => Raised ShutilError
      | None => Returned (replace n (Dir (link n x inner)) L)
      end
  | Some (File _) =>
      match x with
      | File _ => Returned (replace n x L)
      | Dir _ => Raised FileExistsError
      end
  end.

(** [shutil.move(str(file), str(subdir / file.name))] *)
Definition shutil_move (n : string) (d : dest) : M state unit :=
  fun st =>
    match lookup n (inp st) with
    | None => (Raised FileNotFoundError, st)
    | Some x =>
        match d with
        | Here =>
            (* source and target are the same path: [os.rename] leaves it *)
            (Returned tt, logged (Move n d) st)
        | Sub s =>
            if String.eqb s n then
              (* the target lies below the source itself *)
              match x with
              | Dir _ => (Raised ShutilError, st)
              | File _ => (Raised NotADirectoryError, st)
              end
            else
              match lookup s (inp st) with
              | Some (Dir L) =>
                  match place n x L with
                  | Returned L' =>
                      (Returned tt,
                       logged (Move n d)
                         (with_inp (replace s (Dir L') (unlink n (inp st))) st))
                  | Raised e => (Raised e, st)
                  end
              | Some (File _) => (Raised NotADirectoryError, st)
              | None =>
                  match x with
                  | File _ => (Raised FileNotFoundError, st)
                  | Dir _ =>
                      (* [copytree] makes the missing directories *)
                      (Returned tt,
                       logged (Move n d)
                         (with_inp (link s (Dir [(n, x)]) (unlink n (inp st))) st))
                  end
              end
        | Up =>
            if String.eqb n (input_name st) then
              (* the target is the input directory, and [n] is in it *)
              (Raised ShutilError, st)
            else
              match place n x (up st) with
              | Returned L' =>
                  (Returned tt,
                   logged (Move n d)
                     (with_up L' (with_inp (unlink n (inp st)) st)))
              | Raised e => (Raised e, st)
              end
        end
    end.

(** ** The splitter *)

(** [input_path.glob("*.txt")]: the names of the entries, files and
    directories alike, that end in [.txt], in directory order. *)
Definition glob_txt (l : listing) : list string :=
  filter (endswith ".txt") (names l).

(** [file.name.split('_')[0]] *)
Definition prefix_of (name : string) : string :=
  nth 0 (split_on "_"%char name) EmptyString.

(** The dictionary [files_by_prefix], in insertion order. *)
Definition groups : Type := list (string * list string).

Definition contains (prefix : string) (d : groups) : bool :=
  existsb (fun g => String.eqb (fst g) prefix) d.

(** [files_by_prefix[prefix].append(file)] *)
Fixpoint append_to (prefix file : string) (d : groups) : groups :=
  match d with
  | [] => []
  | (k, fs) :: r =>
      if String.eqb k prefix then (k, fs ++ [file]) :: r
      else (k, fs) :: append_to prefix file r
  end.

(** One turn of the grouping loop. *)
Definition group_step (d : groups) (file : string) : groups :=
  let prefix := prefix_of file in
  let d := if contains prefix d then d else d ++ [(prefix, [])] in
  append_to prefix file d.

Definition group_by_prefix (files : list string) : groups :=
  fold_left group_step files [].

(** [[files[i:i + batch_size] for i in range(0, len(files), batch_size)]]:
    a zero step is refused by [range], a negative one gives no index. *)
Definition slices (files : list string) (b : nat) : list (list string) :=
  map (fun i => slice files i (i + b)) (range 0 (List.length files) b).

Definition chunks (files : list string) (batch_size : Z) : M state (list (list string)) :=
  if (batch_size =? 0)%Z then raise ValueError
  else if (batch_size <? 0)%Z then ret []
  else ret (slices files (Z.to_nat batch_size)).

Definition append_created (subdir : dest) : M state unit :=
  modify (fun st => with_created (created_dirs st ++ [subdir]) st).

(** The function; its progress messages are left out. *)
Definition split_input_by_source (batch_size : Z) : M state (list dest) :=
  modify (with_created []) ;;
  found <- gets (fun st => glob_txt (inp st)) ;;
  let files_by_prefix := group_by_prefix found in
  for_each files_by_prefix (fun '(prefix, files) =>
    if (Z.of_nat (List.length files) <=? batch_size)%Z then
      let subdir := resolve prefix in
      mkdir_exist_ok subdir ;;
      append_created subdir ;;
      for_each files (fun file => shutil_move file subdir)
    else
      parts <- chunks files batch_size ;;
      for_each (enumerate 1 parts) (fun '(i, chunk) =>
        let subdir := resolve (prefix ++ "_part" ++ str i)%string in
        mkdir_exist_ok subdir ;;
        append_created subdir ;;
        for_each chunk (fun file => shutil_move file subdir))) ;;
  gets created_dirs.

(** ** Notions the properties are stated with *)

(** The least [k] with [n <= k * b], for a positive [b]. *)
Definition ceil_div (n b : Z) : Z := ((n + b - 1) / b)%Z.

Definition is_move_to (d : dest) (c : call) : bool :=
  match c, d with
  | Move _ Here, Here => true
  | Move _ Up, Up => true
  | Move _ (Sub s), Sub s' => String.eqb s s'
  | _, _ => false
  end.

(** The files a destination received. *)
Definition received (d : dest) (tr : list call) : list call :=
  filter (is_move_to d) tr.

Definition is_move_of (n : string) (c : call) : bool :=
  match c with
  | Move n' _ => String.eqb n' n
  | Mkdir _ => false
  end.

(** The moves of one file. *)
Definition moves_of (n : string) (tr : list call) : list call :=
  filter (is_move_of n) tr.

End batch_processor.

(** * The driver scripts *)

(** ** What the two scripts share: the console, the subprocess, the codecs *)

Module driver.

(** What can be seen of a run: the lines the script prints, and the
    processes it starts (with the [NUMBA_DISABLE_JIT] setting and whether the
    streams are captured rather than left to the terminal). *)
Inductive event : Type :=
| Printed (text : string)
| Spawned (cmd : list string) (numba_disable_jit captured : bool).

(** The working directory and the console. *)
Record machine : Type := mk_machine {
  cwd : listing;
  console : list event
}.

(** What a finished process leaves: its exit status and the bytes it wrote
    to its two streams. *)
Record process : Type := mk_process {
  exit_status : Z;
  stdout_bytes : string;
  stderr_bytes : string
}.

(** The external tool: any function of the environment setting, the command
    line and the file system. *)
Definition tool : Type := bool -> list string -> listing -> process * listing.

(** The [CompletedProcess] that [subprocess.run] returns; the streams are
    [None] when they were not captured. *)
Record CompletedProcess : Type := mk_completed {
  returncode : Z;
  stdout : option string;
  stderr : option string
}.

(** An outcome that does not depend on the state. *)
Definition lift {S A} (o : outcome A) : M S A := fun s => (o, s).

Definition print (text : string) : M machine unit :=
  modify (fun m => mk_machine (cwd m) (console m ++ [Printed text])).

(** The components of a relative path: empty ones and single dots name
    nothing. *)
Definition components (path : string) : list string :=
  filter (fun c => negb (String.eqb c "" || String.eqb c "."))
         (split_on "/"%char path).

(** [os.path.exists] *)
Definition os_path_exists (path : string) : M machine bool :=
  gets (fun m => path_exists (components path) (cwd m)).

(** [os.path.join] of a directory and a relative name. *)
Definition os_path_join (a b : string) : string := (a ++ "/" ++ b)%string.

(** The directories [os.makedirs] has to make below an existing one. *)
Fixpoint fresh_path (p : list string) : listing :=
  match p with
  | [] => []
  | c :: q => [(c, Dir (fresh_path q))]
  end.

(** [os.makedirs(path, exist_ok=True)] *)
Fixpoint makedirs (p : list string) (l : listing) : outcome listing :=
  match p with
  | [] => Returned l
  | c :: q =>
      match lookup c l with
      | None => Returned (link c (Dir (fresh_path q)) l)
      | Some (Dir es) =>
          match makedirs q es with
          | Returned es' => Returned (replace c (Dir es') l)
          | Raised e => Raised e
          end
      | Some (File _) =>
          Raised (match q with [] => FileExistsError | _ => NotADirectoryError end)
      end
  end.

Definition os_makedirs (path : string) : M machine unit :=
  fun m =>
    match makedirs (components path) (cwd m) with
    | Returned l => (Returned tt, mk_machine l (console m))
    | Raised e => (Raised e, m)
    end.

(** The line feed. *)
Definition LF : string := String "010"%char EmptyString.

(** [print(x)] of a stream that may not have been captured. *)
Definition shown (o : option string) : string :=
  match o with
  | Some s => s
  | None => "None"
  end.

(** A string that holds a NUL character: the operating system takes no such
    string as an argument of a process or as a path. *)
Fixpoint has_nul (s : string) : bool :=
  match s with
  | EmptyString => false
  | String c r => Ascii.eqb c "000"%char || has_nul r
  end.

Section Subprocess.

Variable graphrag : tool.

(** The text that captured bytes are in the encoding of the locale, with
    the newlines translated; [None] when the bytes are not valid in it. *)
Variable locale : string -> option string.

(** [subprocess.run(cmd, capture_output=..., text=True, check=True, env=...)].
    The program is the running interpreter, which exists.  An argument with a
    NUL character is refused before anything is started ([ValueError]).  The
    captured streams are decoded when the process has ended and before its
    status is looked at; bytes that are not valid raise [UnicodeDecodeError].
    A status other than zero then raises [CalledProcessError], which carries
    the streams when they were captured. *)
Definition subprocess_run (cmd : list string) (numba_disable_jit captured : bool)
  : M machine CompletedProcess :=
  fun m =>
    if existsb has_nul cmd then (Raised ValueError, m)
    else
      let '(p, l) := graphrag numba_disable_jit cmd (cwd m) in
      let m' := mk_machine l (console m ++ [Spawned cmd numba_disable_jit captured]) in
      let streams :=
        if captured then
          match locale (stdout_bytes p), locale (stderr_bytes p) with
          | Some out, Some err => Some (Some out, Some err)
          | _, _ => None
          end
        else Some (None, None) in
      match streams with
      | None => (Raised UnicodeDecodeError, m')
      | Some (out, err) =>
          if (exit_status p =? 0)%Z
          then (Returned (mk_completed (exit_status p) out err), m')
          else (Raised (CalledProcessError cmd (exit_status p) out err), m')
      end.

(** The [try] around the query, the same in both scripts: the captured
    streams are printed and the exception is raised again. *)
Definition run_query (executable workspace query : string)
  : M machine CompletedProcess :=
  try_except
    (subprocess_run
       [executable; "-m"; "graphrag"; "query";
        "--root"; workspace; "--method"; "local"; "--query"; query]
       false true)
    (fun e =>
       match e with
       | CalledProcessError _ _ out err =>
           Some (print "❌ Graphrag failed!" ;;
                 print "STDOUT:" ;;
                 print (shown out) ;;
                 print "STDERR:" ;;
                 print (shown err) ;;
                 raise e)
       | _ => None
       end).

(** [# --- Run a query ---], the same in both scripts. *)
Definition querying (executable workspace query : string) : M machine unit :=
  print "[INFO] Running a query with GraphRAG..." ;;
  result <- run_query executable workspace query ;;
  print (LF ++ "================= QUERY RESULT =================") ;;
  print (shown (stdout result)) ;;
  print ("================================================" ++ LF).

End Subprocess.

(** *** Text codecs *)

Definition bytes_of (data : string) : list N :=
  map N_of_ascii (list_ascii_of_string data).

Definition between (lo hi b : N) : bool := (lo <=? b)%N && (b <=? hi)%N.

(** A continuation byte, [0x80..0xBF]. *)
Definition continuation (b : N) : bool := between 128 191 b.

Definition low6 (b : N) : N := N.land b 63.

(** The second byte of a sequence of three: no overlong form, no surrogate. *)
Definition second_of_three (b0 b1 : N) : bool :=
  if (b0 =? 224)%N then between 160 191 b1
  else if (b0 =? 237)%N then between 128 159 b1
  else continuation b1.

(** The second byte of a sequence of four: no overlong form, nothing above
    [U+10FFFF]. *)
Definition second_of_four (b0 b1 : N) : bool :=
  if (b0 =? 240)%N then between 144 191 b1
  else if (b0 =? 244)%N then between 128 143 b1
  else continuation b1.

(** The strict [utf-8] decoder, on well-formed sequences only. *)
Fixpoint utf8 (bs : list N) : option (list N) :=
  match bs with
  | [] => Some []
  | b0 :: r0 =>
      if (b0 <? 128)%N then option_map (cons b0) (utf8 r0)
      else if between 194 223 b0 then
        match r0 with
        | b1 :: r1 =>
            if continuation b1
            then option_map
                   (cons (N.lor (N.shiftl (N.land b0 31) 6) (low6 b1)))
                   (utf8 r1)
            else None
        | _ => None
        end
      else if between 224 239 b0 then
        match r0 with
        | b1 :: b2 :: r2 =>
            if second_of_three b0 b1 && continuation b2
            then option_map
                   (cons (N.lor (N.shiftl (N.land b0 15) 12)
                            (N.lor (N.shiftl (low6 b1) 6) (low6 b2))))
                   (utf8 r2)
            else None
        | _ => None
        end
      else if between 240 244 b0 then
        match r0 with
        | b1 :: b2 :: b3 :: r3 =>
            if second_of_four b0 b1 && continuation b2 && continuation b3
            then option_map
                   (cons (N.lor (N.shiftl (N.land b0 7) 18)
                            (N.lor (N.shiftl (low6 b1) 12)
                               (N.lor (N.shiftl (low6 b2) 6) (low6 b3)))))
                   (utf8 r3)
            else None
        | _ => None
        end
      else None
  end.

(** [cp1252] for the bytes [0x80..0x9F]; five of them are undefined. *)
Definition cp1252_high (b : N) : option N :=
  nth (N.to_nat (b - 128))
      [Some 8364; None; Some 8218; Some 402; Some 8222; Some 8230; Some 8224;
       Some 8225; Some 710; Some 8240; Some 352; Some 8249; Some 338; None;
       Some 381; None; None; Some 8216; Some 8217; Some 8220; Some 8221;
       Some 8226; Some 8211; Some 8212; Some 732; Some 8482; Some 353;
       Some 8250; Some 339; None; Some 382; Some 376]%N
      None.

Fixpoint cp1252 (bs : list N) : option (list N) :=
  match bs with
  | [] => Some []
  | b :: r =>
      match (if between 128 159 b then cp1252_high b else Some b) with
      | Some c => option_map (cons c) (cp1252 r)
      | None => None
      end
  end.

(** The names Python knows the codecs by; [latin-1] and [iso-8859-1] are one
    codec, the one that maps each byte to the code point of that number. *)
Inductive encoding : Type :=
| utf_8
| latin_1
| windows_1252
| iso_8859_1.

Definition encoding_name (e : encoding) : string :=
  match e with
  | utf_8 => "utf-8"
  | latin_1 => "latin-1"
  | windows_1252 => "windows-1252"
  | iso_8859_1 => "iso-8859-1"
  end.

(** The text as code points; [None] stands for [UnicodeDecodeError]. *)
Definition decode (e : encoding) (data : string) : option (list N) :=
  match e with
  | utf_8 => utf8 (bytes_of data)
  | latin_1 | iso_8859_1 => Some (bytes_of data)
  | windows_1252 => cp1252 (bytes_of data)
  end.

(** Reading in text mode turns [\r\n] and [\r] into [\n]. *)
Fixpoint universal_newlines (t : list N) : list N :=
  match t with
  | [] => []
  | c :: r =>
      if (c =? 13)%N then
        10%N :: match r with
                | c' :: r' =>
                    if (c' =? 10)%N then universal_newlines r'
                    else universal_newlines r
                | [] => []
                end
      else c :: universal_newlines r
  end.

(** *** Opening a file *)

(** The errors of [open] that the resolution of a path gives. *)
Inductive os_error : Type :=
| ENOENT
| ENOTDIR
| EISDIR.

Definition OSError (e : os_error) : exn :=
  match e with
  | ENOENT => FileNotFoundError
  | ENOTDIR => NotADirectoryError
  | EISDIR => IsADirectoryError
  end.

(** Where a relative path leads from the working directory. *)
Inductive walked : Type :=
| Regular (data : string)
| Is_directory
| No_entry
| Not_a_directory
| Outside.

(** The resolution of a path, component by component, from the directory
    [here], whose ancestors up to the working directory are [above]: an
    empty component or a single dot stays, two dots go to the parent, a
    name must be there, and only a directory can be followed by a further
    component, were it an empty one. *)
Fixpoint walk (above : list listing) (here : listing) (parts : list string)
  : walked :=
  match parts with
  | [] => Is_directory
  | c :: rest =>
      if String.eqb c "" || String.eqb c "." then walk above here rest
      else if String.eqb c ".." then
        match above with
        | [] => Outside
        | parent :: above' => walk above' parent rest
        end
      else
        match lookup c here with
        | None => No_entry
        | Some (File data) =>
            match rest with
            | [] => Regular data
            | _ => Not_a_directory
            end
        | Some (Dir es) => walk (here :: above) es rest
        end
  end.

Definition absolute (path : string) : bool :=
  match path with
  | String "/"%char _ => true
  | _ => false
  end.

(** [open(path, "r", ...)] and the reading of the bytes.  A path with a NUL
    character is refused ([ValueError]) and the empty path names nothing.
    What an absolute path, or a path that climbs above the working
    directory, leads to is not in the tree: [elsewhere] says what the
    opening gives then, the bytes or the error. *)
Definition open_read (elsewhere : string -> os_error + string)
           (path : string) (l : listing) : outcome string :=
  let outside :=
    match elsewhere path with
    | inl e => Raised (OSError e)
    | inr data => Returned data
    end in
  if has_nul path then Raised ValueError
  else if String.eqb path "" then Raised FileNotFoundError
  else if absolute path then outside
  else
    match walk [] l (split_on "/"%char path) with
    | Regular data => Returned data
    | Is_directory => Raised IsADirectoryError
    | No_entry => Raised FileNotFoundError
    | Not_a_directory => Raised NotADirectoryError
    | Outside => outside
    end.

(** [with open(path, "r", encoding=e) as f: f.read()] *)
Definition read_text (elsewhere : string -> os_error + string)
           (path : string) (e : encoding) : M machine (list N) :=
  fun m =>
    match open_read elsewhere path (cwd m) with
    | Raised err => (Raised err, m)
    | Returned data =>
        match decode e data with
        | Some t => (Returned (universal_newlines t), m)
        | None => (Raised UnicodeDecodeError, m)
        end
    end.

(** *** The splitters *)

(** The two splitters of [langchain_text_splitters] are taken as they come:
    their constructors and their methods are any functions, each of which
    returns or raises. *)
Record splitters : Type := mk_splitters {
  section_splitter : Type;
  text_splitter : Type;
  document : Type;
  HTMLSectionSplitter : list (string * string) -> outcome section_splitter;
  split_text_from_file : section_splitter -> list N -> outcome (list document);
  RecursiveCharacterTextSplitter : Z -> Z -> outcome text_splitter;
  split_documents : text_splitter -> list document -> outcome (list document);
  page_content : document -> list N
}.

Definition default_headers : list (string * string) :=
  [("h1", "Header 1"); ("h2", "Header 2"); ("h3", "Header 3"); ("h4", "Header 4")].

(** [if headers_to_split_on is None: headers_to_split_on = [...]] *)
Definition headers_or_default (headers_to_split_on : option (list (string * string)))
  : list (string * string) :=
  match headers_to_split_on with
  | None => default_headers
  | Some h => h
  end.

(** What follows the reading, in both scripts. *)
Definition chunks_of (sp : splitters) (splitter : section_splitter sp)
           (chunk_size chunk_overlap : Z) (html_str : list N)
  : outcome (list (list N)) :=
  match split_text_from_file sp splitter html_str with
  | Raised e => Raised e
  | Returned html_splits =>
      match RecursiveCharacterTextSplitter sp chunk_size chunk_overlap with
      | Raised e => Raised e
      | Returned text_splitter =>
          match split_documents sp text_splitter html_splits with
          | Raised e => Raised e
          | Returned chunks => Returned (map (page_content sp) chunks)
          end
      end
  end.

End driver.

(** ** data_ingestion.py *)

Module data_ingestion.

Import driver.

Definition WORKSPACE : string := "./msgragtest".
Definition INPUT_DIR : string := os_path_join WORKSPACE "input".
Definition QUERY : string := "What does the US Coast Guard do?".

Record tuning_config : Type := mk_tuning {
  domain : string;
  selection_method : string;
  limit : nat;
  n_subset_max : nat;
  k : nat;
  chunk_size : nat;
  max_tokens : nat;
  min_examples_required : nat;
  language : string;
  discover_entity_types : bool;
  output : string
}.

Definition AUTO_TUNING_CONFIG : tuning_config :=
  mk_tuning "US Legal Code" "auto" 50 1000 50 512 4096 5 "English" true "prompts".

(** The encodings [parse_html_to_chunks] tries, in this order. *)
Definition encodings : list encoding :=
  [utf_8; latin_1; windows_1252; iso_8859_1].

Section Script.

Variable graphrag : tool.
Variable locale : string -> option string.
(** [sys.executable] *)
Variable executable : string.
(** [str(e)] of an exception *)
Variable describe : exn -> string.
Variable elsewhere : string -> os_error + string.
Variable sp : splitters.

Definition run_auto_prompt_tuning (workspace_path : string)
           (config_path : option string) : M machine bool :=
  print "[INFO] Running auto prompt tuning..." ;;
  let config_path :=
    match config_path with
    | None => os_path_join workspace_path "settings.yaml"
    | Some p => p
    end in
  let cmd :=
    [executable; "-m"; "graphrag"; "prompt-tune";
     "--root"; workspace_path;
     "--config"; config_path;
     "--domain"; domain AUTO_TUNING_CONFIG;
     "--selection-method"; selection_method AUTO_TUNING_CONFIG;
     "--limit"; str (limit AUTO_TUNING_CONFIG);
     "--language"; language AUTO_TUNING_CONFIG;
     "--max-tokens"; str (max_tokens AUTO_TUNING_CONFIG);
     "--chunk-size"; str (chunk_size AUTO_TUNING_CONFIG);
     "--min-examples-required"; str (min_examples_required AUTO_TUNING_CONFIG);
     "--output"; output AUTO_TUNING_CONFIG] in
  let cmd :=
    if discover_entity_types AUTO_TUNING_CONFIG
    then cmd ++ ["--discover-entity-types"]
    else cmd ++ ["--no-discover-entity-types"] in
  try_except
    (_ <- subprocess_run graphrag locale cmd true true ;;
     print "[SUCCESS] Auto prompt tuning completed successfully!" ;;
     print ("[INFO] Generated prompts saved to: "
              ++ os_path_join workspace_path (output AUTO_TUNING_CONFIG)) ;;
     ret true)
    (fun e =>
       match e with
       | CalledProcessError _ _ _ err =>
           Some (print ("[ERROR] Auto prompt tuning failed: " ++ describe e) ;;
                 print ("[ERROR] stderr: " ++ shown err) ;;
                 ret false)
       | _ => None
       end).

(** The loop over the encodings: the first that decodes ends it
    ([break]), a [UnicodeDecodeError] goes on to the next ([continue]),
    and [html_str] stays [None] when the list is used up. *)
Fixpoint read_any (html_path : string) (encodings : list encoding)
  : M machine (option (list N)) :=
  match encodings with
  | [] => ret None
  | encoding :: rest =>
      try_except
        (html_str <- read_text elsewhere html_path encoding ;;
         print ("[DEBUG] Successfully read " ++ html_path ++ " with "
                  ++ encoding_name encoding ++ " encoding") ;;
         ret (Some html_str))
        (fun e =>
           match e with
           | UnicodeDecodeError => Some (read_any html_path rest)
           | _ => None
           end)
  end.

(** [# Try multiple encodings to handle different file formats]: the loop,
    and the error when it has left [html_str] at [None]. *)
Definition decoding (html_path : string) : M machine (list N) :=
  html_str <- read_any html_path encodings ;;
  match html_str with
  | None => raise ValueError
  | Some html_str => ret html_str
  end.

Definition parse_html_to_chunks (html_path : string)
           (headers_to_split_on : option (list (string * string)))
           (chunk_size chunk_overlap : Z) : M machine (list (list N)) :=
  let headers_to_split_on := headers_or_default headers_to_split_on in
  splitter <- lift (HTMLSectionSplitter sp headers_to_split_on) ;;
  html_str <- decoding html_path ;;
  lift (chunks_of sp splitter chunk_size chunk_overlap html_str).

(** The statements of the module, top to bottom, under the headings the
    source gives them; the block that writes the chunk files is a string
    literal in the source and does not run. *)

(** [# --- Initialize workspace (if not already initialized) ---] *)
Definition initializing : M machine unit :=
  env_file <- os_path_exists (os_path_join WORKSPACE ".env") ;;
  settings <- os_path_exists (os_path_join WORKSPACE "settings.yaml") ;;
  if negb (env_file && settings) then
    print "[INFO] Initializing GraphRAG workspace..." ;;
    _ <- subprocess_run graphrag locale
           [executable; "-m"; "graphrag"; "init"; "--root"; WORKSPACE]
           false false ;;
    ret tt
  else print "[INFO] GraphRAG workspace already initialized.".

(** [# --- Run auto prompt tuning ---] *)
Definition tuning : M machine unit :=
  print "[INFO] Running auto prompt tuning for domain-adapted prompts..." ;;
  tuning_success <- run_auto_prompt_tuning WORKSPACE None ;;
  if tuning_success : bool then
    print "[INFO] Auto-tuning completed successfully - GraphRAG will use the tuned prompts automatically"
  else
    print "[WARNING] Auto prompt tuning failed, proceeding with default prompts".

(** [# --- Index the input file ---]: [output_dir] is computed and not
    used. *)
Definition indexing : M machine unit :=
  let output_dir := os_path_join WORKSPACE "output" in
  print "[INFO] Indexing input file with GraphRAG..." ;;
  _ <- subprocess_run graphrag locale
         [executable; "-m"; "graphrag"; "index"; "--root"; WORKSPACE]
         true false ;;
  ret tt.

Definition script : M machine unit :=
  initializing ;;
  os_makedirs INPUT_DIR ;;
  tuning ;;
  indexing ;;
  querying graphrag locale executable WORKSPACE QUERY.

End Script.

End data_ingestion.

(** ** test-integration.py *)

Module test_integration.

Import driver.

Definition WORKSPACE : string := "./msgragtest".
Definition INPUT_DIR : string := os_path_join WORKSPACE "input".
Definition QUERY : string :=
  "What are the Border, Maritime, and Transportation Security Responsibilities and Functions?".

Definition key_files : list string :=
  ["entities.parquet"; "relationships.parquet"; "communities.parquet"].

Record tuning_config : Type := mk_tuning {
  domain : string;
  selection_method : string;
  limit : nat;
  language : string;
  max_tokens : nat;
  chunk_size : nat;
  min_examples_required : nat;
  discover_entity_types : bool;
  output : string
}.

Definition AUTO_TUNING_CONFIG : tuning_config :=
  mk_tuning "document analysis" "random" 15 "English" 2048 256 3 false "prompts".

Section Script.

Variable graphrag : tool.
Variable locale : string -> option string.
Variable executable : string.
(** [str(e)] of an exception *)
Variable describe : exn -> string.
Variable elsewhere : string -> os_error + string.
Variable sp : splitters.

Definition run_auto_prompt_tuning (workspace_path : string)
           (config_path : option string) : M machine bool :=
  print "[INFO] Running auto prompt tuning..." ;;
  let config_path :=
    match config_path with
    | None => os_path_join workspace_path "settings.yaml"
    | Some p => p
    end in
  let cmd :=
    [executable; "-m"; "graphrag"; "prompt-tune";
     "--root"; workspace_path;
     "--config"; config_path;
     "--domain"; domain AUTO_TUNING_CONFIG;
     "--selection-method"; selection_method AUTO_TUNING_CONFIG;
     "--limit"; str (limit AUTO_TUNING_CONFIG);
     "--language"; language AUTO_TUNING_CONFIG;
     "--max-tokens"; str (max_tokens AUTO_TUNING_CONFIG);
     "--chunk-size"; str (chunk_size AUTO_TUNING_CONFIG);
     "--min-examples-required"; str (min_examples_required AUTO_TUNING_CONFIG);
     "--output"; output AUTO_TUNING_CONFIG] in
  let cmd :=
    if discover_entity_types AUTO_TUNING_CONFIG
    then cmd ++ ["--discover-entity-types"]
    else cmd ++ ["--no-discover-entity-types"] in
  try_except
    (_ <- subprocess_run graphrag locale cmd true true ;;
     print "[SUCCESS] Auto prompt tuning completed successfully!" ;;
     print ("[INFO] Generated prompts saved to: "
              ++ os_path_join workspace_path (output AUTO_TUNING_CONFIG)) ;;
     ret true)
    (fun e =>
       match e with
       | CalledProcessError _ _ _ err =>
           Some (print ("[ERROR] Auto prompt tuning failed: " ++ describe e) ;;
                 print ("[ERROR] stderr: " ++ shown err) ;;
                 ret false)
       | _ => None
       end).

Definition parse_html_to_chunks (html_path : string)
           (headers_to_split_on : option (list (string * string)))
           (chunk_size chunk_overlap : Z) : M machine (list (list N)) :=
  let headers_to_split_on := headers_or_default headers_to_split_on in
  splitter <- lift (HTMLSectionSplitter sp headers_to_split_on) ;;
  html_str <- read_text elsewhere html_path utf_8 ;;
  lift (chunks_of sp splitter chunk_size chunk_overlap html_str).

(** The statements of the module, top to bottom.  The block that checks
    the chunk files, initialises the workspace and checks the prompts
    directory before tuning is a string literal in the source and does
    not run; [run_auto_prompt_tuning] is defined and never called. *)

(** [# --- Index the input file ---] *)
Definition indexing : M machine unit :=
  let output_dir := os_path_join WORKSPACE "output" in
  output_exists <- os_path_exists output_dir ;;
  indexing_complete <-
    (if output_exists : bool then
       existing_files <-
         gets (fun m =>
                 filter (fun f =>
                           path_exists (components (os_path_join output_dir f))
                                       (cwd m))
                        key_files) ;;
       if Nat.leb 2 (List.length existing_files) then
         print ("[INFO] Found existing indexing output ("
                  ++ str (List.length existing_files)
                  ++ "/3 key files), skipping indexing") ;;
         print ("[INFO] Existing files: " ++ String.concat ", " existing_files) ;;
         ret true
       else ret false
     else ret false) ;;
  if negb indexing_complete then
    print "[INFO] Indexing input file with GraphRAG..." ;;
    _ <- subprocess_run graphrag locale
           [executable; "-m"; "graphrag"; "index"; "--root"; WORKSPACE]
           true false ;;
    ret tt
  else print "[INFO] Using existing indexed data".

Definition script : M machine unit :=
  os_makedirs INPUT_DIR ;;
  indexing ;;
  querying graphrag locale executable WORKSPACE QUERY.

End Script.

End test_integration.

(** * Properties *)

Import batch_processor.

(** ** Strings *)

Fixpoint has_char (c : ascii) (s : string) : bool :=
  match s with
  | EmptyString => false
  | String c' r => Ascii.eqb c' c || has_char c r
  end.

Lemma split_on_not_nil sep s : split_on sep s <> [].
Proof.
  destruct s as [|c r]; simpl; [discriminate|].
  destruct (Ascii.eqb c sep); [discriminate|].
  destruct (split_on sep r); discriminate.
Qed.

Lemma prefix_of_empty : prefix_of "" = "".
Proof. reflexivity. Qed.

Lemma prefix_of_cons c r :
  prefix_of (String c r) =
  if Ascii.eqb c "_" then EmptyString else String c (prefix_of r).
Proof.
  unfold prefix_of; simpl.
  destruct (Ascii.eqb c "_"); [reflexivity|].
  pose proof (split_on_not_nil "_" r) as Hne.
  destruct (split_on "_" r); [congruence | reflexivity].
Qed.

Lemma prefix_of_no_underscore n : has_char "_" (prefix_of n) = false.
Proof.
  induction n as [|c r IH]; [reflexivity|].
  rewrite prefix_of_cons.
  destruct (Ascii.eqb c "_") eqn:E; [reflexivity|].
  simpl. now rewrite E.
Qed.

(** The key is the part of the name before its first underscore, and the
    whole name when it has none. *)
Lemma prefix_of_spec n :
  exists rest,
    n = (prefix_of n ++ rest)%string /\
    has_char "_" (prefix_of n) = false /\
    (rest = EmptyString /\ has_char "_" n = false \/
     exists r, rest = String "_" r).
Proof.
  induction n as [|c r IH].
  - exists EmptyString. repeat split. now left.
  - rewrite prefix_of_cons.
    destruct (Ascii.eqb c "_") eqn:E.
    + apply Ascii.eqb_eq in E. subst c.
      exists (String "_" r). repeat split. right. now exists r.
    + destruct IH as (rest & Hn & Hp & Hr).
      exists rest. simpl. rewrite E. repeat split.
      * now rewrite <- Hn.
      * exact Hp.
      * destruct Hr as [[-> Hr]|[r' ->]]; [left|right].
        -- split; [reflexivity|]. exact Hr.
        -- now exists r'.
Qed.

Lemma prefix_of_whole n : has_char "_" n = false -> prefix_of n = n.
Proof.
  induction n as [|c r IH]; [reflexivity|].
  simpl. rewrite prefix_of_cons.
  destruct (Ascii.eqb c "_"); simpl; [discriminate|].
  intros H. now rewrite IH.
Qed.

Lemma prefix_of_app k r :
  has_char "_" k = false -> prefix_of (k ++ String "_" r) = k.
Proof.
  induction k as [|c k IH]; simpl; intros H.
  - now rewrite prefix_of_cons.
  - rewrite prefix_of_cons.
    destruct (Ascii.eqb c "_"); simpl in H; [discriminate|].
    now rewrite IH.
Qed.

Lemma append_inj_l (k a b : string) : (k ++ a = k ++ b)%string -> a = b.
Proof.
  induction k; simpl; [auto|]. intros [=]. auto.
Qed.

Lemma to_uint_not_nil n : Nat.to_uint n <> Decimal.Nil.
Proof.
  pose proof (DecimalNat.Unsigned.to_of (Nat.to_uint n)) as H.
  rewrite DecimalNat.Unsigned.of_to in H.
  rewrite H. unfold Decimal.unorm.
  destruct (Decimal.nzhead (Nat.to_uint n)); discriminate.
Qed.

Lemma str_inj i j : str i = str j -> i = j.
Proof.
  unfold str. intros H.
  apply DecimalNat.Unsigned.to_uint_inj.
  pose proof (NilZero.usu _ (to_uint_not_nil i)) as Hi.
  pose proof (NilZero.usu _ (to_uint_not_nil j)) as Hj.
  rewrite H in Hi. congruence.
Qed.

(** ** Grouping by prefix *)

Definition keys (d : groups) : list string := map fst d.

(** The files recorded under a key; none when the key is absent. *)
Fixpoint files_of (k : string) (d : groups) : list string :=
  match d with
  | [] => []
  | (k', fs) :: r => if String.eqb k' k then fs else files_of k r
  end.

Lemma contains_keys p d : contains p d = true <-> In p (keys d).
Proof.
  unfold contains, keys. rewrite existsb_exists, in_map_iff. split.
  - intros ((k, fs) & Hin & E). apply String.eqb_eq in E. now exists (k, fs).
  - intros ((k, fs) & E & Hin). exists (k, fs). split; [exact Hin|].
    now apply String.eqb_eq.
Qed.

Lemma append_to_keys p f d : keys (append_to p f d) = keys d.
Proof.
  induction d as [|(k, fs) r IH]; simpl; [reflexivity|].
  destruct (String.eqb k p); simpl; [reflexivity|]. now rewrite IH.
Qed.

Lemma group_step_keys d f :
  keys (group_step d f) =
  if contains (prefix_of f) d then keys d else keys d ++ [prefix_of f].
Proof.
  unfold group_step. rewrite append_to_keys.
  destruct (contains (prefix_of f) d); [reflexivity|].
  unfold keys. now rewrite map_app.
Qed.

Lemma group_step_NoDup d f : NoDup (keys d) -> NoDup (keys (group_step d f)).
Proof.
  intros H. rewrite group_step_keys.
  destruct (contains (prefix_of f) d) eqn:E; [exact H|].
  apply NoDup_app; [exact H | repeat constructor; intros [] |].
  intros x Hx [<-|[]].
  apply contains_keys in Hx. congruence.
Qed.

Lemma files_of_append_to k p f d :
  files_of k (append_to p f d) =
  files_of k d ++ (if String.eqb p k && contains p d then [f] else []).
Proof.
  induction d as [|(k', fs) r IH]; simpl.
  - now rewrite andb_false_r.
  - destruct (String.eqb k' p) eqn:E1; simpl.
    + apply String.eqb_eq in E1. subst k'. unfold contains. simpl.
      rewrite andb_true_r.
      destruct (String.eqb p k); [reflexivity | now rewrite app_nil_r].
    + destruct (String.eqb k' k) eqn:E2; [|exact IH].
      apply String.eqb_eq in E2. subst k'.
      rewrite String.eqb_sym in E1. rewrite E1. simpl.
      now rewrite app_nil_r.
Qed.

Lemma files_of_snoc_empty k p d : files_of k (d ++ [(p, [])]) = files_of k d.
Proof.
  induction d as [|(k', fs) r IH]; simpl.
  - now destruct (String.eqb p k).
  - now destruct (String.eqb k' k).
Qed.

Lemma contains_snoc p d : contains p (d ++ [(p, [])]) = true.
Proof.
  apply contains_keys. unfold keys. rewrite map_app. apply in_or_app.
  right. now left.
Qed.

Lemma files_of_group_step k d f :
  files_of k (group_step d f) =
  files_of k d ++ (if String.eqb (prefix_of f) k then [f] else []).
Proof.
  unfold group_step. rewrite files_of_append_to.
  destruct (contains (prefix_of f) d) eqn:E.
  - now rewrite E, andb_true_r.
  - now rewrite files_of_snoc_empty, contains_snoc, andb_true_r.
Qed.

Lemma files_of_fold k files d :
  files_of k (fold_left group_step files d) =
  files_of k d ++ filter (fun f => String.eqb (prefix_of f) k) files.
Proof.
  revert d. induction files as [|f r IH]; intros d; simpl.
  - now rewrite app_nil_r.
  - rewrite IH, files_of_group_step, <- app_assoc.
    now destruct (String.eqb (prefix_of f) k).
Qed.

Lemma fold_NoDup files d :
  NoDup (keys d) -> NoDup (keys (fold_left group_step files d)).
Proof.
  revert d. induction files as [|f r IH]; intros d H; simpl; [exact H|].
  apply IH. now apply group_step_NoDup.
Qed.

Lemma fold_keys k files d :
  In k (keys (fold_left group_step files d)) <->
  In k (keys d) \/ exists f, In f files /\ prefix_of f = k.
Proof.
  revert d. induction files as [|f r IH]; intros d; simpl.
  - split; [now left | intros [H|(f & [] & _)]; exact H].
  - rewrite IH, group_step_keys. split.
    + intros [H|(f' & Hf' & E)].
      * destruct (contains (prefix_of f) d) eqn:Ec; [now left|].
        apply in_app_or in H. destruct H as [H|[<-|[]]]; [now left|].
        right. exists f. now split; [left|].
      * right. exists f'. now split; [right|].
    + intros [H|(f' & [<-|Hf'] & E)].
      * left. destruct (contains (prefix_of f) d); [exact H|].
        apply in_or_app. now left.
      * left. subst k. destruct (contains (prefix_of f) d) eqn:Ec.
        -- now apply contains_keys.
        -- apply in_or_app. right. now left.
      * right. now exists f'.
Qed.

Lemma in_files_of k fs d : NoDup (keys d) -> In (k, fs) d -> files_of k d = fs.
Proof.
  induction d as [|(k', fs') r IH]; simpl; [intros _ []|].
  intros Hnd [E|Hin].
  - injection E as -> ->. now rewrite String.eqb_refl.
  - inversion Hnd as [|? ? Hni Hnd']; subst.
    destruct (String.eqb k' k) eqn:E.
    + apply String.eqb_eq in E. subst k'. exfalso. apply Hni.
      unfold keys in *. apply in_map_iff. now exists (k, fs).
    + now apply IH.
Qed.

Lemma files_of_in k d : In k (keys d) -> In (k, files_of k d) d.
Proof.
  induction d as [|(k', fs') r IH]; simpl; [intros []|].
  intros [E|Hin].
  - subst k'. rewrite String.eqb_refl. now left.
  - destruct (String.eqb k' k) eqn:E.
    + apply String.eqb_eq in E. subst k'. now left.
    + right. now apply IH.
Qed.

Definition with_prefix (k : string) (files : list string) : list string :=
  filter (fun f => String.eqb (prefix_of f) k) files.

(** A group holds the files of its key, in the order they were found, and
    is never empty. *)
Lemma group_by_prefix_spec files k fs :
  In (k, fs) (group_by_prefix files) <->
  fs = with_prefix k files /\ fs <> [].
Proof.
  unfold group_by_prefix, with_prefix. split.
  - intros Hin.
    assert (Hk : In k (keys (fold_left group_step files []))).
    { unfold keys. apply in_map_iff. now exists (k, fs). }
    apply in_files_of in Hin; [|apply fold_NoDup; constructor].
    rewrite files_of_fold in Hin. simpl in Hin. split; [now symmetry|].
    apply fold_keys in Hk. destruct Hk as [[]|(f & Hf & E)].
    subst fs. intros Hnil.
    assert (Hf' : In f (filter (fun f0 => String.eqb (prefix_of f0) k) files)).
    { apply filter_In. split; [exact Hf | now apply String.eqb_eq]. }
    rewrite Hnil in Hf'. exact Hf'.
  - intros [-> Hne].
    assert (Hk : In k (keys (fold_left group_step files []))).
    { apply fold_keys. right.
      destruct (filter (fun f => String.eqb (prefix_of f) k) files) as [|f r] eqn:E;
        [congruence|].
      assert (Hf : In f (filter (fun f => String.eqb (prefix_of f) k) files))
        by (rewrite E; now left).
      apply filter_In in Hf. destruct Hf as [Hf Hp].
      exists f. split; [exact Hf | now apply String.eqb_eq]. }
    apply files_of_in in Hk. rewrite files_of_fold in Hk. exact Hk.
Qed.

Lemma group_by_prefix_NoDup files : NoDup (keys (group_by_prefix files)).
Proof. apply fold_NoDup. constructor. Qed.

Lemma group_key_no_underscore files k fs :
  In (k, fs) (group_by_prefix files) -> has_char "_" k = false.
Proof.
  intros H. apply group_by_prefix_spec in H. destruct H as [-> Hne].
  unfold with_prefix in Hne.
  destruct (filter (fun f => String.eqb (prefix_of f) k) files) as [|f r] eqn:E;
    [congruence|].
  assert (Hf : In f (filter (fun f => String.eqb (prefix_of f) k) files))
    by (rewrite E; now left).
  apply filter_In in Hf. destruct Hf as [_ Hp]. apply String.eqb_eq in Hp.
  subst k. apply prefix_of_no_underscore.
Qed.

Lemma append_to_perm p f d :
  In p (keys d) ->
  Permutation (List.concat (map snd (append_to p f d))) (f :: List.concat (map snd d)).
Proof.
  induction d as [|(k, fs) r IH]; simpl; [intros []|].
  intros Hin. destruct (String.eqb k p) eqn:E; simpl.
  - rewrite <- app_assoc. simpl.
    symmetry. apply Permutation_cons_app. apply Permutation_refl.
  - destruct Hin as [->|Hin]; [now rewrite String.eqb_refl in E|].
    rewrite (IH Hin). symmetry. apply Permutation_middle.
Qed.

Lemma group_step_perm d f :
  Permutation (List.concat (map snd (group_step d f))) (f :: List.concat (map snd d)).
Proof.
  unfold group_step. destruct (contains (prefix_of f) d) eqn:E.
  - apply append_to_perm. now apply contains_keys.
  - rewrite append_to_perm.
    + rewrite map_app, List.concat_app. simpl. now rewrite !app_nil_r.
    + apply contains_keys. apply contains_snoc.
Qed.

Lemma fold_perm files d :
  Permutation (List.concat (map snd (fold_left group_step files d)))
              (List.concat (map snd d) ++ files).
Proof.
  revert d. induction files as [|f r IH]; intros d; simpl.
  - now rewrite app_nil_r.
  - rewrite IH, group_step_perm. apply Permutation_middle.
Qed.

(** Every file found is in one group, once. *)
Lemma group_by_prefix_perm files :
  Permutation (List.concat (map snd (group_by_prefix files))) files.
Proof. apply (fold_perm files []). Qed.

(** ** Chunks *)

Lemma range_step_closed b fuel start stop :
  0 < b -> stop <= start + fuel ->
  exists k,
    range_step fuel start stop b = map (fun i => start + i * b) (seq 0 k) /\
    stop <= start + k * b /\
    (forall i, i < k -> start + i * b < stop).
Proof.
  intros Hb. revert start.
  induction fuel as [|fuel IH]; intros start Hfuel; simpl.
  - exists 0. simpl. repeat split; [lia | intros i Hi; lia].
  - destruct (Nat.ltb start stop) eqn:E.
    + apply Nat.ltb_lt in E.
      destruct (IH (start + b)) as (k & Hk & Hge & Hlt); [lia|].
      exists (S k). simpl. repeat split.
      * rewrite Nat.add_0_r. f_equal. rewrite Hk, <- seq_shift, map_map.
        apply map_ext. intros i. simpl. lia.
      * lia.
      * intros [|i] Hi; [lia|]. specialize (Hlt i). simpl. lia.
    + apply Nat.ltb_ge in E. exists 0. simpl.
      repeat split; [lia | intros i Hi; lia].
Qed.

Lemma range_closed b stop :
  0 < b ->
  exists k,
    range 0 stop b = map (fun i => i * b) (seq 0 k) /\
    stop <= k * b /\
    (forall i, i < k -> i * b < stop).
Proof.
  intros Hb. unfold range.
  destruct (range_step_closed b stop 0 stop Hb) as (k & Hk & Hge & Hlt); [lia|].
  exists k. repeat split; [exact Hk | lia | intros i Hi; apply (Hlt i Hi)].
Qed.

Lemma ceil_div_unique (n b k : Z) :
  (0 < b)%Z -> ((k - 1) * b < n)%Z -> (n <= k * b)%Z -> ceil_div n b = k.
Proof.
  intros Hb Hlo Hhi. unfold ceil_div. symmetry.
  apply Z.div_unique_pos with (r := (n + b - 1 - b * k)%Z); lia.
Qed.

(** The number of slices is the ceiling of the quotient. *)
Lemma slices_closed (files : list string) (b : nat) :
  0 < b ->
  exists k,
    slices files b = map (fun i => slice files (i * b) (i * b + b)) (seq 0 k) /\
    Z.of_nat k = ceil_div (Z.of_nat (List.length files)) (Z.of_nat b) /\
    (forall i, i < k -> i * b < List.length files).
Proof.
  intros Hb. unfold slices.
  destruct (range_closed b (List.length files) Hb) as (k & Hk & Hge & Hlt).
  exists k. rewrite Hk, map_map. repeat split; [|exact Hlt].
  symmetry. apply ceil_div_unique; [lia| |nia].
  destruct k as [|k]; [nia|]. specialize (Hlt k). nia.
Qed.

Lemma slice_length {A} (l : list A) i b :
  List.length (slice l i (i + b)) = Nat.min b (List.length l - i).
Proof.
  unfold slice. rewrite length_firstn, length_skipn. f_equal. lia.
Qed.

Lemma concat_slices_from {A} (l : list A) b k j :
  0 < b -> List.length l <= (j + k) * b ->
  List.concat (map (fun i => slice l (i * b) (i * b + b)) (seq j k)) =
  skipn (j * b) l.
Proof.
  intros Hb. revert j. induction k as [|k IH]; intros j Hlen; simpl.
  - symmetry. apply skipn_all2. lia.
  - rewrite IH by lia. unfold slice.
    replace (j * b + b - j * b) with b by lia.
    replace (S j * b) with (b + j * b) by lia.
    rewrite <- skipn_skipn. apply firstn_skipn.
Qed.

(** The slices cut the list: nothing is lost, repeated or reordered. *)
Lemma concat_slices (files : list string) b :
  0 < b -> List.concat (slices files b) = files.
Proof.
  intros Hb. destruct (slices_closed files b Hb) as (k & -> & Hk & _).
  rewrite (concat_slices_from files b k 0 Hb); [reflexivity|].
  assert (H : (Z.of_nat (List.length files) <= Z.of_nat k * Z.of_nat b)%Z).
  { rewrite Hk. unfold ceil_div.
    pose proof (Z.div_mod (Z.of_nat (List.length files) + Z.of_nat b - 1)
                          (Z.of_nat b)) as Hdm.
    pose proof (Z.mod_pos_bound (Z.of_nat (List.length files) + Z.of_nat b - 1)
                                (Z.of_nat b)) as Hmb.
    nia. }
  simpl. nia.
Qed.

Lemma slices_bound (files : list string) b c :
  0 < b -> In c (slices files b) -> 1 <= List.length c <= b.
Proof.
  intros Hb Hin. destruct (slices_closed files b Hb) as (k & E & _ & Hlt).
  rewrite E in Hin. apply in_map_iff in Hin. destruct Hin as (i & <- & Hi).
  apply in_seq in Hi. rewrite slice_length. specialize (Hlt i). lia.
Qed.

Lemma enumerate_map_seq {A} (f : nat -> A) s a k :
  enumerate s (map f (seq a k)) =
  map (fun j => (s + j, f (a + j))) (seq 0 k).
Proof.
  revert s a. induction k as [|k IH]; intros s a; simpl; [reflexivity|].
  rewrite !Nat.add_0_r. f_equal.
  rewrite IH, <- seq_shift, map_map. apply map_ext. intros j.
  f_equal; [lia | f_equal; lia].
Qed.

(** ** The batches the loops go through *)

(** A destination name, as joined to the input path, and the files moved
    to it. *)
Abbreviation batch := (string * list string)%type (only parsing).

Definition part_name (prefix : string) (i : nat) : string :=
  (prefix ++ "_part" ++ str i)%string.

Definition batches_of (B : Z) (g : string * list string) : list batch :=
  if (Z.of_nat (List.length (snd g)) <=? B)%Z then [g]
  else map (fun p => (part_name (fst g) (fst p), snd p))
           (enumerate 1 (slices (snd g) (Z.to_nat B))).

Definition plan (B : Z) (l : listing) : list batch :=
  flat_map (batches_of B) (group_by_prefix (glob_txt l)).

Definition run_batch (b : batch) : M state unit :=
  let subdir := resolve (fst b) in
  mkdir_exist_ok subdir ;;
  append_created subdir ;;
  for_each (snd b) (fun file => shutil_move file subdir).

Lemma bind_ret_tt {S} (m : M S unit) s : (m ;; ret tt) s = m s.
Proof.
  unfold bind, ret. destruct (m s) as [[[]|e] s']; reflexivity.
Qed.

Lemma for_each_ext {S A} (l : list A) (f g : A -> M S unit) :
  (forall a s, f a s = g a s) -> forall s, for_each l f s = for_each l g s.
Proof.
  intros H. induction l as [|a r IH]; intros s; simpl; [reflexivity|].
  unfold bind. rewrite H. destruct (g a s) as [[[]|e] s']; [apply IH | reflexivity].
Qed.

Lemma for_each_app {S A} (l1 l2 : list A) (f : A -> M S unit) s :
  for_each (l1 ++ l2) f s = (for_each l1 f ;; for_each l2 f) s.
Proof.
  revert s. induction l1 as [|a r IH]; intros s; simpl; [reflexivity|].
  unfold bind in *. destruct (f a s) as [[[]|e] s']; [apply IH | reflexivity].
Qed.

Lemma for_each_map {S A B} (h : A -> B) (l : list A) (f : B -> M S unit) s :
  for_each (map h l) f s = for_each l (fun a => f (h a)) s.
Proof.
  revert s. induction l as [|a r IH]; intros s; simpl; [reflexivity|].
  unfold bind. destruct (f (h a) s) as [[[]|e] s']; [apply IH | reflexivity].
Qed.

Lemma for_each_flat_map {S A B} (h : A -> list B) (l : list A)
      (f : B -> M S unit) s :
  for_each (flat_map h l) f s = for_each l (fun a => for_each (h a) f) s.
Proof.
  revert s. induction l as [|a r IH]; intros s; simpl; [reflexivity|].
  rewrite for_each_app. unfold bind.
  destruct (for_each (h a) f s) as [[[]|e] s']; [apply IH | reflexivity].
Qed.

(** For a positive batch size the two branches of the loop body run the
    batches of the group, one after the other. *)
Lemma body_batches (B : Z) (prefix : string) (files : list string) st :
  (0 < B)%Z ->
  (if (Z.of_nat (List.length files) <=? B)%Z then
     let subdir := resolve prefix in
     mkdir_exist_ok subdir ;;
     append_created subdir ;;
     for_each files (fun file => shutil_move file subdir)
   else
     parts <- chunks files B ;;
     for_each (enumerate 1 parts) (fun '(i, chunk) =>
       let subdir := resolve (prefix ++ "_part" ++ str i)%string in
       mkdir_exist_ok subdir ;;
       append_created subdir ;;
       for_each chunk (fun file => shutil_move file subdir))) st =
  for_each (batches_of B (prefix, files)) run_batch st.
Proof.
  intros HB. unfold batches_of. simpl.
  destruct (Z.of_nat (List.length files) <=? B)%Z.
  - simpl. now rewrite bind_ret_tt.
  - unfold chunks.
    destruct (B =? 0)%Z eqn:E0; [apply Z.eqb_eq in E0; lia|].
    destruct (B <? 0)%Z eqn:E1; [apply Z.ltb_lt in E1; lia|].
    unfold bind at 1. unfold ret at 1.
    rewrite for_each_map. apply for_each_ext. intros [i chunk] s. reflexivity.
Qed.

Lemma bind_modify {S B} (f : S -> S) (k : M S B) s :
  (modify f ;; k) s = k (f s).
Proof. reflexivity. Qed.

Lemma bind_gets {S A B} (f : S -> A) (k : A -> M S B) s :
  (x <- gets f ;; k x) s = k (f s) s.
Proof. reflexivity. Qed.

Lemma bind_returned {S A B} (m : M S A) (k : A -> M S B) s a s1 :
  m s = (Returned a, s1) -> (x <- m ;; k x) s = k a s1.
Proof. unfold bind. now intros ->. Qed.

Lemma bind_cong_r {S A B} (m : M S A) (k k' : A -> M S B) s :
  (forall a s1, k a s1 = k' a s1) -> (x <- m ;; k x) s = (x <- m ;; k' x) s.
Proof.
  intros H. unfold bind. destruct (m s) as [[a|e] s1]; [apply H | reflexivity].
Qed.

Lemma bind_cong_l {S A B} (m m' : M S A) (k : A -> M S B) s :
  m s = m' s -> (x <- m ;; k x) s = (x <- m' ;; k x) s.
Proof. unfold bind. now intros ->. Qed.

Theorem split_input_by_source_plan (B : Z) (st : state) :
  (0 < B)%Z ->
  split_input_by_source B st =
  (modify (with_created []) ;;
   for_each (plan B (inp st)) run_batch ;;
   gets created_dirs) st.
Proof.
  intros HB. unfold split_input_by_source, plan.
  rewrite !bind_modify, bind_gets. simpl inp.
  apply bind_cong_l.
  rewrite for_each_flat_map. apply for_each_ext.
  intros [prefix files] s. now apply body_batches.
Qed.

(** ** The record of the calls *)

Definition calls_of_batch (b : batch) : list call :=
  Mkdir (resolve (fst b)) :: map (fun f => Move f (resolve (fst b))) (snd b).

Definition calls_of (bs : list batch) : list call :=
  flat_map calls_of_batch bs.

(** [tr] is how [l] begins. *)
Definition begins {A} (tr l : list A) : Prop := exists rest, l = tr ++ rest.

Lemma begins_refl {A} (l : list A) : begins l l.
Proof. exists []. now rewrite app_nil_r. Qed.

Lemma begins_nil {A} (l : list A) : begins [] l.
Proof. now exists l. Qed.

Lemma begins_app_l {A} (tr l l' : list A) : begins tr l -> begins tr (l ++ l').
Proof. intros [rest ->]. exists (rest ++ l'). now rewrite app_assoc. Qed.

Lemma begins_app_r {A} (l tr l' : list A) : begins tr l' -> begins (l ++ tr) (l ++ l').
Proof. intros [rest ->]. exists rest. now rewrite app_assoc. Qed.

Lemma begins_filter_length {A} (f : A -> bool) (tr l : list A) :
  begins tr l -> List.length (filter f tr) <= List.length (filter f l).
Proof. intros [rest ->]. rewrite filter_app, length_app. lia. Qed.

Ltac split_outcome H :=
  repeat match type of H with
         | (match ?x with _ => _ end) = _ => destruct x eqn:?
         | (if ?x then _ else _) = _ => destruct x eqn:?
         | (let (_, _) := ?x in _) = _ => destruct x eqn:?
         end;
  inversion H; subst; clear H.

(** *** Directory listings *)

Lemma lookup_link k s y l :
  lookup k (link s y l) =
  match lookup k l with
  | Some x => Some x
  | None => if String.eqb s k then Some y else None
  end.
Proof.
  unfold link. induction l as [|(k', x) r IH]; simpl; [reflexivity|].
  destruct (String.eqb k' k); [reflexivity | exact IH].
Qed.

Lemma lookup_unlink k n l :
  lookup k (unlink n l) = if String.eqb n k then None else lookup k l.
Proof.
  induction l as [|(k', x) r IH]; simpl.
  - now destruct (String.eqb n k).
  - destruct (String.eqb k' n) eqn:E1.
    + apply String.eqb_eq in E1. subst k'. rewrite IH.
      now destruct (String.eqb n k).
    + simpl. destruct (String.eqb k' k) eqn:E2; [|exact IH].
      apply String.eqb_eq in E2. subst k'.
      rewrite String.eqb_sym in E1. now rewrite E1.
Qed.

Lemma lookup_replace k s y l :
  lookup k (replace s y l) =
  if String.eqb s k
  then match lookup s l with Some _ => Some y | None => None end
  else lookup k l.
Proof.
  induction l as [|(k', x) r IH]; simpl.
  - now destruct (String.eqb s k).
  - destruct (String.eqb k' s) eqn:E1; simpl.
    + apply String.eqb_eq in E1. subst k'.
      now destruct (String.eqb s k).
    + destruct (String.eqb k' k) eqn:E2; [|exact IH].
      apply String.eqb_eq in E2. subst k'.
      rewrite String.eqb_sym in E1. now rewrite E1.
Qed.

Lemma lookup_None k l : lookup k l = None <-> ~ In k (names l).
Proof.
  induction l as [|(k', x) r IH]; simpl; [tauto|].
  destruct (String.eqb k' k) eqn:E.
  - apply String.eqb_eq in E. split; [discriminate | intros H; exfalso; auto].
  - apply String.eqb_neq in E. rewrite IH. tauto.
Qed.

Lemma lookup_Some_In k x l : lookup k l = Some x -> In k (names l).
Proof.
  intros H. destruct (in_dec string_dec k (names l)) as [Hin|Hni]; [exact Hin|].
  apply lookup_None in Hni. congruence.
Qed.

Lemma names_replace s y l : names (replace s y l) = names l.
Proof.
  induction l as [|(k', x) r IH]; simpl; [reflexivity|].
  destruct (String.eqb k' s); simpl; [reflexivity | now rewrite IH].
Qed.

Lemma names_unlink n l :
  names (unlink n l) = filter (fun k => negb (String.eqb k n)) (names l).
Proof.
  induction l as [|(k', x) r IH]; simpl; [reflexivity|].
  destruct (String.eqb k' n); simpl; [exact IH | now rewrite IH].
Qed.

Lemma names_link s y l : names (link s y l) = names l ++ [s].
Proof. unfold link, names. now rewrite map_app. Qed.

(** *** Effects of the two calls, step by step *)

Lemma mkdir_step d st r st' :
  mkdir_exist_ok d st = (r, st') ->
  up st' = up st /\ input_name st' = input_name st /\
  created_dirs st' = created_dirs st /\
  (r = Returned tt /\ trace st' = trace st ++ [Mkdir d] \/
   (exists e, r = Raised e) /\ st' = st).
Proof.
  unfold mkdir_exist_ok. intros H. split_outcome H; simpl;
    repeat split; (now left) || (right; split; [eauto | reflexivity]).
Qed.

Lemma move_step n d st r st' :
  shutil_move n d st = (r, st') ->
  input_name st' = input_name st /\
  created_dirs st' = created_dirs st /\
  (r = Returned tt /\ trace st' = trace st ++ [Move n d] \/
   (exists e, r = Raised e) /\ st' = st).
Proof.
  unfold shutil_move. intros H. split_outcome H; simpl;
    repeat split; (now left) || (right; split; [eauto | reflexivity]).
Qed.

(** Whatever relates the states before and after each completed call, and
    is kept when calls follow one another, relates the states before and
    after the loops; the record of the calls is the beginning of the
    planned one, and all of it when nothing was raised. *)
Section Simulation.

Variable R : state -> list call -> state -> Prop.

Hypothesis R_refl : forall st, R st [] st.
Hypothesis R_trans :
  forall a t1 b t2 c, R a t1 b -> R b t2 c -> R a (t1 ++ t2) c.
Hypothesis R_mkdir :
  forall d st st', mkdir_exist_ok d st = (Returned tt, st') -> R st [Mkdir d] st'.
Hypothesis R_move :
  forall n d st st', shutil_move n d st = (Returned tt, st') -> R st [Move n d] st'.
Hypothesis R_created :
  forall ds st, R st [] (with_created ds st).

Lemma moves_sim d files st r st' :
  for_each files (fun f => shutil_move f d) st = (r, st') ->
  input_name st' = input_name st /\
  created_dirs st' = created_dirs st /\
  exists done,
    trace st' = trace st ++ map (fun f => Move f d) done /\
    begins done files /\
    R st (map (fun f => Move f d) done) st' /\
    (r = Returned tt -> done = files).
Proof.
  revert st. induction files as [|f fs IH]; intros st H; simpl in H.
  - inversion H; subst. split; [reflexivity|]. split; [reflexivity|].
    exists []. simpl. rewrite app_nil_r.
    split; [reflexivity|]. split; [apply begins_nil|]. split; [apply R_refl|].
    reflexivity.
  - unfold bind in H. destruct (shutil_move f d st) as [[[]|e] s1] eqn:E.
    + pose proof (R_move _ _ _ _ E) as HR.
      apply move_step in E. destruct E as (En & Ec & [[_ Et]|[[e [=]] _]]).
      apply IH in H. destruct H as (Hn & Hc & done & Ht & Hb & HR' & Hr).
      split; [congruence|]. split; [congruence|].
      exists (f :: done). simpl.
      split; [|split; [|split]].
      * rewrite Ht, Et, <- app_assoc. reflexivity.
      * now apply (begins_app_r [f]).
      * apply (R_trans _ [Move f d] _ _ _ HR HR').
      * intros Hret. now rewrite Hr.
    + inversion H; subst.
      apply move_step in E. destruct E as (En & Ec & [[[=] _]|[_ ->]]).
      split; [reflexivity|]. split; [reflexivity|].
      exists []. simpl. rewrite app_nil_r.
      split; [reflexivity|]. split; [apply begins_nil|].
      split; [apply R_refl | discriminate].
Qed.

Lemma run_batch_sim b st r st' :
  run_batch b st = (r, st') ->
  input_name st' = input_name st /\
  exists tr,
    trace st' = trace st ++ tr /\
    begins tr (calls_of_batch b) /\
    R st tr st' /\
    (r = Returned tt ->
     tr = calls_of_batch b /\
     created_dirs st' = created_dirs st ++ [resolve (fst b)]).
Proof.
  unfold run_batch, append_created. intros H. unfold bind at 1 in H.
  destruct (mkdir_exist_ok (resolve (fst b)) st) as [[[]|e] s1] eqn:E.
  - pose proof (R_mkdir _ _ _ E) as HR.
    apply mkdir_step in E. destruct E as (_ & En & Ec & [[_ Et]|[[e [=]] _]]).
    rewrite bind_modify in H. apply moves_sim in H. simpl in H.
    destruct H as (Hn & Hc & done & Ht & Hb & HR' & Hr).
    split; [congruence|].
    exists (Mkdir (resolve (fst b)) :: map (fun f => Move f (resolve (fst b))) done).
    split; [|split; [|split; [|intros Hret; split]]].
    + rewrite Ht, Et, <- app_assoc. reflexivity.
    + unfold calls_of_batch. apply (begins_app_r [_]).
      destruct Hb as [rest ->]. exists (map (fun f => Move f (resolve (fst b))) rest).
      now rewrite map_app.
    + apply (R_trans _ [Mkdir (resolve (fst b))] _ _ _ HR).
      apply (R_trans _ [] _ _ _ (R_created _ s1) HR').
    + unfold calls_of_batch. now rewrite (Hr Hret).
    + rewrite Hc, Ec. reflexivity.
  - inversion H; subst.
    apply mkdir_step in E. destruct E as (_ & En & Ec & [[[=] _]|[_ ->]]).
    split; [reflexivity|]. exists []. rewrite app_nil_r.
    split; [reflexivity|]. split; [apply begins_nil|].
    split; [apply R_refl | discriminate].
Qed.

Lemma run_batches_sim bs st r st' :
  for_each bs run_batch st = (r, st') ->
  input_name st' = input_name st /\
  exists tr,
    trace st' = trace st ++ tr /\
    begins tr (calls_of bs) /\
    R st tr st' /\
    (r = Returned tt ->
     tr = calls_of bs /\
     created_dirs st' = created_dirs st ++ map (fun b => resolve (fst b)) bs).
Proof.
  revert st. induction bs as [|b bs IH]; intros st H; simpl in H.
  - inversion H; subst. split; [reflexivity|]. exists []. rewrite !app_nil_r.
    split; [reflexivity|]. split; [apply begins_nil|].
    split; [apply R_refl|]. intros _. split; reflexivity.
  - unfold bind in H. destruct (run_batch b st) as [[[]|e] s1] eqn:E.
    + apply run_batch_sim in E.
      destruct E as (En & tr1 & Et1 & _ & HR1 & Hr1).
      destruct (Hr1 eq_refl) as [-> Ec1].
      apply IH in H. destruct H as (Hn & tr & Ht & Hb & HR & Hr).
      split; [congruence|].
      exists (calls_of_batch b ++ tr).
      split; [|split; [|split; [|intros Hret; split]]].
      * rewrite Ht, Et1, <- app_assoc. reflexivity.
      * change (calls_of (b :: bs)) with (calls_of_batch b ++ calls_of bs).
        now apply begins_app_r.
      * apply (R_trans _ _ _ _ _ HR1 HR).
      * change (calls_of (b :: bs)) with (calls_of_batch b ++ calls_of bs).
        now rewrite (proj1 (Hr Hret)).
      * rewrite (proj2 (Hr Hret)), Ec1, <- app_assoc. reflexivity.
    + inversion H; subst.
      apply run_batch_sim in E. destruct E as (En & tr1 & Et1 & Hb1 & HR1 & _).
      split; [exact En|]. exists tr1.
      split; [exact Et1|]. split; [|split; [exact HR1 | discriminate]].
      change (calls_of (b :: bs)) with (calls_of_batch b ++ calls_of bs).
      now apply begins_app_l.
Qed.

(** The same for the function itself. *)
Lemma split_sim B st r st' :
  (0 < B)%Z ->
  split_input_by_source B st = (r, st') ->
  input_name st' = input_name st /\
  exists tr,
    trace st' = trace st ++ tr /\
    begins tr (calls_of (plan B (inp st))) /\
    R st tr st' /\
    forall ds, r = Returned ds ->
      tr = calls_of (plan B (inp st)) /\
      ds = map (fun b => resolve (fst b)) (plan B (inp st)) /\
      created_dirs st' = ds.
Proof.
  intros HB H. rewrite split_input_by_source_plan in H by exact HB.
  rewrite bind_modify in H. unfold bind, gets in H.
  destruct (for_each (plan B (inp st)) run_batch (with_created [] st))
    as [[[]|e] s1] eqn:E; inversion H; subst; clear H;
    apply run_batches_sim in E; simpl in E;
    destruct E as (En & tr & Et & Hb & HR & Hr).
  - split; [exact En|]. exists tr.
    split; [exact Et|]. split; [exact Hb|].
    split; [apply (R_trans _ [] _ _ _ (R_created [] st) HR)|].
    intros ds [= <-]. destruct (Hr eq_refl) as [Htr Hc].
    split; [exact Htr|]. split; [exact Hc | reflexivity].
  - split; [exact En|]. exists tr.
    split; [exact Et|]. split; [exact Hb|].
    split; [apply (R_trans _ [] _ _ _ (R_created [] st) HR)|].
    intros ds [=].
Qed.

End Simulation.

(** ** What the batches are *)

Lemma batches_of_small B g :
  (Z.of_nat (List.length (snd g)) <= B)%Z -> batches_of B g = [g].
Proof.
  intros H. unfold batches_of.
  destruct (Z.leb_spec (Z.of_nat (List.length (snd g))) B); [reflexivity | lia].
Qed.

Lemma batches_of_large B key files :
  (0 < B)%Z -> (B < Z.of_nat (List.length files))%Z ->
  exists k,
    batches_of B (key, files) =
      map (fun j => (part_name key (1 + j),
                     slice files (j * Z.to_nat B) (j * Z.to_nat B + Z.to_nat B)))
          (seq 0 k) /\
    Z.of_nat k = ceil_div (Z.of_nat (List.length files)) B /\
    (forall j, j < k -> j * Z.to_nat B < List.length files).
Proof.
  intros HB Hlt. unfold batches_of. simpl.
  destruct (Z.leb_spec (Z.of_nat (List.length files)) B); [lia|].
  destruct (slices_closed files (Z.to_nat B)) as (k & E & Hk & Hj); [lia|].
  exists k. rewrite E, enumerate_map_seq, map_map.
  rewrite Z2Nat.id in Hk by lia. split; [|split; [exact Hk | exact Hj]].
  apply map_ext. intros j. reflexivity.
Qed.

Lemma batches_of_bound B g name c :
  (0 < B)%Z -> In (name, c) (batches_of B g) ->
  (Z.of_nat (List.length c) <= B)%Z.
Proof.
  intros HB Hin. destruct g as [key files].
  destruct (Z.leb_spec (Z.of_nat (List.length files)) B) as [Hle|Hgt].
  - rewrite batches_of_small in Hin by exact Hle.
    destruct Hin as [[= <- <-]|[]]. exact Hle.
  - destruct (batches_of_large B key files HB Hgt) as (k & E & _ & _).
    rewrite E in Hin. apply in_map_iff in Hin.
    destruct Hin as (j & [= <- <-] & _).
    pose proof (slice_length files (j * Z.to_nat B) (Z.to_nat B)). lia.
Qed.

Lemma part_name_prefix key i :
  has_char "_" key = false -> prefix_of (part_name key i) = key.
Proof.
  intros H. unfold part_name. simpl. now apply prefix_of_app.
Qed.

Lemma part_name_inj key i j : part_name key i = part_name key j -> i = j.
Proof.
  unfold part_name. intros H.
  apply append_inj_l in H. apply (append_inj_l "_part") in H.
  now apply str_inj.
Qed.

Lemma batches_of_prefix B key files name c :
  (0 < B)%Z -> has_char "_" key = false ->
  In (name, c) (batches_of B (key, files)) -> prefix_of name = key.
Proof.
  intros HB Hk Hin.
  destruct (Z.leb_spec (Z.of_nat (List.length files)) B) as [Hle|Hgt].
  - rewrite batches_of_small in Hin by exact Hle.
    destruct Hin as [[= <- <-]|[]]. now apply prefix_of_whole.
  - destruct (batches_of_large B key files HB Hgt) as (k & E & _ & _).
    rewrite E in Hin. apply in_map_iff in Hin.
    destruct Hin as (j & [= <- <-] & _). now apply part_name_prefix.
Qed.

Lemma NoDup_map_inj {A B} (f : A -> B) (l : list A) :
  (forall x y, f x = f y -> x = y) -> NoDup l -> NoDup (map f l).
Proof.
  intros Hinj. induction 1 as [|a l Hni Hnd IH]; simpl; constructor; [|exact IH].
  intros Hin. apply in_map_iff in Hin. destruct Hin as (y & E & Hy).
  apply Hinj in E. now subst y.
Qed.

Lemma batches_of_NoDup B g :
  (0 < B)%Z -> NoDup (map fst (batches_of B g)).
Proof.
  intros HB. destruct g as [key files].
  destruct (Z.leb_spec (Z.of_nat (List.length files)) B) as [Hle|Hgt].
  - rewrite batches_of_small by exact Hle. repeat constructor. intros [].
  - destruct (batches_of_large B key files HB Hgt) as (k & E & _ & _).
    rewrite E, map_map. simpl.
    apply NoDup_map_inj; [|apply seq_NoDup].
    intros i j H. apply part_name_inj in H. lia.
Qed.

Lemma flat_batches_NoDup B (d : groups) :
  (0 < B)%Z -> NoDup (keys d) ->
  (forall k fs, In (k, fs) d -> has_char "_" k = false) ->
  NoDup (map fst (flat_map (batches_of B) d)).
Proof.
  intros HB. induction d as [|(key, files) r IH]; simpl; intros Hnd Hk;
    [constructor|].
  inversion Hnd as [|? ? Hni Hnd']; subst.
  rewrite map_app. apply NoDup_app.
  - now apply batches_of_NoDup.
  - apply IH; [exact Hnd' | intros k fs H; apply (Hk k fs); now right].
  - intros name H1 H2.
    apply in_map_iff in H1. destruct H1 as ((n1, c1) & E1 & H1).
    apply in_map_iff in H2. destruct H2 as ((n2, c2) & E2 & H2).
    simpl in *. subst n1 n2.
    apply batches_of_prefix in H1; [|exact HB | apply (Hk key files); now left].
    apply in_flat_map in H2. destruct H2 as ((k', fs') & Hg & H2).
    apply batches_of_prefix in H2; [|exact HB | apply (Hk k' fs'); now right].
    apply Hni. rewrite <- H1, H2. unfold keys. apply in_map_iff.
    now exists (k', fs').
Qed.

(** No two batches share a destination name. *)
Lemma plan_NoDup B l : (0 < B)%Z -> NoDup (map fst (plan B l)).
Proof.
  intros HB. unfold plan. apply flat_batches_NoDup.
  - exact HB.
  - apply group_by_prefix_NoDup.
  - intros k fs H. apply (group_key_no_underscore _ _ _ H).
Qed.

Lemma plan_bound B l name c :
  (0 < B)%Z -> In (name, c) (plan B l) -> (Z.of_nat (List.length c) <= B)%Z.
Proof.
  intros HB Hin. unfold plan in Hin. apply in_flat_map in Hin.
  destruct Hin as (g & _ & Hin). now apply (batches_of_bound B g name c).
Qed.

Lemma resolve_Sub name s : resolve name = Sub s -> name = s.
Proof.
  unfold resolve.
  destruct (String.eqb name ""); [discriminate|].
  destruct (String.eqb name "."); [discriminate|].
  destruct (String.eqb name ".."); [discriminate|].
  now intros [=].
Qed.

Lemma received_batch_other s b :
  fst b <> s -> received (Sub s) (calls_of_batch b) = [].
Proof.
  intros Hne. unfold received, calls_of_batch. simpl.
  induction (snd b) as [|f fs IH]; simpl; [reflexivity|].
  destruct (resolve (fst b)) as [| |s'] eqn:E; simpl; try exact IH.
  apply resolve_Sub in E.
  destruct (String.eqb s' s) eqn:E'; [|exact IH].
  apply String.eqb_eq in E'. congruence.
Qed.

Lemma received_batch_length d b :
  List.length (received d (calls_of_batch b)) <= List.length (snd b).
Proof.
  unfold received, calls_of_batch. simpl.
  rewrite <- (length_map (fun f => Move f (resolve (fst b))) (snd b)).
  apply filter_length_le.
Qed.

Lemma received_app d t1 t2 :
  received d (t1 ++ t2) = received d t1 ++ received d t2.
Proof. apply filter_app. Qed.

Lemma received_batches_none s bs :
  ~ In s (map fst bs) -> received (Sub s) (calls_of bs) = [].
Proof.
  induction bs as [|b bs IH]; intros Hni; [reflexivity|].
  simpl in Hni.
  change (calls_of (b :: bs)) with (calls_of_batch b ++ calls_of bs).
  rewrite received_app, (received_batch_other s b) by tauto.
  simpl. apply IH. tauto.
Qed.

Lemma received_batches_bound s bs (n : nat) :
  NoDup (map fst bs) ->
  (forall b, In b bs -> List.length (snd b) <= n) ->
  List.length (received (Sub s) (calls_of bs)) <= n.
Proof.
  induction bs as [|b bs IH]; intros Hnd Hlen; [simpl; lia|].
  simpl in Hnd. inversion Hnd as [|? ? Hni Hnd']; subst.
  change (calls_of (b :: bs)) with (calls_of_batch b ++ calls_of bs).
  rewrite received_app, length_app.
  destruct (string_dec (fst b) s) as [E|E].
  - subst s. rewrite (received_batches_none _ _ Hni). simpl.
    rewrite Nat.add_0_r.
    etransitivity; [apply received_batch_length | apply Hlen; now left].
  - rewrite (received_batch_other s b E). simpl.
    apply IH; [exact Hnd' | intros b' Hb'; apply Hlen; now right].
Qed.

(** ** How much a subdirectory receives *)

(** The entries of the subdirectory [s]; none when there is no such
    directory. *)
Definition entries_of (s : string) (l : listing) : listing :=
  match lookup s l with
  | Some (Dir L) => L
  | _ => []
  end.

(** No subdirectory gains more entries than files were moved to it. *)
Definition grows (st : state) (tr : list call) (st' : state) : Prop :=
  forall s,
    List.length (entries_of s (inp st')) <=
    List.length (entries_of s (inp st)) + List.length (received (Sub s) tr).

Lemma length_replace k x l : List.length (replace k x l) = List.length l.
Proof.
  induction l as [|(k', y) r IH]; simpl; [reflexivity|].
  destruct (String.eqb k' k); simpl; [reflexivity | now rewrite IH].
Qed.

Lemma place_length n x L L' :
  place n x L = Returned L' -> List.length L' <= List.length L + 1.
Proof.
  unfold place. intros H. split_outcome H;
    unfold link; rewrite ?length_replace, ?length_app; simpl; lia.
Qed.

Lemma grows_refl st : grows st [] st.
Proof. intros s. simpl. lia. Qed.

Lemma grows_trans a t1 b t2 c : grows a t1 b -> grows b t2 c -> grows a (t1 ++ t2) c.
Proof.
  intros H1 H2 s. specialize (H1 s). specialize (H2 s).
  rewrite received_app, length_app. lia.
Qed.

Lemma grows_mkdir d st st' :
  mkdir_exist_ok d st = (Returned tt, st') -> grows st [Mkdir d] st'.
Proof.
  unfold mkdir_exist_ok. intros H s. split_outcome H; simpl; try lia.
  unfold entries_of. rewrite lookup_link.
  destruct (lookup s (inp st)) as [[]|]; simpl; try lia.
  destruct (String.eqb name s); simpl; lia.
Qed.

Lemma grows_move n d st st' :
  shutil_move n d st = (Returned tt, st') -> grows st [Move n d] st'.
Proof.
  unfold shutil_move. intros H s. split_outcome H; simpl; try lia;
    unfold entries_of;
    rewrite ?lookup_replace, ?lookup_link, ?lookup_unlink;
    try match goal with
        | H : place _ _ _ = Returned _ |- context [String.eqb ?nm s] =>
            apply place_length in H
        end;
    repeat match goal with
           | H : (String.eqb ?a ?b) = true |- _ =>
               apply String.eqb_eq in H; subst
           | H : lookup ?k ?l = _ |- context [lookup ?k ?l] => rewrite H
           | |- context [String.eqb ?a ?b] => destruct (String.eqb a b) eqn:?
           | |- context [lookup ?k ?l] => destruct (lookup k l) as [[]|] eqn:?
           end;
    simpl; try lia; try congruence.
Qed.

Lemma grows_created ds st : grows st [] (with_created ds st).
Proof. intros s. simpl. lia. Qed.

(** C2. For every input directory and every positive batch size, no
    destination subdirectory receives more files than the batch size: at
    most [batch_size] files are moved to a subdirectory, and the
    subdirectory ends with at most [batch_size] entries more than it had.
    This holds of every run, one that stops on an exception included. *)
Theorem C2_no_subdirectory_receives_more_than_batch_size
        (input parent : listing) (name : string) (batch_size : Z) (s : string) :
  (0 < batch_size)%Z ->
  let st' := snd (split_input_by_source batch_size (start input parent name)) in
  (Z.of_nat (List.length (received (Sub s) (trace st'))) <= batch_size)%Z /\
  (Z.of_nat (List.length (entries_of s (inp st'))) <=
   Z.of_nat (List.length (entries_of s input)) + batch_size)%Z.
Proof.
  intros HB st'. subst st'.
  destruct (split_input_by_source batch_size (start input parent name))
    as [r st'] eqn:E.
  apply (split_sim grows grows_refl grows_trans grows_mkdir grows_move
                   grows_created) in E; [|exact HB].
  destruct E as (_ & tr & Et & Hb & Hg & _). simpl in Et, Hb. simpl snd.
  assert (Hlen : List.length (received (Sub s) tr) <= Z.to_nat batch_size).
  { etransitivity; [apply begins_filter_length; exact Hb|].
    apply received_batches_bound.
    - now apply plan_NoDup.
    - intros [nm c] Hin. apply plan_bound in Hin; [|exact HB]. simpl. lia. }
  rewrite Et. split; [lia|]. specialize (Hg s). simpl in Hg. lia.
Qed.

Lemma C2_witness :
  let input := [("a_1.txt", File "1"); ("a_2.txt", File "2");
                ("a_3.txt", File "3")] in
  let st' := snd (split_input_by_source 2 (start input [] "input")) in
  (0 < 2)%Z /\
  (Z.of_nat (List.length (received (Sub "a_part1") (trace st'))) <= 2)%Z /\
  (Z.of_nat (List.length (entries_of "a_part1" (inp st'))) <=
   Z.of_nat (List.length (entries_of "a_part1" input)) + 2)%Z.
Proof.
  intros input st'. split; [lia|].
  apply (C2_no_subdirectory_receives_more_than_batch_size
           input [] "input" 2 "a_part1"). lia.
Defined.

(** ** The files of the batches of a group *)

Lemma map_snd_enumerate {A} (l : list A) s : map snd (enumerate s l) = l.
Proof.
  revert s. induction l as [|a r IH]; intros s; simpl; [reflexivity|].
  now rewrite IH.
Qed.

Lemma batches_of_files B key files :
  (0 < B)%Z -> List.concat (map snd (batches_of B (key, files))) = files.
Proof.
  intros HB. unfold batches_of. simpl.
  destruct (Z.of_nat (List.length files) <=? B)%Z.
  - simpl. apply app_nil_r.
  - rewrite map_map. simpl. rewrite map_snd_enumerate.
    apply concat_slices. lia.
Qed.

(** ** The grouping key *)

(** C4. The key of a file is the part of its name before the first
    underscore, the whole name when there is none, and two files that were
    found are in the same group exactly when their keys are equal. *)
Theorem C4_grouping_key (input : listing) (n1 n2 : string) :
  In n1 (glob_txt input) -> In n2 (glob_txt input) ->
  let found := group_by_prefix (glob_txt input) in
  (exists rest,
      n1 = (prefix_of n1 ++ rest)%string /\
      has_char "_" (prefix_of n1) = false /\
      (rest = EmptyString /\ has_char "_" n1 = false \/
       exists r, rest = String "_" r)) /\
  (forall key files, In (key, files) found -> In n1 files -> key = prefix_of n1) /\
  ((exists key files, In (key, files) found /\ In n1 files /\ In n2 files) <->
   prefix_of n1 = prefix_of n2).
Proof.
  intros H1 H2 found. split; [apply prefix_of_spec|]. split.
  - intros key files Hin Hn. apply group_by_prefix_spec in Hin.
    destruct Hin as [-> _]. apply filter_In in Hn. destruct Hn as [_ E].
    apply String.eqb_eq in E. now symmetry.
  - split.
    + intros (key & files & Hin & Ha & Hb).
      apply group_by_prefix_spec in Hin. destruct Hin as [-> _].
      apply filter_In in Ha, Hb. destruct Ha as [_ Ea], Hb as [_ Eb].
      apply String.eqb_eq in Ea, Eb. congruence.
    + intros E. exists (prefix_of n1), (with_prefix (prefix_of n1) (glob_txt input)).
      assert (Ha : In n1 (with_prefix (prefix_of n1) (glob_txt input))).
      { apply filter_In. split; [exact H1 | apply String.eqb_refl]. }
      split; [|split; [exact Ha|]].
      * apply group_by_prefix_spec. split; [reflexivity|].
        intros Hnil. rewrite Hnil in Ha. exact Ha.
      * apply filter_In. split; [exact H2 | now apply String.eqb_eq].
Qed.

Lemma C4_witness :
  let input := [("a_1.txt", File "1"); ("b_1.txt", File "2");
                ("a_2.txt", File "3")] in
  In "a_1.txt" (glob_txt input) /\ In "a_2.txt" (glob_txt input) /\
  ((exists key files,
       In (key, files) (group_by_prefix (glob_txt input)) /\
       In "a_1.txt" files /\ In "a_2.txt" files) <->
   prefix_of "a_1.txt" = prefix_of "a_2.txt").
Proof.
  intros input.
  assert (H1 : In "a_1.txt" (glob_txt input)) by (now left).
  assert (H2 : In "a_2.txt" (glob_txt input)) by (right; right; now left).
  split; [exact H1|]. split; [exact H2|].
  exact (proj2 (proj2 (C4_grouping_key input "a_1.txt" "a_2.txt" H1 H2))).
Defined.

(** ** What is enumerated *)

Lemma substring_0_length s : substring 0 (String.length s) s = s.
Proof. induction s as [|c r IH]; simpl; [reflexivity | now rewrite IH]. Qed.

Lemma substring_split s k :
  k <= String.length s ->
  s = (substring 0 k s ++ substring k (String.length s - k) s)%string.
Proof.
  revert k. induction s as [|c r IH]; intros k Hk; simpl in *.
  - now destruct k.
  - destruct k as [|k]; simpl.
    + now rewrite substring_0_length.
    + f_equal. apply IH. lia.
Qed.

Lemma substring_skip p s m :
  substring (String.length p) m (p ++ s) = substring 0 m s.
Proof. induction p as [|c r IH]; simpl; [reflexivity | exact IH]. Qed.

Lemma length_append (p s : string) :
  String.length (p ++ s) = String.length p + String.length s.
Proof. induction p as [|c r IH]; simpl; [reflexivity | now rewrite IH]. Qed.

(** The pattern [*.txt] matches the names that end in [.txt]. *)
Lemma endswith_spec suffix s :
  endswith suffix s = true <-> exists stem, s = (stem ++ suffix)%string.
Proof.
  unfold endswith. rewrite andb_true_iff, Nat.leb_le, String.eqb_eq. split.
  - intros [Hlen E].
    exists (substring 0 (String.length s - String.length suffix) s).
    pose proof (substring_split s (String.length s - String.length suffix)) as H.
    replace (String.length s - (String.length s - String.length suffix))
      with (String.length suffix) in H by lia.
    rewrite E in H. apply H. lia.
  - intros [stem ->]. rewrite length_append. split; [lia|].
    replace (String.length stem + String.length suffix - String.length suffix)
      with (String.length stem) by lia.
    rewrite substring_skip. apply substring_0_length.
Qed.

Lemma glob_txt_spec l n :
  In n (glob_txt l) <->
  In n (names l) /\ exists stem, n = (stem ++ ".txt")%string.
Proof.
  unfold glob_txt. rewrite filter_In, endswith_spec. tauto.
Qed.

Lemma plan_files B l name c f :
  (0 < B)%Z -> In (name, c) (plan B l) -> In f c -> In f (glob_txt l).
Proof.
  intros HB Hin Hf. unfold plan in Hin. apply in_flat_map in Hin.
  destruct Hin as ((key, files) & Hg & Hin).
  assert (Hfiles : In f files).
  { rewrite <- (batches_of_files B key files HB).
    apply in_concat. exists c. split; [|exact Hf].
    apply in_map_iff. now exists (name, c). }
  apply group_by_prefix_spec in Hg. destruct Hg as [-> _].
  apply filter_In in Hfiles. tauto.
Qed.

Lemma calls_of_moves bs n d :
  In (Move n d) (calls_of bs) ->
  exists b, In b bs /\ In n (snd b) /\ d = resolve (fst b).
Proof.
  unfold calls_of. rewrite in_flat_map. intros (b & Hb & Hin).
  unfold calls_of_batch in Hin. destruct Hin as [[=]|Hin].
  apply in_map_iff in Hin. destruct Hin as (f & [= <- <-] & Hf).
  now exists b.
Qed.

(** ** What the run leaves alone *)

Lemma place_lookup n x L L' c :
  place n x L = Returned L' -> c <> n -> lookup c L' = lookup c L.
Proof.
  unfold place. intros H Hc. apply String.eqb_neq in Hc.
  rewrite String.eqb_sym in Hc.
  split_outcome H; rewrite ?lookup_link, ?lookup_replace, Hc;
    try reflexivity.
  now destruct (lookup c L).
Qed.

(** An entry that is not moved stays: a regular file as it is, a directory
    with the entries it had, but for those named like a file moved into it;
    and the parent directory is as it was when nothing was moved to it. *)
Definition kept (st : state) (tr : list call) (st' : state) : Prop :=
  (forall k,
      moves_of k tr = [] ->
      match lookup k (inp st) with
      | Some (File data) => lookup k (inp st') = Some (File data)
      | Some (Dir L) =>
          exists L',
            lookup k (inp st') = Some (Dir L') /\
            (forall c, ~ In (Move c (Sub k)) tr -> lookup c L' = lookup c L) /\
            (received (Sub k) tr = [] -> L' = L)
      | None => True
      end) /\
  (received Up tr = [] -> up st' = up st).

Lemma moves_of_app n t1 t2 : moves_of n (t1 ++ t2) = moves_of n t1 ++ moves_of n t2.
Proof. apply filter_app. Qed.

Lemma kept_refl st : kept st [] st.
Proof.
  split; [|reflexivity]. intros k _.
  destruct (lookup k (inp st)) as [[data|L]|]; [reflexivity| |exact I].
  exists L. repeat split.
Qed.

Lemma kept_trans a t1 b t2 c : kept a t1 b -> kept b t2 c -> kept a (t1 ++ t2) c.
Proof.
  intros [H1 U1] [H2 U2]. split.
  - intros k Hk. rewrite moves_of_app in Hk. apply app_eq_nil in Hk.
    destruct Hk as [Hk1 Hk2]. specialize (H1 k Hk1). specialize (H2 k Hk2).
    destruct (lookup k (inp a)) as [[data|L]|]; [| |exact I].
    + now rewrite H1 in H2.
    + destruct H1 as (L1 & E1 & P1 & Q1). rewrite E1 in H2.
      destruct H2 as (L2 & E2 & P2 & Q2). exists L2.
      split; [exact E2|]. split.
      * intros x Hx. rewrite P2, P1; [reflexivity| |];
          intros Hin; apply Hx; apply in_or_app; tauto.
      * intros Hr. rewrite received_app in Hr. apply app_eq_nil in Hr.
        destruct Hr as [Hr1 Hr2]. now rewrite Q2, Q1.
  - intros Hr. rewrite received_app in Hr. apply app_eq_nil in Hr.
    destruct Hr as [Hr1 Hr2]. now rewrite U2, U1.
Qed.

Lemma kept_created ds st : kept st [] (with_created ds st).
Proof. exact (kept_refl st). Qed.

Lemma kept_mkdir d st st' :
  mkdir_exist_ok d st = (Returned tt, st') -> kept st [Mkdir d] st'.
Proof.
  unfold mkdir_exist_ok. intros H.
  split_outcome H; (split; [|reflexivity]); intros k _; simpl;
    rewrite ?lookup_link;
    (destruct (lookup k (inp st)) as [[data|L]|]; [reflexivity| |exact I]);
    exists L; repeat split.
Qed.

Lemma kept_move n d st st' :
  shutil_move n d st = (Returned tt, st') -> kept st [Move n d] st'.
Proof.
  unfold shutil_move. intros H. split_outcome H; simpl.
  - (* the same path *)
    split; [|reflexivity]. intros k _. simpl.
    destruct (lookup k (inp st)) as [[data|L]|]; [reflexivity| |exact I].
    exists L. repeat split.
  - (* into the parent *)
    split; [|discriminate]. intros k Hk. simpl in *.
    rewrite lookup_unlink.
    destruct (String.eqb n k) eqn:E; [discriminate|].
    destruct (lookup k (inp st)) as [[data|L]|]; [reflexivity| |exact I].
    exists L. repeat split.
  - (* into an existing subdirectory *)
    split; [|reflexivity]. intros k Hk. simpl in *.
    rewrite lookup_replace, !lookup_unlink.
    destruct (String.eqb n k) eqn:E; [discriminate|].
    rewrite (String.eqb_sym n name), Heqb, Heqo0.
    destruct (String.eqb name k) eqn:E2.
    + apply String.eqb_eq in E2. subst k. rewrite Heqo0.
      exists a. split; [reflexivity|]. split; [|discriminate].
      intros c Hc. apply (place_lookup _ _ _ _ _ Heqo1).
      intros ->. apply Hc. now left.
    + destruct (lookup k (inp st)) as [[data|L]|]; [reflexivity| |exact I].
      exists L. repeat split.
  - (* into a subdirectory that [copytree] makes *)
    split; [|reflexivity]. intros k Hk. simpl in *.
    rewrite lookup_link, lookup_unlink.
    destruct (String.eqb n k) eqn:E; [discriminate|].
    destruct (lookup k (inp st)) as [[data|L]|] eqn:E2; [reflexivity| |exact I].
    exists L. repeat split.
Qed.

(** With a batch size that is not positive nothing is created or moved: no
    group fits, [range] refuses a zero step, and a negative step gives no
    chunk. *)
Lemma chunks_nonpositive (B : Z) (files : list string) (s : state) :
  (B <= 0)%Z ->
  chunks files B s = (Raised ValueError, s) \/
  chunks files B s = (Returned [], s).
Proof.
  intros HB. unfold chunks.
  destruct (Z.eqb_spec B 0) as [E0|E0]; [now left|].
  destruct (Z.ltb_spec B 0) as [E1|E1]; [now right | lia].
Qed.

Lemma nonpositive_loop (B : Z) (gs : groups) (s : state) :
  (B <= 0)%Z ->
  (forall k fs, In (k, fs) gs -> fs <> []) ->
  snd (for_each gs (fun '(prefix, files) =>
    if (Z.of_nat (List.length files) <=? B)%Z then
      let subdir := resolve prefix in
      mkdir_exist_ok subdir ;;
      append_created subdir ;;
      for_each files (fun file => shutil_move file subdir)
    else
      parts <- chunks files B ;;
      for_each (enumerate 1 parts) (fun '(i, chunk) =>
        let subdir := resolve (prefix ++ "_part" ++ str i)%string in
        mkdir_exist_ok subdir ;;
        append_created subdir ;;
        for_each chunk (fun file => shutil_move file subdir))) s) = s.
Proof.
  intros HB. induction gs as [|(prefix, files) r IH]; intros Hne; [reflexivity|].
  assert (Hf : files <> []) by (apply (Hne prefix); now left).
  cbn [for_each]. unfold bind at 1.
  destruct (Z.leb_spec (Z.of_nat (List.length files)) B) as [Hle|Hgt].
  - destruct files; [congruence | simpl in Hle; lia].
  - unfold bind at 1.
    destruct (chunks_nonpositive B files s HB) as [E|E]; rewrite E;
      [reflexivity|].
    cbn [enumerate for_each]. unfold ret at 1.
    apply IH. intros k fs H. apply (Hne k). now right.
Qed.

Lemma split_nonpositive (B : Z) (st : state) :
  (B <= 0)%Z -> snd (split_input_by_source B st) = with_created [] st.
Proof.
  intros HB. unfold split_input_by_source.
  rewrite bind_modify, bind_gets. unfold bind at 1.
  match goal with
  | |- context [for_each ?gs ?body ?s] =>
      pose proof (nonpositive_loop B gs s HB) as H;
      destruct (for_each gs body s) as [[[]|e] s'] eqn:E
  end; simpl in *; apply H; intros k fs Hin;
    apply group_by_prefix_spec in Hin; tauto.
Qed.

(** C8, as the code has it.  The function enumerates the entries of the top
    level whose names end in [.txt], regular files and directories alike,
    and groups and moves nothing else.  Whatever the batch size and however
    the run ends, an entry of the top level that is not enumerated stays
    where it is: a regular file with its contents, a directory with its
    entries, except that a directory used as a destination gains the files
    moved into it, under their names. *)
Theorem C8_entries_left_alone
        (input parent : listing) (name : string) (batch_size : Z) (k : string) :
  ~ In k (glob_txt input) ->
  let st' := snd (split_input_by_source batch_size (start input parent name)) in
  (forall n, In n (glob_txt input) <->
             In n (names input) /\ exists stem, n = (stem ++ ".txt")%string) /\
  (forall key files f,
      In (key, files) (group_by_prefix (glob_txt input)) -> In f files ->
      In f (glob_txt input)) /\
  (forall n d, In (Move n d) (trace st') -> In n (glob_txt input)) /\
  match lookup k input with
  | Some (File data) => lookup k (inp st') = Some (File data)
  | Some (Dir L) =>
      exists L',
        lookup k (inp st') = Some (Dir L') /\
        (forall c, ~ In (Move c (Sub k)) (trace st') -> lookup c L' = lookup c L) /\
        (received (Sub k) (trace st') = [] -> L' = L)
  | None => True
  end.
Proof.
  intros Hk st'. split; [apply glob_txt_spec|]. split.
  { intros key files f Hg Hf. apply group_by_prefix_spec in Hg.
    destruct Hg as [-> _]. apply filter_In in Hf. tauto. }
  destruct (Z.ltb_spec 0 batch_size) as [HB|HB].
  - subst st'.
    destruct (split_input_by_source batch_size (start input parent name))
      as [r st'] eqn:E.
    apply (split_sim kept kept_refl kept_trans kept_mkdir kept_move
                     kept_created) in E; [|exact HB].
    destruct E as (_ & tr & Et & Hb & [Hkept _] & _).
    simpl in Et, Hb, Hkept. simpl snd. rewrite Et.
    assert (Hmoves : forall n d, In (Move n d) tr -> In n (glob_txt input)).
    { intros n d Hin. destruct Hb as [rest Hrest].
      assert (Hin' : In (Move n d) (calls_of (plan batch_size input)))
        by (rewrite Hrest; apply in_or_app; now left).
      apply calls_of_moves in Hin'. destruct Hin' as ((nm, c) & Hp & Hn & _).
      apply (plan_files batch_size input nm c n HB Hp Hn). }
    split; [exact Hmoves|].
    apply Hkept. unfold moves_of.
    destruct (filter (is_move_of k) tr) as [|c r'] eqn:Ef; [reflexivity|].
    exfalso.
    assert (Hc : In c (filter (is_move_of k) tr)) by (rewrite Ef; now left).
    apply filter_In in Hc. destruct Hc as [Hc Hm].
    destruct c as [d|n d]; [discriminate|]. simpl in Hm.
    apply String.eqb_eq in Hm. subst n. apply Hk. now apply (Hmoves k d).
  - subst st'. rewrite split_nonpositive by exact HB. simpl.
    split; [intros n d []|].
    destruct (lookup k input) as [[data|L]|]; [reflexivity| |exact I].
    exists L. repeat split.
Qed.

Lemma C8_witness :
  let input := [("a_1.txt", File "1"); ("notes.md", File "2");
                ("a", Dir [("old.txt", File "3")])] in
  let st' := snd (split_input_by_source 7500 (start input [] "input")) in
  ~ In "notes.md" (glob_txt input) /\
  lookup "notes.md" (inp st') = Some (File "2").
Proof.
  intros input st'.
  assert (H : ~ In "notes.md" (glob_txt input)).
  { simpl. intros [E|[]]. discriminate E. }
  split; [exact H|].
  exact (proj2 (proj2 (proj2
    (C8_entries_left_alone input [] "input" 7500 "notes.md" H)))).
Defined.

(** C8 as the specification states it fails: a file inside an existing
    subdirectory is replaced when a file of the same name is moved there. *)
Lemma C8_counterexample :
  let input := [("a_1.txt", File "new");
                ("a", Dir [("a_1.txt", File "old")])] in
  let st' := snd (split_input_by_source 7500 (start input [] "input")) in
  ~ In "a" (glob_txt input) /\
  lookup_path ["a"; "a_1.txt"] input = Some (File "old") /\
  lookup_path ["a"; "a_1.txt"] (inp st') = Some (File "new") /\
  total_files input = 2 /\ total_files (inp st') = 1.
Proof.
  simpl. repeat split. intros [E|[]]. discriminate E.
Qed.

(** ** A file without an underscore *)

(** No run moves an entry into a subdirectory that has the name of the
    entry: [shutil.move] refuses a target below its source. *)
Definition never_into_itself (st : state) (tr : list call) (st' : state) : Prop :=
  forall n, ~ In (Move n (Sub n)) tr.

Lemma never_into_itself_run input parent name B n :
  ~ In (Move n (Sub n))
       (trace (snd (split_input_by_source B (start input parent name)))).
Proof.
  destruct (Z.ltb_spec 0 B) as [HB|HB].
  - destruct (split_input_by_source B (start input parent name)) as [r st'] eqn:E.
    apply (split_sim never_into_itself) in E; try exact HB.
    + destruct E as (_ & tr & Et & _ & Hn & _). simpl in *. rewrite Et.
      apply Hn.
    + intros st k [].
    + intros a t1 b t2 c H1 H2 k Hin. apply in_app_or in Hin.
      destruct Hin; [apply (H1 k) | apply (H2 k)]; assumption.
    + intros d st st0 _ k [[=]|[]].
    + intros k d st st0 Hm m [[= -> ->]|[]].
      unfold shutil_move in Hm. rewrite String.eqb_refl in Hm.
      destruct (lookup m (inp st)) as [[]|]; discriminate.
    + intros ds st k [].
  - rewrite split_nonpositive by exact HB. intros [].
Qed.

(** C9.  A name without an underscore is its own key, but the file is not
    moved into a subdirectory of that name: for a directory that holds the
    single file [foo.txt], [input_path / "foo.txt"] is the file itself,
    [mkdir] raises [FileExistsError], and the file stays where it was. *)
Theorem C9_file_without_underscore :
  let input := [("foo.txt", File "text")] in
  prefix_of "foo.txt" = "foo.txt" /\
  group_by_prefix (glob_txt input) = [("foo.txt", ["foo.txt"])] /\
  split_input_by_source 7500 (start input [] "input")
    = (Raised FileExistsError, start input [] "input").
Proof. repeat split. Qed.

(** ** A run that meets no collision *)

Lemma total_files_cons k y r :
  total_files ((k, y) :: r) = count_files y + total_files r.
Proof. reflexivity. Qed.

Lemma total_files_app l1 l2 :
  total_files (l1 ++ l2) = total_files l1 + total_files l2.
Proof.
  induction l1 as [|(k, y) r IH]; [reflexivity|].
  simpl app. rewrite !total_files_cons, IH. lia.
Qed.

Lemma total_files_link s y l :
  total_files (link s y l) = total_files l + count_files y.
Proof.
  unfold link. rewrite total_files_app, total_files_cons.
  change (total_files []) with 0. lia.
Qed.

Lemma unlink_absent n l : ~ In n (names l) -> unlink n l = l.
Proof.
  induction l as [|(k, y) r IH]; simpl; [reflexivity|]. intros Hni.
  destruct (String.eqb_spec k n) as [E|E]; [tauto|].
  rewrite IH; tauto.
Qed.

Lemma total_files_unlink n x l :
  NoDup (names l) -> lookup n l = Some x ->
  total_files (unlink n l) + count_files x = total_files l.
Proof.
  induction l as [|(k, y) r IH]; simpl; [discriminate|].
  intros Hnd Hl. inversion Hnd as [|? ? Hni Hnd']; subst.
  destruct (String.eqb_spec k n) as [E|E].
  - injection Hl as ->. subst k. rewrite unlink_absent by exact Hni.
    rewrite total_files_cons. lia.
  - rewrite !total_files_cons. specialize (IH Hnd' Hl). lia.
Qed.

Lemma total_files_replace s y x l :
  lookup s l = Some x ->
  total_files (replace s y l) + count_files x = total_files l + count_files y.
Proof.
  induction l as [|(k, z) r IH]; simpl; [discriminate|]. intros Hl.
  destruct (String.eqb_spec k s) as [E|E].
  - injection Hl as ->. rewrite !total_files_cons. lia.
  - rewrite !total_files_cons. specialize (IH Hl). lia.
Qed.

Lemma NoDup_names_unlink n l : NoDup (names l) -> NoDup (names (unlink n l)).
Proof. intros H. rewrite names_unlink. now apply NoDup_filter. Qed.

Lemma NoDup_names_link s y l :
  NoDup (names l) -> lookup s l = None -> NoDup (names (link s y l)).
Proof.
  intros Hnd Hl. rewrite names_link. apply NoDup_app.
  - exact Hnd.
  - repeat constructor. intros [].
  - intros k Hk [<-|[]]. now apply lookup_None in Hl.
Qed.

Lemma neq_eqb (a b : string) : a <> b -> String.eqb a b = false.
Proof. apply String.eqb_neq. Qed.

Lemma neq_eqb' (a b : string) : a <> b -> String.eqb b a = false.
Proof. intros H. rewrite String.eqb_sym. now apply String.eqb_neq. Qed.

(** Moving [n] into the existing subdirectory [s], which has no entry of
    that name, takes it from the top level and puts it last in [s]. *)
Lemma move_ok n s x L st :
  lookup n (inp st) = Some x -> s <> n ->
  lookup s (inp st) = Some (Dir L) -> lookup n L = None ->
  shutil_move n (Sub s) st =
  (Returned tt,
   logged (Move n (Sub s))
     (with_inp (replace s (Dir (link n x L)) (unlink n (inp st))) st)).
Proof.
  intros Hn Hs Hd HL. unfold shutil_move. rewrite Hn.
  apply String.eqb_neq in Hs. rewrite Hs, Hd. unfold place. now rewrite HL.
Qed.

Lemma moves_ok files : forall s st L,
  NoDup (names (inp st)) -> NoDup files -> ~ In s files ->
  lookup s (inp st) = Some (Dir L) ->
  (forall f, In f files -> lookup f (inp st) <> None /\ lookup f L = None) ->
  exists st',
    for_each files (fun f => shutil_move f (Sub s)) st = (Returned tt, st') /\
    NoDup (names (inp st')) /\
    up st' = up st /\
    total_files (inp st') = total_files (inp st) /\
    (forall k, ~ In k files -> k <> s -> lookup k (inp st') = lookup k (inp st)) /\
    (forall f, In f files -> lookup f (inp st') = None) /\
    exists L',
      lookup s (inp st') = Some (Dir L') /\
      (forall f, In f files -> lookup f L' = lookup f (inp st)) /\
      (forall c, ~ In c files -> lookup c L' = lookup c L).
Proof.
  induction files as [|f fs IH]; intros s st L Hnd Hfs Hs Hd Hfiles.
  - exists st. simpl. repeat split; try tauto.
    exists L. repeat split; tauto.
  - inversion Hfs as [|? ? Hf Hfs']; subst.
    destruct (Hfiles f (or_introl eq_refl)) as [Hex HfL].
    destruct (lookup f (inp st)) as [x|] eqn:Hx; [clear Hex | congruence].
    assert (Hsf : s <> f) by (intros ->; apply Hs; now left).
    set (st1 := logged (Move f (Sub s))
                  (with_inp (replace s (Dir (link f x L)) (unlink f (inp st))) st)).
    assert (Hs1 : lookup s (inp st1) = Some (Dir (link f x L))).
    { simpl. rewrite lookup_replace, String.eqb_refl, lookup_unlink.
      now rewrite (neq_eqb' _ _ Hsf), Hd. }
    assert (Hk1 : forall k, k <> f -> k <> s ->
                            lookup k (inp st1) = lookup k (inp st)).
    { intros k Hkf Hks. simpl. rewrite lookup_replace, !lookup_unlink.
      now rewrite (neq_eqb' _ _ Hks), (neq_eqb' _ _ Hkf). }
    assert (Hf1 : lookup f (inp st1) = None).
    { simpl. rewrite lookup_replace, !lookup_unlink, String.eqb_refl.
      now rewrite (neq_eqb _ _ Hsf). }
    destruct (IH s st1 (link f x L)) as
        (st' & Hrun & Hnd' & Hup & Htot & Hframe & Hgone & L' & HL' & Hin & Hout).
    + simpl. rewrite names_replace. now apply NoDup_names_unlink.
    + exact Hfs'.
    + intros Hin. apply Hs. now right.
    + exact Hs1.
    + intros g Hg. destruct (Hfiles g (or_intror Hg)) as [Hge HgL].
      assert (Hgf : g <> f) by (intros ->; tauto).
      assert (Hgs : g <> s) by (intros ->; apply Hs; now right).
      rewrite (Hk1 g Hgf Hgs). split; [exact Hge|].
      rewrite lookup_link, HgL. now rewrite (neq_eqb' _ _ Hgf).
    + exists st'. split.
      { simpl. unfold bind. rewrite (move_ok f s x L st Hx Hsf Hd HfL).
        exact Hrun. }
      split; [exact Hnd'|]. split; [rewrite Hup; reflexivity|].
      split.
      { rewrite Htot. simpl.
        pose proof (total_files_unlink f x (inp st) Hnd Hx) as H1.
        assert (H2 : lookup s (unlink f (inp st)) = Some (Dir L)).
        { rewrite lookup_unlink. now rewrite (neq_eqb' _ _ Hsf). }
        pose proof (total_files_replace s (Dir (link f x L)) _ _ H2) as H3.
        change (count_files (Dir (link f x L))) with (total_files (link f x L)) in H3.
        rewrite total_files_link in H3.
        change (count_files (Dir L)) with (total_files L) in H3. lia. }
      split.
      { intros k Hk Hks.
        rewrite Hframe; [|intros Hkin; apply Hk; now right|exact Hks].
        apply Hk1; [|exact Hks]. intros ->. apply Hk. now left. }
      split.
      { intros g [<-|Hg]; [|now apply Hgone].
        rewrite Hframe; [exact Hf1 | exact Hf | congruence]. }
      exists L'. split; [exact HL'|]. split.
      * intros g [<-|Hg].
        -- rewrite Hout by exact Hf. rewrite lookup_link, HfL, String.eqb_refl.
           now symmetry.
        -- rewrite Hin by exact Hg. apply Hk1.
           ++ intros ->. tauto.
           ++ intros ->. apply Hs. now right.
      * intros c Hc. rewrite Hout by (intros Hcin; apply Hc; now right).
        rewrite lookup_link.
        destruct (lookup c L); [reflexivity|].
        destruct (String.eqb_spec f c) as [->|_]; [|reflexivity].
        exfalso. apply Hc. now left.
Qed.

(** A destination name that names an entry of the input directory. *)
Definition ordinary (name : string) : Prop := resolve name = Sub name.

(** The destination of the batch is absent, or it is a directory that has
    no entry named like a file of the batch. *)
Definition room_for (l : listing) (b : batch) : Prop :=
  lookup (fst b) l = None \/
  exists L,
    lookup (fst b) l = Some (Dir L) /\
    forall f, In f (snd b) -> lookup f L = None.

Lemma run_batch_ok b st :
  NoDup (names (inp st)) -> NoDup (snd b) -> ~ In (fst b) (snd b) ->
  ordinary (fst b) ->
  (forall f, In f (snd b) -> lookup f (inp st) <> None) ->
  room_for (inp st) b ->
  exists st',
    run_batch b st = (Returned tt, st') /\
    NoDup (names (inp st')) /\
    up st' = up st /\
    total_files (inp st') = total_files (inp st) /\
    (forall k, ~ In k (snd b) -> k <> fst b ->
               lookup k (inp st') = lookup k (inp st)) /\
    (forall f, In f (snd b) -> lookup f (inp st') = None) /\
    exists L',
      lookup (fst b) (inp st') = Some (Dir L') /\
      (forall f, In f (snd b) -> lookup f L' = lookup f (inp st)) /\
      (forall c, ~ In c (snd b) ->
                 lookup c L' = lookup c (entries_of (fst b) (inp st))).
Proof.
  destruct b as [s files]. simpl fst. simpl snd.
  intros Hnd Hfiles Hs Hord Hex Hroom.
  unfold run_batch, append_created. simpl fst. simpl snd. rewrite Hord.
  unfold bind at 1. unfold mkdir_exist_ok.
  destruct Hroom as [Hnone|(L & HL & Hfree)]; simpl in Hnone || simpl in HL.
  - rewrite Hnone. rewrite bind_modify.
    match goal with
    | |- context [for_each files _ ?s2] => set (st2 := s2)
    end.
    destruct (moves_ok files s st2 []) as
        (st' & Hrun & Hnd' & Hup & Htot & Hframe & Hgone & L' & HL' & Hin & Hout).
    + simpl. now apply NoDup_names_link.
    + exact Hfiles.
    + exact Hs.
    + simpl. now rewrite lookup_link, Hnone, String.eqb_refl.
    + intros f Hf. simpl. rewrite lookup_link. split; [|reflexivity].
      specialize (Hex f Hf). destruct (lookup f (inp st)); congruence.
    + exists st'. split; [exact Hrun|]. split; [exact Hnd'|].
      split; [rewrite Hup; reflexivity|].
      split; [rewrite Htot; simpl; rewrite total_files_link; simpl; lia|].
      split.
      { intros k Hk Hks. rewrite (Hframe k Hk Hks). simpl. rewrite lookup_link.
        destruct (lookup k (inp st)); [reflexivity|].
        now rewrite (neq_eqb' _ _ Hks). }
      split; [exact Hgone|].
      exists L'. split; [exact HL'|]. split.
      * intros f Hf. rewrite (Hin f Hf). simpl. rewrite lookup_link.
        specialize (Hex f Hf). destruct (lookup f (inp st)); congruence.
      * intros c Hc. rewrite (Hout c Hc). unfold entries_of.
        now rewrite Hnone.
  - rewrite HL. rewrite bind_modify.
    match goal with
    | |- context [for_each files _ ?s2] => set (st2 := s2)
    end.
    destruct (moves_ok files s st2 L) as
        (st' & Hrun & Hnd' & Hup & Htot & Hframe & Hgone & L' & HL' & Hin & Hout).
    + exact Hnd.
    + exact Hfiles.
    + exact Hs.
    + exact HL.
    + intros f Hf. split; [apply (Hex f Hf) | apply (Hfree f Hf)].
    + exists st'. split; [exact Hrun|]. split; [exact Hnd'|].
      split; [rewrite Hup; reflexivity|].
      split; [rewrite Htot; reflexivity|].
      split; [exact Hframe|]. split; [exact Hgone|].
      exists L'. split; [exact HL'|]. split; [exact Hin|].
      intros c Hc. rewrite (Hout c Hc). unfold entries_of. now rewrite HL.
Qed.

Lemma NoDup_app_disjoint {A} (l r : list A) :
  NoDup (l ++ r) -> forall a, In a l -> ~ In a r.
Proof.
  induction l as [|x l IH]; simpl; intros Hnd a Hin Hr; [exact Hin|].
  inversion Hnd as [|? ? Hni Hnd']; subst.
  destruct Hin as [->|Hin].
  - apply Hni. apply in_or_app. now right.
  - exact (IH Hnd' a Hin Hr).
Qed.

Definition all_files (bs : list batch) : list string :=
  List.concat (map snd bs).

Lemma run_batches_ok bs : forall st,
  NoDup (names (inp st)) ->
  NoDup (map fst bs) ->
  NoDup (all_files bs) ->
  (forall b, In b bs ->
     ordinary (fst b) /\ ~ In (fst b) (all_files bs) /\
     room_for (inp st) b /\
     forall f, In f (snd b) -> lookup f (inp st) <> None) ->
  exists st',
    for_each bs run_batch st = (Returned tt, st') /\
    NoDup (names (inp st')) /\
    up st' = up st /\
    total_files (inp st') = total_files (inp st) /\
    (forall k, ~ In k (all_files bs) -> ~ In k (map fst bs) ->
               lookup k (inp st') = lookup k (inp st)) /\
    (forall b f, In b bs -> In f (snd b) ->
       lookup f (inp st') = None /\
       exists L',
         lookup (fst b) (inp st') = Some (Dir L') /\
         lookup f L' = lookup f (inp st)).
Proof.
  induction bs as [|b bs IH]; intros st Hnd Hnames Hfiles Hall.
  - exists st. simpl. repeat split; tauto.
  - simpl in Hnames. inversion Hnames as [|? ? Hb Hnames']; subst.
    unfold all_files in Hfiles. simpl in Hfiles.
    apply NoDup_app_remove_l in Hfiles as Hfiles'.
    assert (Hsplit : forall f, In f (snd b) -> ~ In f (all_files bs))
      by (exact (NoDup_app_disjoint _ _ Hfiles)).
    assert (Hb1 : NoDup (snd b)) by (now apply NoDup_app_remove_r in Hfiles).
    destruct (Hall b (or_introl eq_refl)) as (Hord & Hdest & Hroom & Hex).
    destruct (run_batch_ok b st) as
        (st1 & Hrun1 & Hnd1 & Hup1 & Htot1 & Hframe1 & Hgone1 & L1 & HL1 & Hin1 & _);
      try assumption.
    { intros Hin. apply Hdest. unfold all_files. simpl.
      apply in_or_app. now left. }
    assert (Hother : forall b', In b' bs -> forall k,
               k = fst b' \/ In k (snd b') ->
               lookup k (inp st1) = lookup k (inp st)).
    { intros b' Hb' k Hk. apply Hframe1.
      - destruct Hk as [->|Hk].
        + intros Hin. destruct (Hall b' (or_intror Hb')) as (_ & Hd & _).
          apply Hd. unfold all_files. simpl. apply in_or_app. now left.
        + intros Hin. apply (Hsplit k Hin). unfold all_files.
          apply in_concat. exists (snd b'). split; [|exact Hk].
          apply in_map_iff. now exists b'.
      - destruct Hk as [->|Hk].
        + intros E. apply Hb. rewrite <- E. apply in_map_iff. now exists b'.
        + intros ->. apply Hdest. unfold all_files. simpl.
          apply in_or_app. right. apply in_concat. exists (snd b').
          split; [|exact Hk]. apply in_map_iff. now exists b'. }
    destruct (IH st1) as (st' & Hrun & Hnd' & Hup & Htot & Hframe & Hplaced);
      try assumption.
    { intros b' Hb'. destruct (Hall b' (or_intror Hb')) as (Ho & Hd & Hr & He).
      split; [exact Ho|]. split.
      - intros Hin. apply Hd. unfold all_files. simpl.
        apply in_or_app. now right.
      - split.
        + destruct Hr as [Hr|(L & HL & Hfree)]; [left|right].
          * rewrite (Hother b' Hb'); [exact Hr | now left].
          * exists L. split; [|exact Hfree].
            rewrite (Hother b' Hb'); [exact HL | now left].
        + intros f Hf. rewrite (Hother b' Hb'); [now apply He | now right]. }
    exists st'. split.
    { simpl. unfold bind. rewrite Hrun1. exact Hrun. }
    split; [exact Hnd'|]. split; [congruence|]. split; [congruence|].
    split.
    { intros k Hk1 Hk2. rewrite Hframe, Hframe1.
      - reflexivity.
      - intros Hin. apply Hk1. unfold all_files. simpl.
        apply in_or_app. now left.
      - intros ->. apply Hk2. now left.
      - intros Hin. apply Hk1. unfold all_files. simpl.
        apply in_or_app. now right.
      - intros Hin. apply Hk2. now right. }
    intros b' f [<-|Hb'] Hf.
    + assert (Hf' : ~ In f (all_files bs)) by (now apply Hsplit).
      assert (Hfd : ~ In f (map fst bs)).
      { intros Hin. apply in_map_iff in Hin. destruct Hin as (b2 & E & Hb2).
        destruct (Hall b2 (or_intror Hb2)) as (_ & Hd & _).
        apply Hd. rewrite E. unfold all_files. simpl.
        apply in_or_app. now left. }
      split.
      * rewrite (Hframe f Hf' Hfd). now apply Hgone1.
      * exists L1. split.
        -- rewrite Hframe; [exact HL1| |exact Hb].
           intros Hin. apply Hdest. unfold all_files. simpl.
           apply in_or_app. now right.
        -- now apply Hin1.
    + destruct (Hplaced b' f Hb' Hf) as (Hgone & L' & HL' & Hin').
      split; [exact Hgone|]. exists L'. split; [exact HL'|].
      rewrite Hin'. apply (Hother b' Hb'). now right.
Qed.

Lemma all_files_flat_batches B (gs : groups) :
  (0 < B)%Z ->
  all_files (flat_map (batches_of B) gs) = List.concat (map snd gs).
Proof.
  intros HB. unfold all_files.
  induction gs as [|(key, files) r IH]; [reflexivity|].
  cbn [flat_map map List.concat snd].
  rewrite map_app, List.concat_app.
  f_equal; [exact (batches_of_files B key files HB) | exact IH].
Qed.

(** The batches hold the files that were found, each once. *)
Lemma all_files_plan B l :
  (0 < B)%Z -> Permutation (all_files (plan B l)) (glob_txt l).
Proof.
  intros HB. unfold plan. rewrite all_files_flat_batches by exact HB.
  apply group_by_prefix_perm.
Qed.

Lemma moves_of_batch_none n b :
  ~ In n (snd b) -> moves_of n (calls_of_batch b) = [].
Proof.
  unfold moves_of, calls_of_batch. simpl.
  induction (snd b) as [|f fs IH]; simpl; intros Hni; [reflexivity|].
  rewrite (neq_eqb f n) by (intros ->; tauto).
  apply IH. tauto.
Qed.

Lemma moves_of_batch_one n b :
  NoDup (snd b) -> In n (snd b) ->
  moves_of n (calls_of_batch b) = [Move n (resolve (fst b))].
Proof.
  unfold moves_of, calls_of_batch. simpl.
  induction (snd b) as [|f fs IH]; simpl; intros Hnd Hin; [tauto|].
  inversion Hnd as [|? ? Hni Hnd']; subst.
  destruct Hin as [->|Hin].
  - rewrite String.eqb_refl. f_equal.
    clear IH Hnd Hnd'. induction fs as [|g gs IH]; simpl; [reflexivity|].
    rewrite (neq_eqb g n) by (intros ->; apply Hni; now left).
    apply IH. intros H. apply Hni. now right.
  - rewrite (neq_eqb f n) by (intros ->; tauto). now apply IH.
Qed.

Lemma moves_of_none n bs :
  ~ In n (all_files bs) -> moves_of n (calls_of bs) = [].
Proof.
  induction bs as [|b bs IH]; intros Hni; [reflexivity|].
  change (calls_of (b :: bs)) with (calls_of_batch b ++ calls_of bs).
  unfold all_files in Hni. simpl in Hni.
  rewrite moves_of_app, moves_of_batch_none, IH; [reflexivity| |];
    intros H; apply Hni; apply in_or_app; tauto.
Qed.

(** A file of a batch is moved once, to the destination of the batch. *)
Lemma moves_of_one n b bs :
  NoDup (all_files bs) -> In b bs -> In n (snd b) ->
  moves_of n (calls_of bs) = [Move n (resolve (fst b))].
Proof.
  induction bs as [|b0 bs IH]; intros Hnd Hb Hn; [destruct Hb|].
  change (calls_of (b0 :: bs)) with (calls_of_batch b0 ++ calls_of bs).
  unfold all_files in Hnd. simpl in Hnd. rewrite moves_of_app.
  assert (Hdisj : forall f, In f (snd b0) -> ~ In f (all_files bs))
    by (exact (NoDup_app_disjoint _ _ Hnd)).
  destruct Hb as [->|Hb].
  - rewrite moves_of_batch_one, moves_of_none; [reflexivity| | |exact Hn].
    + now apply Hdisj.
    + now apply NoDup_app_remove_r in Hnd.
  - rewrite moves_of_batch_none, IH; [reflexivity| | exact Hb | exact Hn |].
    + now apply NoDup_app_remove_l in Hnd.
    + intros Hin. apply (Hdisj n Hin). unfold all_files.
      apply in_concat. exists (snd b). split; [|exact Hn].
      apply in_map_iff. now exists b.
Qed.

Lemma glob_txt_NoDup l : NoDup (names l) -> NoDup (glob_txt l).
Proof. intros H. now apply NoDup_filter. Qed.

(** The conditions under which the run meets no collision: every
    destination name names an entry of the input directory, and is either
    absent there or a directory that is not itself enumerated and has no
    entry named like a file destined to it. *)
Definition free_for (input : listing) (b : batch) : Prop :=
  ordinary (fst b) /\
  (lookup (fst b) input = None \/
   exists L,
     lookup (fst b) input = Some (Dir L) /\
     endswith ".txt" (fst b) = false /\
     forall f, In f (snd b) -> lookup f L = None).

(** C1, as the code has it.  When the names of the input directory are
    distinct, the batch size is positive and no destination collides (see
    [free_for]), the function returns, every enumerated file is moved
    exactly once, it is no longer at the top level and is, with the contents
    it had, in the one reported subdirectory it was moved to, and the input
    directory holds as many regular files after the run as before. *)
Theorem C1_every_file_in_one_destination
        (input parent : listing) (name : string) (batch_size : Z) :
  (0 < batch_size)%Z ->
  NoDup (names input) ->
  (forall b, In b (plan batch_size input) -> free_for input b) ->
  exists ds st',
    split_input_by_source batch_size (start input parent name)
      = (Returned ds, st') /\
    ds = map (fun b => Sub (fst b)) (plan batch_size input) /\
    up st' = parent /\
    total_files (inp st') = total_files input /\
    forall n,
      In n (glob_txt input) ->
      exists s,
        moves_of n (trace st') = [Move n (Sub s)] /\
        In (Sub s) ds /\
        lookup n (inp st') = None /\
        exists L',
          lookup s (inp st') = Some (Dir L') /\
          lookup n L' = lookup n input /\
          lookup n input <> None.
Proof.
  intros HB Hnd Hfree.
  pose proof (all_files_plan batch_size input HB) as Hperm.
  assert (Hall : NoDup (all_files (plan batch_size input))).
  { apply (Permutation_NoDup (Permutation_sym Hperm)).
    now apply glob_txt_NoDup. }
  assert (Hglob : forall f, In f (all_files (plan batch_size input)) <->
                            In f (glob_txt input)).
  { intros f. split; apply Permutation_in;
      [exact Hperm | exact (Permutation_sym Hperm)]. }
  assert (Hexists : forall f, In f (glob_txt input) -> lookup f input <> None).
  { intros f Hf Hl. apply lookup_None in Hl. apply Hl.
    apply glob_txt_spec in Hf. tauto. }
  destruct (run_batches_ok (plan batch_size input)
                           (with_created [] (start input parent name)))
    as (st' & Hrun & _ & Hup & Htot & _ & Hplaced).
  { exact Hnd. }
  { now apply plan_NoDup. }
  { exact Hall. }
  { intros b Hb. destruct (Hfree b Hb) as (Hord & Hroom).
    split; [exact Hord|]. split; [|split].
    - intros Hin. apply Hglob in Hin.
      destruct Hroom as [Hn|(L & HL & He & _)].
      + apply (Hexists _ Hin Hn).
      + unfold glob_txt in Hin. apply filter_In in Hin. destruct Hin as [_ Hm].
        congruence.
    - destruct Hroom as [Hn|(L & HL & _ & Hf)]; [now left|].
      right. exists L. now split.
    - intros f Hf. apply Hexists. apply Hglob. unfold all_files.
      apply in_concat. exists (snd b). split; [|exact Hf].
      apply in_map_iff. now exists b. }
  pose proof Hrun as Hsim.
  apply (run_batches_sim (fun _ _ _ => True)) in Hsim; auto.
  destruct Hsim as (_ & tr & Et & _ & _ & Hr).
  destruct (Hr eq_refl) as [-> Hc]. simpl in Et, Hc, Hup, Htot.
  assert (Hds : map (fun b : batch => resolve (fst b)) (plan batch_size input)
                = map (fun b : batch => Sub (fst b)) (plan batch_size input)).
  { apply map_ext_in. intros b Hb. now destruct (Hfree b Hb) as [Hord _]. }
  exists (created_dirs st'), st'. split.
  { rewrite split_input_by_source_plan by exact HB.
    rewrite bind_modify.
    exact (bind_returned _ (fun _ => gets created_dirs) _ _ _ Hrun). }
  split; [now rewrite Hc, Hds|]. split; [exact Hup|]. split; [exact Htot|].
  intros n Hn. apply Hglob in Hn. unfold all_files in Hn.
  apply in_concat in Hn. destruct Hn as (c & Hc' & Hn).
  apply in_map_iff in Hc'. destruct Hc' as (b & <- & Hb).
  exists (fst b).
  destruct (Hplaced b n Hb Hn) as (Hgone & L' & HL' & Hin).
  split.
  { rewrite Et, (moves_of_one n b _ Hall Hb Hn).
    now destruct (Hfree b Hb) as [-> _]. }
  split.
  { rewrite Hc, Hds. apply in_map_iff. now exists b. }
  split; [exact Hgone|].
  exists L'. split; [exact HL'|]. split; [exact Hin|].
  apply Hexists. apply Hglob. unfold all_files. apply in_concat.
  exists (snd b). split; [|exact Hn]. apply in_map_iff. now exists b.
Qed.

Lemma C1_witness :
  let input := [("a_1.txt", File "1"); ("a_2.txt", File "2");
                ("b_1.txt", File "3"); ("notes.md", File "4")] in
  (0 < 7500)%Z /\
  NoDup (names input) /\
  (forall b, In b (plan 7500 input) -> free_for input b) /\
  exists ds st',
    split_input_by_source 7500 (start input [] "input") = (Returned ds, st') /\
    ds = map (fun b => Sub (fst b)) (plan 7500 input) /\
    up st' = [] /\
    total_files (inp st') = total_files input /\
    forall n,
      In n (glob_txt input) ->
      exists s,
        moves_of n (trace st') = [Move n (Sub s)] /\
        In (Sub s) ds /\
        lookup n (inp st') = None /\
        exists L',
          lookup s (inp st') = Some (Dir L') /\
          lookup n L' = lookup n input /\
          lookup n input <> None.
Proof.
  intros input.
  assert (HB : (0 < 7500)%Z) by lia.
  assert (Hnd : NoDup (names input)).
  { repeat constructor; simpl; intuition discriminate. }
  assert (Hfree : forall b, In b (plan 7500 input) -> free_for input b).
  { intros b Hb. vm_compute in Hb.
    destruct Hb as [<-|[<-|[]]]; (split; [reflexivity | left; reflexivity]). }
  split; [exact HB|]. split; [exact Hnd|]. split; [exact Hfree|].
  exact (C1_every_file_in_one_destination input [] "input" 7500 HB Hnd Hfree).
Defined.

(** C1 as the specification states it fails: a file whose name starts with
    an underscore has the empty key, [input_path / ""] is the input
    directory itself, and the function returns with the file still at the top
    level, moved to no subdirectory. *)
Lemma C1_counterexample :
  let input := [("_x.txt", File "text")] in
  let r := split_input_by_source 7500 (start input [] "input") in
  NoDup (names input) /\
  In "_x.txt" (glob_txt input) /\
  fst r = Returned [Here] /\
  lookup "_x.txt" (inp (snd r)) = Some (File "text") /\
  (forall s, received (Sub s) (trace (snd r)) = []) /\
  (forall s, entries_of s (inp (snd r)) = []).
Proof.
  intros input r.
  assert (E : r = (Returned [Here],
                   mk_state input [] "input" [Here]
                            [Mkdir Here; Move "_x.txt" Here]))
    by reflexivity.
  rewrite E. cbn [fst snd inp trace]. subst input.
  split; [repeat constructor; intros []|].
  split; [now left|]. split; [reflexivity|]. split; [reflexivity|].
  split; [reflexivity|].
  intros s. unfold entries_of. cbn [lookup].
  destruct (String.eqb "_x.txt" s); reflexivity.
Qed.

(** Why the conditions of C1 are there. *)

(** A destination that holds a directory named like the file: the file goes
    inside that directory. *)
Example file_into_a_nested_directory :
  let input := [("a_1.txt", File "text"); ("a", Dir [("a_1.txt", Dir [])])] in
  inp (snd (split_input_by_source 7500 (start input [] "input")))
  = [("a", Dir [("a_1.txt", Dir [("a_1.txt", File "text")])])].
Proof. reflexivity. Qed.

(** The key [..]: the file leaves the input directory. *)
Example file_into_the_parent :
  let input := [(".._x.txt", File "text")] in
  let st' := snd (split_input_by_source 7500 (start input [] "input")) in
  inp st' = [] /\ up st' = [(".._x.txt", File "text")].
Proof. split; reflexivity. Qed.

(** An enumerated directory that is the destination of its own group. *)
Example directory_into_itself :
  let input := [("a.txt", Dir []); ("a.txt_1.txt", File "text")] in
  split_input_by_source 7500 (start input [] "input")
  = (Raised ShutilError,
     mk_state input [] "input" [Sub "a.txt"] [Mkdir (Sub "a.txt")]).
Proof. reflexivity. Qed.

(** With a batch size of one the same two names go to numbered
    subdirectories, and the run completes. *)
Example file_without_underscore_in_parts :
  let input := [("a.txt", File "1"); ("a.txt_1.txt", File "2")] in
  inp (snd (split_input_by_source 1 (start input [] "input")))
  = [("a.txt_part1", Dir [("a.txt", File "1")]);
     ("a.txt_part2", Dir [("a.txt_1.txt", File "2")])].
Proof. reflexivity. Qed.

(** ** The subdirectories of a group *)

Lemma received_batch_own (b : string * list string) :
  ordinary (fst b) ->
  received (Sub (fst b)) (calls_of_batch b)
  = map (fun f => Move f (Sub (fst b))) (snd b).
Proof.
  intros Hord. unfold received, calls_of_batch. unfold ordinary in Hord.
  generalize (snd b). intros files. rewrite Hord.
  cbn [filter is_move_to].
  induction files as [|f fs IH]; [reflexivity|].
  cbn [map filter is_move_to]. rewrite String.eqb_refl. now rewrite IH.
Qed.

Lemma received_batches_one (bs : list (string * list string)) b :
  NoDup (map fst bs) -> In b bs -> ordinary (fst b) ->
  received (Sub (fst b)) (calls_of bs)
  = map (fun f => Move f (Sub (fst b))) (snd b).
Proof.
  induction bs as [|b0 bs IH]; intros Hnd Hin Hord; [destruct Hin|].
  cbn [map] in Hnd. inversion Hnd as [|? ? Hni Hnd']; subst.
  change (calls_of (b0 :: bs)) with (calls_of_batch b0 ++ calls_of bs).
  rewrite received_app. destruct Hin as [->|Hin].
  - rewrite received_batch_own by exact Hord.
    rewrite (received_batches_none _ _ Hni). apply app_nil_r.
  - rewrite received_batch_other, IH; try assumption; [reflexivity|].
    intros E. apply Hni. rewrite E. apply in_map_iff. now exists b.
Qed.

Lemma mkdir_in_calls (bs : list (string * list string)) b :
  In b bs -> In (Mkdir (resolve (fst b))) (calls_of bs).
Proof.
  intros Hin. unfold calls_of. apply in_flat_map. exists b.
  split; [exact Hin | now left].
Qed.

(** C3, as the code has it.  When the names of the input directory are
    distinct, the batch size is positive and no destination collides (see
    [free_for]), the function returns and, for every group of [N] files, it
    has made or found [ceil(N/B)] subdirectories of distinct names, distinct
    also from those of the other groups: the key alone when [N <= B], and
    otherwise the key with the suffixes [_part1], [_part2], ... in this
    order.  For each of them [mkdir] was called, the
    moves into it are those of its run of the files of the group, in order,
    and it is a directory that holds these files as they were.  The
    directories the function reports are these, group after group; no
    other subdirectory receives a file, and no other entry is made.  Twenty
    thousand files of prefix [PRELIMusc10] and a batch size of 7500 give
    [PRELIMusc10_part1] with 7500 files, [PRELIMusc10_part2] with 7500 and
    [PRELIMusc10_part3] with 5000. *)
Theorem C3_destinations_of_a_group
        (input parent : listing) (name : string) (batch_size : Z) :
  (0 < batch_size)%Z ->
  NoDup (names input) ->
  (forall b, In b (plan batch_size input) -> free_for input b) ->
  let found := group_by_prefix (glob_txt input) in
  exists ds st',
    split_input_by_source batch_size (start input parent name)
      = (Returned ds, st') /\
    ds = map (fun b => Sub (fst b)) (flat_map (batches_of batch_size) found) /\
    NoDup ds /\
    (forall key files,
        In (key, files) found ->
        let N := Z.of_nat (List.length files) in
        let dests := batches_of batch_size (key, files) in
        Z.of_nat (List.length dests) = ceil_div N batch_size /\
        NoDup (map fst dests) /\
        ((N <= batch_size)%Z -> dests = [(key, files)]) /\
        ((batch_size < N)%Z ->
         map fst dests = map (part_name key) (seq 1 (List.length dests))) /\
        List.concat (map snd dests) = files /\
        forall b, In b dests ->
          In (Mkdir (Sub (fst b))) (trace st') /\
          received (Sub (fst b)) (trace st')
          = map (fun f => Move f (Sub (fst b))) (snd b) /\
          exists L',
            lookup (fst b) (inp st') = Some (Dir L') /\
            forall f, In f (snd b) ->
              lookup f L' = lookup f input /\ lookup f input <> None) /\
    (forall s,
        ~ In s (map fst (flat_map (batches_of batch_size) found)) ->
        received (Sub s) (trace st') = [] /\
        (~ In s (glob_txt input) -> lookup s (inp st') = lookup s input)) /\
    (forall files,
        Z.of_nat (List.length files) = 20000%Z ->
        map (fun b => (fst b, Z.of_nat (List.length (snd b))))
            (batches_of 7500 ("PRELIMusc10", files)) =
        [("PRELIMusc10_part1", 7500%Z); ("PRELIMusc10_part2", 7500%Z);
         ("PRELIMusc10_part3", 5000%Z)]).
Proof.
  intros HB Hnd Hfree found.
  change (flat_map (batches_of batch_size) found) with (plan batch_size input).
  pose proof (all_files_plan batch_size input HB) as Hperm.
  assert (Hall : NoDup (all_files (plan batch_size input))).
  { apply (Permutation_NoDup (Permutation_sym Hperm)).
    now apply glob_txt_NoDup. }
  assert (Hglob : forall f, In f (all_files (plan batch_size input)) <->
                            In f (glob_txt input)).
  { intros f. split; apply Permutation_in;
      [exact Hperm | exact (Permutation_sym Hperm)]. }
  assert (Hexists : forall f, In f (glob_txt input) -> lookup f input <> None).
  { intros f Hf Hl. apply lookup_None in Hl. apply Hl.
    apply glob_txt_spec in Hf. tauto. }
  assert (Hmem : forall b f, In b (plan batch_size input) -> In f (snd b) ->
                             In f (all_files (plan batch_size input))).
  { intros b f Hb Hf. unfold all_files. apply in_concat.
    exists (snd b). split; [|exact Hf]. apply in_map_iff. now exists b. }
  destruct (run_batches_ok (plan batch_size input)
                           (with_created [] (start input parent name)))
    as (st' & Hrun & _ & _ & _ & Hframe & Hplaced).
  { exact Hnd. }
  { now apply plan_NoDup. }
  { exact Hall. }
  { intros b Hb. destruct (Hfree b Hb) as (Hord & Hroom).
    split; [exact Hord|]. split; [|split].
    - intros Hin. apply Hglob in Hin.
      destruct Hroom as [Hn|(L & HL & He & _)].
      + apply (Hexists _ Hin Hn).
      + unfold glob_txt in Hin. apply filter_In in Hin. destruct Hin as [_ Hm].
        congruence.
    - destruct Hroom as [Hn|(L & HL & _ & Hf)]; [now left|].
      right. exists L. now split.
    - intros f Hf. apply Hexists. apply Hglob. exact (Hmem b f Hb Hf). }
  pose proof Hrun as Hsim.
  apply (run_batches_sim (fun _ _ _ => True)) in Hsim; auto.
  destruct Hsim as (_ & tr & Et & _ & _ & Hr).
  destruct (Hr eq_refl) as [-> Hc]. simpl in Et, Hc, Hframe, Hplaced.
  assert (Hds : map (fun b : string * list string => resolve (fst b))
                    (plan batch_size input)
                = map (fun b : string * list string => Sub (fst b))
                      (plan batch_size input)).
  { apply map_ext_in. intros b Hb. now destruct (Hfree b Hb) as [Hord _]. }
  exists (created_dirs st'), st'. split.
  { rewrite split_input_by_source_plan by exact HB.
    rewrite bind_modify.
    exact (bind_returned _ (fun _ => gets created_dirs) _ _ _ Hrun). }
  split; [now rewrite Hc, Hds|].
  split.
  { rewrite Hc, Hds. rewrite <- (map_map fst Sub).
    apply NoDup_map_inj; [|now apply plan_NoDup].
    intros x y E. now injection E. }
  split; [|split].
  - intros key files Hin N dests.
    assert (Hne : (1 <= N)%Z).
    { apply group_by_prefix_spec in Hin. destruct Hin as [_ Hne].
      subst N. destruct files; [congruence | simpl; lia]. }
    split; [|split; [|split; [|split; [|split]]]].
    + destruct (Z.leb_spec N batch_size) as [Hle|Hgt].
      * subst dests. rewrite batches_of_small by exact Hle. simpl.
        symmetry. apply ceil_div_unique; lia.
      * destruct (batches_of_large batch_size key files HB Hgt) as (k & E & Hk & _).
        subst dests. rewrite E, length_map, length_seq. exact Hk.
    + now apply batches_of_NoDup.
    + intros Hle. subst dests. now apply batches_of_small.
    + intros Hgt.
      destruct (batches_of_large batch_size key files HB Hgt) as (k & E & _ & _).
      subst dests. rewrite E, length_map, length_seq, map_map. simpl.
      rewrite <- seq_shift, map_map. reflexivity.
    + now apply batches_of_files.
    + intros b Hb.
      assert (Hbp : In b (plan batch_size input)).
      { unfold plan. apply in_flat_map. now exists (key, files). }
      destruct (Hfree b Hbp) as [Hord _].
      split; [|split].
      * rewrite Et. rewrite <- Hord. now apply mkdir_in_calls.
      * rewrite Et. apply received_batches_one;
          [now apply plan_NoDup | exact Hbp | exact Hord].
      * destruct (snd b) as [|f0 fs] eqn:Eb.
        -- exfalso.
           assert (Hlen : forall b', In b' dests -> snd b' <> []).
           { intros b' Hb'. subst dests.
             destruct (Z.leb_spec N batch_size) as [Hle|Hgt].
             - rewrite batches_of_small in Hb' by exact Hle.
               destruct Hb' as [<-|[]]. simpl. intros ->. simpl in Hne.
               subst N. simpl in Hne. lia.
             - destruct (batches_of_large batch_size key files HB Hgt)
                 as (k & E & _ & Hj).
               rewrite E in Hb'. apply in_map_iff in Hb'.
               destruct Hb' as (j & <- & Hjk). apply in_seq in Hjk.
               simpl. intros Hs.
               assert (Hl : List.length
                              (slice files (j * Z.to_nat batch_size)
                                     (j * Z.to_nat batch_size
                                      + Z.to_nat batch_size)) = 0)
                 by (now rewrite Hs).
               rewrite slice_length in Hl.
               specialize (Hj j (proj2 Hjk)). lia. }
           exact (Hlen b Hb Eb).
        -- destruct (Hplaced b f0 Hbp) as (_ & L' & HL' & _);
             [rewrite Eb; now left|].
           exists L'. split; [exact HL'|].
           intros f Hf. rewrite <- Eb in Hf.
           destruct (Hplaced b f Hbp Hf) as (_ & L2 & HL2 & Hin2).
           rewrite HL' in HL2. injection HL2 as <-.
           split; [exact Hin2|].
           apply Hexists. apply Hglob. exact (Hmem b f Hbp Hf).
  - intros s Hs. split.
    + rewrite Et. now apply received_batches_none.
    + intros Hg. apply Hframe; [|exact Hs].
      intros Hin. apply Hg. now apply Hglob.
  - intros files Hlen.
    destruct (batches_of_large 7500 "PRELIMusc10" files) as (k & E & Hk & _);
      [lia | lia |].
    rewrite Hlen in Hk.
    assert (k = 3) by (change (ceil_div 20000 7500) with 3%Z in Hk; lia).
    subst k. rewrite E. cbn [seq map fst snd].
    rewrite !slice_length.
    repeat (f_equal; try lia).
Qed.

Lemma C3_witness :
  let input := [("a_1.txt", File "1"); ("a_2.txt", File "2");
                ("b_1.txt", File "3"); ("a_3.txt", File "4")] in
  (0 < 2)%Z /\
  NoDup (names input) /\
  (forall b, In b (plan 2 input) -> free_for input b) /\
  exists ds st',
    split_input_by_source 2 (start input [] "input") = (Returned ds, st') /\
    ds = [Sub "a_part1"; Sub "a_part2"; Sub "b"] /\
    received (Sub "a_part2") (trace st') = [Move "a_3.txt" (Sub "a_part2")] /\
    exists L',
      lookup "a_part2" (inp st') = Some (Dir L') /\
      lookup "a_3.txt" L' = Some (File "4").
Proof.
  intros input.
  assert (HB : (0 < 2)%Z) by lia.
  assert (Hnd : NoDup (names input)).
  { repeat constructor; simpl; intuition discriminate. }
  assert (Hfree : forall b, In b (plan 2 input) -> free_for input b).
  { intros b Hb. vm_compute in Hb.
    destruct Hb as [<-|[<-|[<-|[]]]]; (split; [reflexivity | left; reflexivity]). }
  split; [exact HB|]. split; [exact Hnd|]. split; [exact Hfree|].
  destruct (C3_destinations_of_a_group input [] "input" 2 HB Hnd Hfree)
    as (ds & st' & Hrun & Hds & _ & Hgroups & _).
  exists ds, st'. split; [exact Hrun|]. split; [exact Hds|].
  destruct (Hgroups "a" ["a_1.txt"; "a_2.txt"; "a_3.txt"] (or_introl eq_refl))
    as (_ & _ & _ & _ & _ & Hb).
  destruct (Hb ("a_part2", ["a_3.txt"]) (or_intror (or_introl eq_refl)))
    as (_ & Hrec & L' & HL' & Hin).
  split; [exact Hrec|]. exists L'. split; [exact HL'|].
  exact (proj1 (Hin "a_3.txt" (or_introl eq_refl))).
Defined.

(** C3 as the specification states it fails: the one file [_x.txt] makes a
    group of one with the empty key; [ceil(1/7500)] is one, and no
    subdirectory is made: [mkdir] is called on the input directory itself,
    which the function reports, and the input directory holds no directory
    when it returns. *)
Lemma C3_counterexample :
  let input := [("_x.txt", File "text")] in
  let r := split_input_by_source 7500 (start input [] "input") in
  group_by_prefix (glob_txt input) = [("", ["_x.txt"])] /\
  ceil_div 1 7500 = 1%Z /\
  fst r = Returned [Here] /\
  trace (snd r) = [Mkdir Here; Move "_x.txt" Here] /\
  inp (snd r) = input.
Proof. repeat split. Qed.

(** ** Reading an HTML file *)

Import driver.

(** The first encoding of the list that decodes the bytes, with the text. *)
Fixpoint first_decoding (encs : list encoding) (data : string)
  : option (encoding * list N) :=
  match encs with
  | [] => None
  | e :: rest =>
      match decode e data with
      | Some t => Some (e, t)
      | None => first_decoding rest data
      end
  end.

Lemma first_decoding_Some encs data e t :
  first_decoding encs data = Some (e, t) <->
  exists before after,
    encs = before ++ e :: after /\
    (forall e', In e' before -> decode e' data = None) /\
    decode e data = Some t.
Proof.
  induction encs as [|e0 rest IH]; simpl.
  - split; [discriminate|]. intros (before & after & E & _).
    destruct before; discriminate.
  - destruct (decode e0 data) as [t0|] eqn:E0.
    + split.
      * intros [= <- <-]. exists [], rest. now repeat split.
      * intros ([|e1 before] & after & E & Hb & Hd).
        -- injection E as <- <-. congruence.
        -- injection E as <- _. rewrite (Hb e0 (or_introl eq_refl)) in E0.
           discriminate.
    + rewrite IH. split.
      * intros (before & after & -> & Hb & Hd).
        exists (e0 :: before), after. repeat split; [|exact Hd].
        intros e' [<-|He']; [exact E0 | now apply Hb].
      * intros ([|e1 before] & after & E & Hb & Hd).
        -- injection E as <- <-. congruence.
        -- injection E as <- ->. exists before, after.
           repeat split; [|exact Hd]. intros e' He'. apply Hb. now right.
Qed.

Lemma first_decoding_None encs data :
  first_decoding encs data = None <->
  forall e, In e encs -> decode e data = None.
Proof.
  induction encs as [|e0 rest IH]; simpl; [tauto|].
  destruct (decode e0 data) as [t0|] eqn:E0.
  - split; [discriminate|]. intros H.
    rewrite (H e0 (or_introl eq_refl)) in E0. discriminate.
  - rewrite IH. split.
    + intros H e [<-|He]; [exact E0 | now apply H].
    + intros H e He. apply H. now right.
Qed.

Definition debug_line (html_path : string) (e : encoding) : event :=
  Printed ("[DEBUG] Successfully read " ++ html_path ++ " with "
             ++ encoding_name e ++ " encoding").

(** The errors of [open]: [UnicodeDecodeError] is not among them. *)
Lemma open_read_error elsewhere path l e :
  open_read elsewhere path l = Raised e ->
  e = ValueError \/ exists oe, e = OSError oe.
Proof.
  unfold open_read.
  assert (Hout : match elsewhere path with
                 | inl e0 => Raised (OSError e0)
                 | inr data => Returned data
                 end = Raised e -> exists oe, e = OSError oe).
  { destruct (elsewhere path) as [oe|data]; [|discriminate].
    intros [= <-]. now exists oe. }
  destruct (has_nul path); [intros [= <-]; now left|].
  destruct (String.eqb path ""); [intros [= <-]; right; now exists ENOENT|].
  destruct (absolute path); [intros H; right; exact (Hout H)|].
  destruct (walk [] l (split_on "/" path)).
  - discriminate.
  - intros [= <-]. right. now exists EISDIR.
  - intros [= <-]. right. now exists ENOENT.
  - intros [= <-]. right. now exists ENOTDIR.
  - intros H. right. exact (Hout H).
Qed.

(** The loop reads the file with the first encoding that decodes it. *)
Lemma read_any_decodes elsewhere html_path encs m data :
  open_read elsewhere html_path (cwd m) = Returned data ->
  data_ingestion.read_any elsewhere html_path encs m =
  match first_decoding encs data with
  | Some (e, t) =>
      (Returned (Some (universal_newlines t)),
       mk_machine (cwd m) (console m ++ [debug_line html_path e]))
  | None => (Returned None, m)
  end.
Proof.
  intros Hfile. induction encs as [|e rest IH]; simpl; [reflexivity|].
  unfold try_except, bind, read_text. rewrite Hfile.
  destruct (decode e data) as [t|]; [reflexivity | exact IH].
Qed.

(** When the file cannot be opened, [open] raises at the first turn and
    nothing catches it. *)
Lemma read_any_not_opened elsewhere html_path encs m e :
  open_read elsewhere html_path (cwd m) = Raised e ->
  encs <> [] ->
  data_ingestion.read_any elsewhere html_path encs m = (Raised e, m).
Proof.
  intros Hno Hne. destruct encs as [|e0 rest]; [congruence|]. simpl.
  unfold try_except, bind, read_text. rewrite Hno.
  destruct (open_read_error _ _ _ _ Hno) as [->|[[] ->]]; reflexivity.
Qed.

(** Lines 97 to 111 of [data_ingestion.py]. *)
Lemma decoding_decodes elsewhere html_path m data :
  open_read elsewhere html_path (cwd m) = Returned data ->
  data_ingestion.decoding elsewhere html_path m =
  match first_decoding data_ingestion.encodings data with
  | Some (e, t) =>
      (Returned (universal_newlines t),
       mk_machine (cwd m) (console m ++ [debug_line html_path e]))
  | None => (Raised ValueError, m)
  end.
Proof.
  intros Hfile. unfold data_ingestion.decoding, bind.
  rewrite (read_any_decodes _ _ _ _ _ Hfile).
  destruct (first_decoding data_ingestion.encodings data) as [[e t]|];
    reflexivity.
Qed.

Lemma decoding_not_opened elsewhere html_path m e :
  open_read elsewhere html_path (cwd m) = Raised e ->
  data_ingestion.decoding elsewhere html_path m = (Raised e, m).
Proof.
  intros Hno. unfold data_ingestion.decoding, bind.
  rewrite (read_any_not_opened _ _ _ _ _ Hno); [reflexivity | discriminate].
Qed.

(** C7. For a path that [open] opens, the decoding of
    [parse_html_to_chunks] tries its encodings in order and goes on with the
    text of the first that decodes the bytes; it raises, and then the
    could-not-decode [ValueError], exactly when none does.  In
    [data_ingestion.py] the encodings are utf-8, latin-1, windows-1252 and
    iso-8859-1; in [test-integration.py] there is utf-8 alone, and the error
    is the [UnicodeDecodeError] of the reading.  What the function does
    besides is to construct the section splitter first, and to hand the text
    to the splitters afterwards, whose outcome is its own. *)
Theorem C7_encodings_in_order
        (elsewhere : string -> os_error + string)
        (sp : splitters) (html_path : string)
        (headers : option (list (string * string)))
        (chunk_size chunk_overlap : Z) (m : machine) (data : string) :
  open_read elsewhere html_path (cwd m) = Returned data ->
  (forall encs,
      data_ingestion.read_any elsewhere html_path encs m =
      match first_decoding encs data with
      | Some (e, t) =>
          (Returned (Some (universal_newlines t)),
           mk_machine (cwd m) (console m ++ [debug_line html_path e]))
      | None => (Returned None, m)
      end) /\
  (forall before e after t,
      data_ingestion.encodings = before ++ e :: after ->
      (forall e', In e' before -> decode e' data = None) ->
      decode e data = Some t ->
      data_ingestion.decoding elsewhere html_path m =
      (Returned (universal_newlines t),
       mk_machine (cwd m) (console m ++ [debug_line html_path e]))) /\
  ((exists e, fst (data_ingestion.decoding elsewhere html_path m) = Raised e) <->
   forall e, In e data_ingestion.encodings -> decode e data = None) /\
  (forall e,
      fst (data_ingestion.decoding elsewhere html_path m) = Raised e ->
      data_ingestion.decoding elsewhere html_path m = (Raised ValueError, m)) /\
  (forall splitter,
      HTMLSectionSplitter sp (headers_or_default headers) = Returned splitter ->
      data_ingestion.parse_html_to_chunks elsewhere sp html_path headers
        chunk_size chunk_overlap m =
      match first_decoding data_ingestion.encodings data with
      | Some (e, t) =>
          (chunks_of sp splitter chunk_size chunk_overlap (universal_newlines t),
           mk_machine (cwd m) (console m ++ [debug_line html_path e]))
      | None => (Raised ValueError, m)
      end) /\
  read_text elsewhere html_path utf_8 m =
  match decode utf_8 data with
  | Some t => (Returned (universal_newlines t), m)
  | None => (Raised UnicodeDecodeError, m)
  end /\
  (forall splitter,
      HTMLSectionSplitter sp (headers_or_default headers) = Returned splitter ->
      test_integration.parse_html_to_chunks elsewhere sp html_path headers
        chunk_size chunk_overlap m =
      match decode utf_8 data with
      | Some t =>
          (chunks_of sp splitter chunk_size chunk_overlap (universal_newlines t),
           m)
      | None => (Raised UnicodeDecodeError, m)
      end).
Proof.
  intros Hfile.
  pose proof (decoding_decodes elsewhere html_path m data Hfile) as Hdec.
  split; [intros encs; now apply read_any_decodes|].
  split.
  { intros before e after t E Hb Hd. rewrite Hdec.
    assert (Hf : first_decoding data_ingestion.encodings data = Some (e, t)).
    { apply first_decoding_Some. now exists before, after. }
    now rewrite Hf. }
  split.
  { rewrite <- first_decoding_None, Hdec.
    destruct (first_decoding data_ingestion.encodings data) as [[e t]|];
      simpl; split; try discriminate; try reflexivity.
    - intros [e' [=]].
    - intros _. now exists ValueError. }
  split.
  { intros e. rewrite Hdec.
    destruct (first_decoding data_ingestion.encodings data) as [[e' t]|];
      simpl; [discriminate | reflexivity]. }
  split.
  - intros splitter Hs.
    unfold data_ingestion.parse_html_to_chunks. unfold bind at 1, lift at 1.
    rewrite Hs. unfold bind. rewrite Hdec.
    destruct (first_decoding data_ingestion.encodings data) as [[e t]|];
      reflexivity.
  - split.
    + unfold read_text. rewrite Hfile.
      destruct (decode utf_8 data) as [t|]; reflexivity.
    + intros splitter Hs.
      unfold test_integration.parse_html_to_chunks.
      unfold bind at 1, lift at 1.
      rewrite Hs. unfold bind, read_text. rewrite Hfile.
      destruct (decode utf_8 data) as [t|]; reflexivity.
Qed.

(** Splitters that keep the text in one piece, for the examples. *)
Definition one_piece : splitters :=
  mk_splitters unit unit (list N)
               (fun _ => Returned tt) (fun _ t => Returned [t])
               (fun _ _ => Returned tt) (fun _ d => Returned d)
               (fun d => d).

(** Nothing outside the working directory. *)
Definition nowhere : string -> os_error + string := fun _ => inl ENOENT.

(** A file that holds the single byte [0xE9]: not utf-8, and [U+00E9] in
    latin-1. *)
Definition e_acute : string := String (ascii_of_nat 233) EmptyString.

Lemma C7_witness :
  let m := mk_machine [("page.htm", File e_acute)] [] in
  open_read nowhere "page.htm" (cwd m) = Returned e_acute /\
  data_ingestion.parse_html_to_chunks nowhere one_piece "page.htm" None
    1000 100 m =
  (Returned [[233%N]],
   mk_machine (cwd m) [debug_line "page.htm" latin_1]).
Proof.
  intros m.
  assert (Hfile : open_read nowhere "page.htm" (cwd m) = Returned e_acute)
    by reflexivity.
  split; [exact Hfile|].
  exact (proj1 (proj2 (proj2 (proj2 (proj2
           (C7_encodings_in_order nowhere one_piece "page.htm" None
              1000 100 m e_acute Hfile))))) tt eq_refl).
Defined.

(** C10. In [data_ingestion.py] the branch that raises the could-not-decode
    error is never taken: latin-1 decodes every sequence of bytes, so the
    loop never leaves [html_str] at [None], whatever the path and whatever
    the file holds.  When [open] opens the path, the loop ends with a text,
    at utf-8 or at latin-1, and the decoding returns it; when [open] raises,
    its error is what the decoding raises. *)
Theorem C10_could_not_decode_is_unreachable
        (elsewhere : string -> os_error + string)
        (html_path : string) (m : machine) :
  (forall data, decode latin_1 data = Some (bytes_of data)) /\
  (forall data, exists e t,
      first_decoding data_ingestion.encodings data = Some (e, t) /\
      (e = utf_8 \/ e = latin_1)) /\
  fst (data_ingestion.read_any elsewhere html_path data_ingestion.encodings m)
    <> Returned None /\
  (forall data,
      open_read elsewhere html_path (cwd m) = Returned data ->
      exists t,
        fst (data_ingestion.read_any elsewhere html_path
               data_ingestion.encodings m) = Returned (Some t) /\
        fst (data_ingestion.decoding elsewhere html_path m) = Returned t) /\
  (forall e,
      open_read elsewhere html_path (cwd m) = Raised e ->
      data_ingestion.read_any elsewhere html_path data_ingestion.encodings m
        = (Raised e, m) /\
      data_ingestion.decoding elsewhere html_path m = (Raised e, m)).
Proof.
  assert (Hfirst : forall data, exists e t,
             first_decoding data_ingestion.encodings data = Some (e, t) /\
             (e = utf_8 \/ e = latin_1)).
  { intros data. unfold data_ingestion.encodings. simpl.
    destruct (utf8 (bytes_of data)) as [t|].
    - exists utf_8, t. split; [reflexivity | now left].
    - exists latin_1, (bytes_of data). split; [reflexivity | now right]. }
  assert (Hfile : forall data,
             open_read elsewhere html_path (cwd m) = Returned data ->
             exists t,
               fst (data_ingestion.read_any elsewhere html_path
                      data_ingestion.encodings m) = Returned (Some t) /\
               fst (data_ingestion.decoding elsewhere html_path m)
                 = Returned t).
  { intros data Hd.
    rewrite (read_any_decodes _ _ _ _ _ Hd), (decoding_decodes _ _ _ _ Hd).
    destruct (Hfirst data) as (e & t & -> & _). simpl. eauto. }
  assert (Hno : forall e,
             open_read elsewhere html_path (cwd m) = Raised e ->
             data_ingestion.read_any elsewhere html_path
               data_ingestion.encodings m = (Raised e, m) /\
             data_ingestion.decoding elsewhere html_path m = (Raised e, m)).
  { intros e He. split; [|now apply decoding_not_opened].
    apply read_any_not_opened; [exact He | discriminate]. }
  split; [reflexivity|]. split; [exact Hfirst|].
  split; [|split; [exact Hfile | exact Hno]].
  destruct (open_read elsewhere html_path (cwd m)) as [data|e] eqn:E.
  - destruct (Hfile data eq_refl) as (t & -> & _). discriminate.
  - rewrite (proj1 (Hno e eq_refl)). discriminate.
Qed.

Lemma C10_witness :
  let m := mk_machine [("page.htm", File e_acute)] [] in
  open_read nowhere "page.htm" (cwd m) = Returned e_acute /\
  exists t,
    fst (data_ingestion.read_any nowhere "page.htm"
           data_ingestion.encodings m) = Returned (Some t) /\
    fst (data_ingestion.decoding nowhere "page.htm" m) = Returned t.
Proof.
  intros m.
  assert (Hfile : open_read nowhere "page.htm" (cwd m) = Returned e_acute)
    by reflexivity.
  split; [exact Hfile|].
  exact (proj1 (proj2 (proj2 (proj2
    (C10_could_not_decode_is_unreachable nowhere "page.htm" m))))
    e_acute Hfile).
Defined.

(** ** The subprocesses *)

Definition init_cmd (executable workspace : string) : list string :=
  [executable; "-m"; "graphrag"; "init"; "--root"; workspace].

Definition index_cmd (executable workspace : string) : list string :=
  [executable; "-m"; "graphrag"; "index"; "--root"; workspace].

Definition query_cmd (executable workspace query : string) : list string :=
  [executable; "-m"; "graphrag"; "query";
   "--root"; workspace; "--method"; "local"; "--query"; query].

(** The command line [run_auto_prompt_tuning] builds in [data_ingestion.py]. *)
Definition data_ingestion_tune_cmd (executable workspace_path config_path : string)
  : list string :=
  [executable; "-m"; "graphrag"; "prompt-tune";
   "--root"; workspace_path;
   "--config"; config_path;
   "--domain"; "US Legal Code";
   "--selection-method"; "auto";
   "--limit"; "50";
   "--language"; "English";
   "--max-tokens"; "4096";
   "--chunk-size"; "512";
   "--min-examples-required"; "5";
   "--output"; "prompts";
   "--discover-entity-types"].

(** The one it builds in [test-integration.py]. *)
Definition test_integration_tune_cmd
           (executable workspace_path config_path : string) : list string :=
  [executable; "-m"; "graphrag"; "prompt-tune";
   "--root"; workspace_path;
   "--config"; config_path;
   "--domain"; "document analysis";
   "--selection-method"; "random";
   "--limit"; "15";
   "--language"; "English";
   "--max-tokens"; "2048";
   "--chunk-size"; "256";
   "--min-examples-required"; "3";
   "--output"; "prompts";
   "--no-discover-entity-types"].

(** [config_path], once the default has been filled in. *)
Definition config_or_default (workspace_path : string)
           (config_path : option string) : string :=
  match config_path with
  | None => os_path_join workspace_path "settings.yaml"
  | Some p => p
  end.

(** The command line of the prompt tuning that [data_ingestion.py] runs. *)
Definition tune_cmd (executable workspace : string) : list string :=
  data_ingestion_tune_cmd executable workspace
    (os_path_join workspace "settings.yaml").

(** The two captured streams as text, when both are valid in the locale. *)
Definition decoded (locale : string -> option string) (p : process)
  : option (string * string) :=
  match locale (stdout_bytes p), locale (stderr_bytes p) with
  | Some out, Some err => Some (out, err)
  | _, _ => None
  end.

(** What the query block prints when the query fails. *)
Definition failure_report (out err : string) : list event :=
  [Printed "❌ Graphrag failed!"; Printed "STDOUT:"; Printed out;
   Printed "STDERR:"; Printed err].

(** What [run_auto_prompt_tuning] prints once the process has ended. *)
Definition tuning_report (describe : exn -> string) (workspace_path : string)
           (cmd : list string) (status : Z) (out err : string) : list event :=
  if (status =? 0)%Z then
    [Printed "[SUCCESS] Auto prompt tuning completed successfully!";
     Printed ("[INFO] Generated prompts saved to: "
                ++ os_path_join workspace_path "prompts")]
  else
    [Printed ("[ERROR] Auto prompt tuning failed: "
                ++ describe (CalledProcessError cmd status (Some out) (Some err)));
     Printed ("[ERROR] stderr: " ++ err)].

(** A locale in which every sequence of bytes is a text. *)
Definition plain : string -> option string := fun bytes => Some bytes.

Lemma subprocess_run_nul graphrag locale cmd nj captured m :
  existsb has_nul cmd = true ->
  subprocess_run graphrag locale cmd nj captured m = (Raised ValueError, m).
Proof. intros H. unfold subprocess_run. now rewrite H. Qed.

Lemma subprocess_run_uncaptured graphrag locale cmd nj m p l :
  existsb has_nul cmd = false ->
  graphrag nj cmd (cwd m) = (p, l) ->
  subprocess_run graphrag locale cmd nj false m =
  (if (exit_status p =? 0)%Z
   then Returned (mk_completed (exit_status p) None None)
   else Raised (CalledProcessError cmd (exit_status p) None None),
   mk_machine l (console m ++ [Spawned cmd nj false])).
Proof.
  intros Hn E. unfold subprocess_run. rewrite Hn, E.
  destruct (exit_status p =? 0)%Z; reflexivity.
Qed.

Lemma subprocess_run_captured graphrag locale cmd nj m p l out err :
  existsb has_nul cmd = false ->
  graphrag nj cmd (cwd m) = (p, l) ->
  decoded locale p = Some (out, err) ->
  subprocess_run graphrag locale cmd nj true m =
  (if (exit_status p =? 0)%Z
   then Returned (mk_completed (exit_status p) (Some out) (Some err))
   else Raised (CalledProcessError cmd (exit_status p) (Some out) (Some err)),
   mk_machine l (console m ++ [Spawned cmd nj true])).
Proof.
  intros Hn E Hd. unfold subprocess_run. rewrite Hn, E.
  unfold decoded in Hd.
  destruct (locale (stdout_bytes p)) as [o|]; [|discriminate].
  destruct (locale (stderr_bytes p)) as [e|]; [|discriminate].
  injection Hd as -> ->.
  destruct (exit_status p =? 0)%Z; reflexivity.
Qed.

Lemma subprocess_run_undecodable graphrag locale cmd nj m p l :
  existsb has_nul cmd = false ->
  graphrag nj cmd (cwd m) = (p, l) ->
  decoded locale p = None ->
  subprocess_run graphrag locale cmd nj true m =
  (Raised UnicodeDecodeError,
   mk_machine l (console m ++ [Spawned cmd nj true])).
Proof.
  intros Hn E Hd. unfold subprocess_run. rewrite Hn, E.
  unfold decoded in Hd.
  destruct (locale (stdout_bytes p)) as [o|]; [|reflexivity].
  destruct (locale (stderr_bytes p)) as [e|]; [discriminate | reflexivity].
Qed.

(** The command lines of the scripts have no NUL character when the path of
    the interpreter has none. *)
Lemma has_nul_app a b : has_nul (a ++ b) = has_nul a || has_nul b.
Proof.
  induction a as [|c a IH]; simpl; [reflexivity|].
  now rewrite IH, orb_assoc.
Qed.

Lemma init_cmd_nul executable workspace :
  has_nul executable = false -> has_nul workspace = false ->
  existsb has_nul (init_cmd executable workspace) = false.
Proof. intros H1 H2. cbn [init_cmd existsb]. rewrite H1, H2. reflexivity. Qed.

Lemma index_cmd_nul executable workspace :
  has_nul executable = false -> has_nul workspace = false ->
  existsb has_nul (index_cmd executable workspace) = false.
Proof. intros H1 H2. cbn [index_cmd existsb]. rewrite H1, H2. reflexivity. Qed.

Lemma query_cmd_nul executable workspace query :
  has_nul executable = false -> has_nul workspace = false ->
  has_nul query = false ->
  existsb has_nul (query_cmd executable workspace query) = false.
Proof.
  intros H1 H2 H3. cbn [query_cmd existsb]. rewrite H1, H2, H3. reflexivity.
Qed.

Lemma tune_cmd_nul executable workspace :
  has_nul executable = false -> has_nul workspace = false ->
  existsb has_nul (tune_cmd executable workspace) = false.
Proof.
  intros H1 H2. unfold tune_cmd, os_path_join.
  cbn [data_ingestion_tune_cmd existsb].
  rewrite has_nul_app, H1, H2. reflexivity.
Qed.

Lemma run_query_fails graphrag locale executable workspace query m p l out err :
  existsb has_nul (query_cmd executable workspace query) = false ->
  graphrag false (query_cmd executable workspace query) (cwd m) = (p, l) ->
  decoded locale p = Some (out, err) ->
  exit_status p <> 0%Z ->
  run_query graphrag locale executable workspace query m =
  (Raised (CalledProcessError (query_cmd executable workspace query)
             (exit_status p) (Some out) (Some err)),
   mk_machine l
     (console m
        ++ Spawned (query_cmd executable workspace query) false true
        :: failure_report out err)).
Proof.
  intros Hn E Hd Hrc. unfold run_query, try_except.
  fold (query_cmd executable workspace query).
  rewrite (subprocess_run_captured _ _ _ _ _ _ _ _ _ Hn E Hd).
  apply Z.eqb_neq in Hrc. rewrite Hrc.
  unfold bind, print, modify, raise. simpl.
  rewrite <- !app_assoc. reflexivity.
Qed.

(** The [try] statement of [run_auto_prompt_tuning], for any command line. *)
Lemma tuning_try graphrag locale describe workspace_path cmd m :
  try_except
    (_ <- subprocess_run graphrag locale cmd true true ;;
     print "[SUCCESS] Auto prompt tuning completed successfully!" ;;
     print ("[INFO] Generated prompts saved to: "
              ++ os_path_join workspace_path "prompts") ;;
     ret true)
    (fun e =>
       match e with
       | CalledProcessError _ _ _ err =>
           Some (print ("[ERROR] Auto prompt tuning failed: " ++ describe e) ;;
                 print ("[ERROR] stderr: " ++ shown err) ;;
                 ret false)
       | _ => None
       end) m =
  if existsb has_nul cmd then (Raised ValueError, m)
  else
    let p := fst (graphrag true cmd (cwd m)) in
    let l := snd (graphrag true cmd (cwd m)) in
    match decoded locale p with
    | None =>
        (Raised UnicodeDecodeError,
         mk_machine l (console m ++ [Spawned cmd true true]))
    | Some (out, err) =>
        (Returned (exit_status p =? 0)%Z,
         mk_machine l
           (console m ++ Spawned cmd true true
              :: tuning_report describe workspace_path cmd
                   (exit_status p) out err))
    end.
Proof.
  destruct (existsb has_nul cmd) eqn:Hn.
  - unfold try_except, bind. now rewrite subprocess_run_nul.
  - destruct (graphrag true cmd (cwd m)) as [p l] eqn:E. cbn [fst snd].
    destruct (decoded locale p) as [[out err]|] eqn:Hd.
    + unfold try_except, bind.
      rewrite (subprocess_run_captured _ _ _ _ _ _ _ _ _ Hn E Hd).
      unfold tuning_report.
      destruct (exit_status p =? 0)%Z; unfold print, modify, ret; simpl;
        rewrite <- !app_assoc; reflexivity.
    + unfold try_except, bind.
      now rewrite (subprocess_run_undecodable _ _ _ _ _ _ _ Hn E Hd).
Qed.

Lemma data_ingestion_tuning_runs graphrag locale executable describe
      workspace_path config_path m :
  let cmd := data_ingestion_tune_cmd executable workspace_path
               (config_or_default workspace_path config_path) in
  let m0 := mk_machine (cwd m)
              (console m ++ [Printed "[INFO] Running auto prompt tuning..."]) in
  data_ingestion.run_auto_prompt_tuning graphrag locale executable describe
    workspace_path config_path m =
  if existsb has_nul cmd then (Raised ValueError, m0)
  else
    let p := fst (graphrag true cmd (cwd m)) in
    let l := snd (graphrag true cmd (cwd m)) in
    match decoded locale p with
    | None =>
        (Raised UnicodeDecodeError,
         mk_machine l (console m0 ++ [Spawned cmd true true]))
    | Some (out, err) =>
        (Returned (exit_status p =? 0)%Z,
         mk_machine l
           (console m0 ++ Spawned cmd true true
              :: tuning_report describe workspace_path cmd
                   (exit_status p) out err))
    end.
Proof.
  intros cmd m0. unfold data_ingestion.run_auto_prompt_tuning.
  unfold bind at 1. unfold print at 1, modify at 1.
  change (str (data_ingestion.limit data_ingestion.AUTO_TUNING_CONFIG)) with "50".
  change (str (data_ingestion.max_tokens data_ingestion.AUTO_TUNING_CONFIG)) with "4096".
  change (str (data_ingestion.chunk_size data_ingestion.AUTO_TUNING_CONFIG)) with "512".
  change (str (data_ingestion.min_examples_required data_ingestion.AUTO_TUNING_CONFIG)) with "5".
  cbn [data_ingestion.discover_entity_types data_ingestion.AUTO_TUNING_CONFIG
       data_ingestion.domain data_ingestion.selection_method
       data_ingestion.language data_ingestion.output app].
  fold (config_or_default workspace_path config_path).
  fold (data_ingestion_tune_cmd executable workspace_path
          (config_or_default workspace_path config_path)).
  fold cmd. fold m0. rewrite tuning_try. reflexivity.
Qed.

Lemma test_integration_tuning_runs graphrag locale executable describe
      workspace_path config_path m :
  let cmd := test_integration_tune_cmd executable workspace_path
               (config_or_default workspace_path config_path) in
  let m0 := mk_machine (cwd m)
              (console m ++ [Printed "[INFO] Running auto prompt tuning..."]) in
  test_integration.run_auto_prompt_tuning graphrag locale executable describe
    workspace_path config_path m =
  if existsb has_nul cmd then (Raised ValueError, m0)
  else
    let p := fst (graphrag true cmd (cwd m)) in
    let l := snd (graphrag true cmd (cwd m)) in
    match decoded locale p with
    | None =>
        (Raised UnicodeDecodeError,
         mk_machine l (console m0 ++ [Spawned cmd true true]))
    | Some (out, err) =>
        (Returned (exit_status p =? 0)%Z,
         mk_machine l
           (console m0 ++ Spawned cmd true true
              :: tuning_report describe workspace_path cmd
                   (exit_status p) out err))
    end.
Proof.
  intros cmd m0. unfold test_integration.run_auto_prompt_tuning.
  unfold bind at 1. unfold print at 1, modify at 1.
  change (str (test_integration.limit test_integration.AUTO_TUNING_CONFIG)) with "15".
  change (str (test_integration.max_tokens test_integration.AUTO_TUNING_CONFIG)) with "2048".
  change (str (test_integration.chunk_size test_integration.AUTO_TUNING_CONFIG)) with "256".
  change (str (test_integration.min_examples_required test_integration.AUTO_TUNING_CONFIG)) with "3".
  cbn [test_integration.discover_entity_types test_integration.AUTO_TUNING_CONFIG
       test_integration.domain test_integration.selection_method
       test_integration.language test_integration.output app].
  fold (config_or_default workspace_path config_path).
  fold (test_integration_tune_cmd executable workspace_path
          (config_or_default workspace_path config_path)).
  fold cmd. fold m0. rewrite tuning_try. reflexivity.
Qed.

(** The tuning step of [data_ingestion.py], whatever the tool does. *)
Lemma tuning_runs graphrag locale executable describe m :
  has_nul executable = false ->
  let cmd := tune_cmd executable data_ingestion.WORKSPACE in
  let p := fst (graphrag true cmd (cwd m)) in
  let l := snd (graphrag true cmd (cwd m)) in
  let started :=
    console m
      ++ [Printed "[INFO] Running auto prompt tuning for domain-adapted prompts...";
          Printed "[INFO] Running auto prompt tuning...";
          Spawned cmd true true] in
  data_ingestion.tuning graphrag locale executable describe m =
  match decoded locale p with
  | None => (Raised UnicodeDecodeError, mk_machine l started)
  | Some (out, err) =>
      (Returned tt,
       mk_machine l
         (started
            ++ tuning_report describe data_ingestion.WORKSPACE cmd
                 (exit_status p) out err
            ++ [Printed
                  (if (exit_status p =? 0)%Z
                   then "[INFO] Auto-tuning completed successfully - GraphRAG will use the tuned prompts automatically"
                   else "[WARNING] Auto prompt tuning failed, proceeding with default prompts")]))
  end.
Proof.
  intros Hex. cbv zeta. unfold data_ingestion.tuning.
  unfold bind at 1. unfold print at 1, modify at 1. unfold bind.
  rewrite data_ingestion_tuning_runs.
  change (data_ingestion_tune_cmd executable data_ingestion.WORKSPACE
            (config_or_default data_ingestion.WORKSPACE None))
    with (tune_cmd executable data_ingestion.WORKSPACE).
  rewrite (tune_cmd_nul executable data_ingestion.WORKSPACE Hex eq_refl).
  cbn [cwd console].
  destruct (graphrag true (tune_cmd executable data_ingestion.WORKSPACE) (cwd m))
    as [p l]. cbn [fst snd].
  destruct (decoded locale p) as [[out err]|].
  - destruct (exit_status p =? 0)%Z;
      unfold print, modify; cbn [cwd console];
      rewrite <- !app_assoc; reflexivity.
  - rewrite <- !app_assoc. reflexivity.
Qed.

(** ** Resuming *)

Definition output_dir : string := os_path_join test_integration.WORKSPACE "output".

(** The expected output files that exist below the working directory. *)
Definition existing_key_files (l : listing) : list string :=
  filter (fun f => path_exists (components (os_path_join output_dir f)) l)
         test_integration.key_files.

Lemma key_file_needs_output_dir l :
  existing_key_files l <> [] -> path_exists (components output_dir) l = true.
Proof.
  intros Hne.
  destruct (existing_key_files l) as [|f r] eqn:E; [congruence|].
  assert (Hf : In f (existing_key_files l)) by (rewrite E; now left).
  unfold existing_key_files in Hf. apply filter_In in Hf.
  destruct Hf as [Hin Hp].
  change (components output_dir) with ["msgragtest"; "output"].
  unfold path_exists in *. simpl.
  destruct Hin as [<-|[<-|[<-|[]]]];
    match type of Hp with
    | context [components ?p] =>
        let c := eval vm_compute in (components p) in
        change (components p) with c in Hp
    end;
    simpl in Hp;
    destruct (lookup "msgragtest" l) as [[d|es]|]; try discriminate;
    destruct (lookup "output" es) as [[d|es2]|]; try discriminate;
    reflexivity.
Qed.

Definition found_line (existing_files : list string) : string :=
  ("[INFO] Found existing indexing output ("
     ++ str (List.length existing_files)
     ++ "/3 key files), skipping indexing")%string.

Definition existing_line (existing_files : list string) : string :=
  ("[INFO] Existing files: " ++ String.concat ", " existing_files)%string.

(** With two of the three files there, nothing is started. *)
Lemma indexing_skipped graphrag locale executable m :
  2 <= List.length (existing_key_files (cwd m)) ->
  test_integration.indexing graphrag locale executable m =
  (Returned tt,
   mk_machine (cwd m)
     (console m
        ++ [Printed (found_line (existing_key_files (cwd m)));
            Printed (existing_line (existing_key_files (cwd m)));
            Printed "[INFO] Using existing indexed data"])).
Proof.
  intros Hlen. unfold test_integration.indexing.
  unfold bind at 1. unfold os_path_exists, gets at 1.
  fold output_dir. rewrite key_file_needs_output_dir
    by (destruct (existing_key_files (cwd m)); [simpl in Hlen; lia | discriminate]).
  unfold bind at 1. unfold bind at 1. unfold gets at 1.
  fold (existing_key_files (cwd m)).
  apply Nat.leb_le in Hlen. rewrite Hlen.
  unfold bind, print, modify, ret. simpl.
  rewrite <- !app_assoc. reflexivity.
Qed.

(** With fewer, the index command is run. *)
Lemma indexing_run graphrag locale executable m :
  List.length (existing_key_files (cwd m)) < 2 ->
  test_integration.indexing graphrag locale executable m =
  (_ <- subprocess_run graphrag locale
          (index_cmd executable test_integration.WORKSPACE) true false ;;
   ret tt)
    (mk_machine (cwd m)
       (console m ++ [Printed "[INFO] Indexing input file with GraphRAG..."])).
Proof.
  intros Hlen. unfold test_integration.indexing.
  unfold bind at 1. unfold os_path_exists, gets at 1.
  fold output_dir.
  destruct (path_exists (components output_dir) (cwd m)).
  - unfold bind at 1. unfold bind at 1. unfold gets at 1.
    fold (existing_key_files (cwd m)).
    apply Nat.leb_gt in Hlen. rewrite Hlen. reflexivity.
  - reflexivity.
Qed.

(** *** What a run adds to the console *)

(** Every run of [m] extends the console by events that satisfy [P]. *)
Definition adds {A} (P : event -> Prop) (m : M machine A) : Prop :=
  forall s, exists added,
    console (snd (m s)) = console s ++ added /\ Forall P added.

Lemma adds_ret {A} P (a : A) : adds P (ret a).
Proof. intros s. exists []. simpl. now rewrite app_nil_r. Qed.

Lemma adds_raise {A} P e : adds P (@raise machine A e).
Proof. intros s. exists []. simpl. now rewrite app_nil_r. Qed.

Lemma adds_gets {A} P (f : machine -> A) : adds P (gets f).
Proof. intros s. exists []. simpl. now rewrite app_nil_r. Qed.

Lemma adds_print P text : P (Printed text) -> adds P (print text).
Proof. intros H s. exists [Printed text]. simpl. split; [reflexivity|]. now constructor. Qed.

Lemma adds_bind {A B} P (m : M machine A) (k : A -> M machine B) :
  adds P m -> (forall a, adds P (k a)) -> adds P (x <- m ;; k x).
Proof.
  intros Hm Hk s. unfold bind. destruct (Hm s) as (a1 & E1 & F1).
  destruct (m s) as [[a|e] s1]; simpl in *.
  - destruct (Hk a s1) as (a2 & E2 & F2). exists (a1 ++ a2).
    rewrite E2, E1, app_assoc. split; [reflexivity|].
    apply Forall_app. now split.
  - exists a1. now split.
Qed.

Lemma adds_try_except {A} P (m : M machine A) h :
  adds P m -> (forall e k, h e = Some k -> adds P k) ->
  adds P (try_except m h).
Proof.
  intros Hm Hh s. unfold try_except. destruct (Hm s) as (a1 & E1 & F1).
  destruct (m s) as [[a|e] s1]; simpl in *.
  - exists a1. now split.
  - destruct (h e) as [k|] eqn:Ek; simpl.
    + destruct (Hh e k Ek s1) as (a2 & E2 & F2). exists (a1 ++ a2).
      rewrite E2, E1, app_assoc. split; [reflexivity|].
      apply Forall_app. now split.
    + exists a1. now split.
Qed.

Lemma adds_subprocess_run P graphrag locale cmd nj captured :
  P (Spawned cmd nj captured) ->
  adds P (subprocess_run graphrag locale cmd nj captured).
Proof.
  intros H s. unfold subprocess_run.
  destruct (existsb has_nul cmd).
  { exists []. simpl. now rewrite app_nil_r. }
  exists [Spawned cmd nj captured].
  destruct (graphrag nj cmd (cwd s)) as [p l].
  destruct captured;
    [destruct (locale (stdout_bytes p)); [destruct (locale (stderr_bytes p))|]|];
    try destruct (exit_status p =? 0)%Z; simpl;
    (split; [reflexivity | now constructor]).
Qed.

Lemma adds_os_makedirs P path : adds P (os_makedirs path).
Proof.
  intros s. exists []. unfold os_makedirs.
  destruct (makedirs (components path) (cwd s)); simpl; now rewrite app_nil_r.
Qed.

Lemma adds_os_path_exists P path : adds P (os_path_exists path).
Proof. apply adds_gets. Qed.

(** Only these two commands are started by [test-integration.py]. *)
Definition index_or_query (executable : string) (e : event) : Prop :=
  match e with
  | Printed _ => True
  | Spawned cmd _ _ =>
      cmd = index_cmd executable test_integration.WORKSPACE \/
      cmd = query_cmd executable test_integration.WORKSPACE test_integration.QUERY
  end.

Lemma adds_querying P graphrag locale executable workspace query :
  (forall text, P (Printed text)) ->
  P (Spawned (query_cmd executable workspace query) false true) ->
  adds P (querying graphrag locale executable workspace query).
Proof.
  intros Hp Hs. unfold querying, run_query.
  repeat (apply adds_bind; [|intros ?]); try apply adds_print; try apply Hp.
  apply adds_try_except; [now apply adds_subprocess_run|].
  intros e k Hk. destruct e; try discriminate. injection Hk as <-.
  repeat (apply adds_bind; [|intros ?]); try apply adds_print; try apply Hp.
  apply adds_raise.
Qed.

Lemma test_integration_spawns graphrag locale executable :
  adds (index_or_query executable)
       (test_integration.script graphrag locale executable).
Proof.
  unfold test_integration.script, test_integration.indexing.
  apply adds_bind; [apply adds_os_makedirs | intros _].
  apply adds_bind.
  - apply adds_bind; [apply adds_os_path_exists | intros out_exists].
    apply adds_bind.
    + destruct out_exists; [|apply adds_ret].
      apply adds_bind; [apply adds_gets | intros existing].
      destruct (Nat.leb 2 (List.length existing)); [|apply adds_ret].
      repeat (apply adds_bind; [|intros ?]); try apply adds_print;
        try exact I. apply adds_ret.
    + intros complete. destruct (negb complete).
      * repeat (apply adds_bind; [|intros ?]); try apply adds_print;
          try exact I; [|apply adds_ret].
        apply adds_subprocess_run. now left.
      * now apply adds_print.
  - intros _. apply adds_querying; [intros; exact I | now right].
Qed.

(** C5, as the code has it.  In [test-integration.py] the index command is
    skipped exactly when at least two of [entities.parquet],
    [relationships.parquet] and [communities.parquet] exist in the output
    directory of the workspace.  No statement that runs looks at the prompts
    directory: [test-integration.py] starts nothing but the index and the
    query commands, and the tuning step of [data_ingestion.py] starts the
    prompt tuning whatever the working directory holds.  (The path of the
    interpreter has no NUL character.) *)
Theorem C5_resumability
        (graphrag : tool) (locale : string -> option string)
        (executable : string) (describe : exn -> string) (m : machine) :
  has_nul executable = false ->
  (2 <= List.length (existing_key_files (cwd m)) ->
   test_integration.indexing graphrag locale executable m =
   (Returned tt,
    mk_machine (cwd m)
      (console m
         ++ [Printed (found_line (existing_key_files (cwd m)));
             Printed (existing_line (existing_key_files (cwd m)));
             Printed "[INFO] Using existing indexed data"]))) /\
  (List.length (existing_key_files (cwd m)) < 2 ->
   exists p l,
     graphrag true (index_cmd executable test_integration.WORKSPACE) (cwd m)
       = (p, l) /\
     snd (test_integration.indexing graphrag locale executable m) =
     mk_machine l
       (console m
          ++ [Printed "[INFO] Indexing input file with GraphRAG...";
              Spawned (index_cmd executable test_integration.WORKSPACE)
                      true false])) /\
  (forall cmd nj captured,
      In (Spawned cmd nj captured)
         (console (snd (test_integration.script graphrag locale executable
                          (mk_machine (cwd m) [])))) ->
      cmd = index_cmd executable test_integration.WORKSPACE \/
      cmd = query_cmd executable test_integration.WORKSPACE
                      test_integration.QUERY) /\
  (exists rest,
      console (snd (data_ingestion.tuning graphrag locale executable describe m)) =
      console m
        ++ Printed "[INFO] Running auto prompt tuning for domain-adapted prompts..."
        :: Printed "[INFO] Running auto prompt tuning..."
        :: Spawned (tune_cmd executable data_ingestion.WORKSPACE) true true
        :: rest /\
      cwd (snd (data_ingestion.tuning graphrag locale executable describe m)) =
      snd (graphrag true (tune_cmd executable data_ingestion.WORKSPACE) (cwd m))).
Proof.
  intros Hex.
  split; [apply indexing_skipped|]. split; [|split].
  - intros Hlen. rewrite (indexing_run _ _ _ _ Hlen).
    destruct (graphrag true (index_cmd executable test_integration.WORKSPACE)
                       (cwd m)) as [p l] eqn:E.
    exists p, l. split; [reflexivity|].
    unfold bind.
    rewrite (subprocess_run_uncaptured graphrag locale _ true _ p l);
      [|now apply index_cmd_nul|exact E].
    destruct (exit_status p =? 0)%Z; simpl; rewrite <- app_assoc; reflexivity.
  - intros cmd nj captured Hin.
    destruct (test_integration_spawns graphrag locale executable
                                      (mk_machine (cwd m) []))
      as (added & E & F).
    rewrite E in Hin. simpl in Hin.
    rewrite Forall_forall in F. exact (F _ Hin).
  - rewrite (tuning_runs graphrag locale executable describe m Hex).
    destruct (decoded locale _) as [[out err]|]; cbn [fst snd cwd console].
    + eexists. split; [|reflexivity]. rewrite <- app_assoc. reflexivity.
    + exists []. split; reflexivity.
Qed.

(** A workspace that has been initialised, tuned and indexed. *)
Definition finished_workspace : listing :=
  [("msgragtest",
    Dir [(".env", File "GRAPHRAG_API_KEY=k");
         ("settings.yaml", File "models:");
         ("input", Dir [("a_chunk_000.txt", File "text")]);
         ("prompts", Dir [("entity_extraction.txt", File "prompt")]);
         ("output", Dir [("entities.parquet", File "e");
                         ("relationships.parquet", File "r");
                         ("communities.parquet", File "c")])])].

(** A tool that succeeds and changes nothing. *)
Definition quiet_tool : tool :=
  fun _ _ l => (mk_process 0 "answer" "", l).

(** A tool that succeeds, changes nothing and writes the byte [0xE9], which
    is not utf-8. *)
Definition latin_tool : tool :=
  fun _ _ l => (mk_process 0 (String (ascii_of_nat 233) EmptyString) "", l).

(** The locale of utf-8, on bytes without a carriage return to translate:
    valid bytes are the text, written in utf-8. *)
Definition utf8_text : string -> option string :=
  fun bytes =>
    match utf8 (bytes_of bytes) with
    | Some _ => Some bytes
    | None => None
    end.

Lemma C5_witness :
  let m := mk_machine finished_workspace [] in
  has_nul "python" = false /\
  2 <= List.length (existing_key_files (cwd m)) /\
  test_integration.indexing quiet_tool plain "python" m =
  (Returned tt,
   mk_machine (cwd m)
     (console m
        ++ [Printed (found_line (existing_key_files (cwd m)));
            Printed (existing_line (existing_key_files (cwd m)));
            Printed "[INFO] Using existing indexed data"])).
Proof.
  intros m.
  assert (Hex : has_nul "python" = false) by reflexivity.
  assert (H : 2 <= List.length (existing_key_files (cwd m))).
  { vm_compute. repeat constructor. }
  split; [exact Hex|]. split; [exact H|].
  exact (proj1 (C5_resumability quiet_tool plain "python" (fun _ => "") m Hex) H).
Defined.

(** C5 as the specification states it fails: with the prompts directory
    populated and the three output files present, [data_ingestion.py] runs
    the prompt tuning all the same. *)
Lemma C5_counterexample :
  let r := data_ingestion.script quiet_tool plain "python" (fun _ => "")
             (mk_machine finished_workspace []) in
  lookup_path (components "./msgragtest/prompts") finished_workspace
    = Some (Dir [("entity_extraction.txt", File "prompt")]) /\
  List.length (existing_key_files finished_workspace) = 3 /\
  fst r = Returned tt /\
  In (Spawned (tune_cmd "python" data_ingestion.WORKSPACE) true true)
     (console (snd r)).
Proof.
  vm_compute. repeat split. auto 10.
Qed.

(** ** A subprocess that fails *)

Lemma bind_assoc {S A B C} (m : M S A) (k : A -> M S B) (h : B -> M S C) s :
  (y <- (x <- m ;; k x) ;; h y) s = (x <- m ;; y <- k x ;; h y) s.
Proof.
  unfold bind. destruct (m s) as [[a|e] s1]; [|reflexivity].
  destruct (k a s1) as [[b|e] s2]; reflexivity.
Qed.

Lemma querying_fails graphrag locale executable workspace query m p l out err :
  existsb has_nul (query_cmd executable workspace query) = false ->
  graphrag false (query_cmd executable workspace query) (cwd m) = (p, l) ->
  decoded locale p = Some (out, err) ->
  exit_status p <> 0%Z ->
  querying graphrag locale executable workspace query m =
  (Raised (CalledProcessError (query_cmd executable workspace query)
             (exit_status p) (Some out) (Some err)),
   mk_machine l
     (console m
        ++ Printed "[INFO] Running a query with GraphRAG..."
        :: Spawned (query_cmd executable workspace query) false true
        :: failure_report out err)).
Proof.
  intros Hn E Hd Hrc. unfold querying. unfold bind at 1.
  unfold print at 1, modify at 1. unfold bind at 1.
  rewrite (run_query_fails graphrag locale executable workspace query _ p l out err);
    [|exact Hn|exact E|exact Hd|exact Hrc].
  simpl. rewrite <- app_assoc. reflexivity.
Qed.

(** Captured output that is not valid in the locale: the error of the
    decoding is not the one the [try] catches, and nothing is printed. *)
Lemma querying_undecodable graphrag locale executable workspace query m p l :
  existsb has_nul (query_cmd executable workspace query) = false ->
  graphrag false (query_cmd executable workspace query) (cwd m) = (p, l) ->
  decoded locale p = None ->
  querying graphrag locale executable workspace query m =
  (Raised UnicodeDecodeError,
   mk_machine l
     (console m
        ++ [Printed "[INFO] Running a query with GraphRAG...";
            Spawned (query_cmd executable workspace query) false true])).
Proof.
  intros Hn E Hd. unfold querying. unfold bind at 1.
  unfold print at 1, modify at 1. unfold bind at 1.
  unfold run_query, try_except.
  fold (query_cmd executable workspace query).
  rewrite (subprocess_run_undecodable graphrag locale _ false _ p l);
    [|exact Hn|exact E|exact Hd].
  simpl. rewrite <- app_assoc. reflexivity.
Qed.

(** What comes before the query in each script. *)
Definition before_query_test_integration (graphrag : tool)
           (locale : string -> option string) (executable : string)
  : M machine unit :=
  os_makedirs test_integration.INPUT_DIR ;;
  test_integration.indexing graphrag locale executable.

Definition before_query_data_ingestion (graphrag : tool)
           (locale : string -> option string) (executable : string)
           (describe : exn -> string) : M machine unit :=
  data_ingestion.initializing graphrag locale executable ;;
  os_makedirs data_ingestion.INPUT_DIR ;;
  data_ingestion.tuning graphrag locale executable describe ;;
  data_ingestion.indexing graphrag locale executable.

Lemma test_integration_script_split graphrag locale executable s :
  test_integration.script graphrag locale executable s =
  (before_query_test_integration graphrag locale executable ;;
   querying graphrag locale executable test_integration.WORKSPACE
            test_integration.QUERY) s.
Proof.
  unfold test_integration.script, before_query_test_integration.
  now rewrite bind_assoc.
Qed.

Lemma data_ingestion_script_split graphrag locale executable describe s :
  data_ingestion.script graphrag locale executable describe s =
  (before_query_data_ingestion graphrag locale executable describe ;;
   querying graphrag locale executable data_ingestion.WORKSPACE
            data_ingestion.QUERY) s.
Proof.
  unfold data_ingestion.script, before_query_data_ingestion.
  rewrite bind_assoc. apply bind_cong_r. intros a s1.
  rewrite bind_assoc. apply bind_cong_r. intros b s2.
  now rewrite bind_assoc.
Qed.

Definition tuning_error_line (describe : exn -> string) (executable : string)
           (status : Z) (out err : string) : string :=
  ("[ERROR] Auto prompt tuning failed: "
     ++ describe (CalledProcessError
                    (tune_cmd executable data_ingestion.WORKSPACE)
                    status (Some out) (Some err)))%string.

Lemma QUERY_nul :
  has_nul data_ingestion.QUERY = false /\ has_nul test_integration.QUERY = false.
Proof. split; reflexivity. Qed.

(** C6, as the code has it.  The process [p] has exited with a status other
    than zero, and the path of the interpreter has no NUL character.  When
    its captured streams are valid text in the locale: a failing query has
    them printed and its [CalledProcessError] raised again, which ends
    either script; a failing prompt tuning is reported, with the captured
    error stream, and is not raised: the step returns and the script goes on
    with the default prompts.  When they are not valid, the decoding raises
    [UnicodeDecodeError], which no [try] of the scripts catches: nothing is
    printed, and the query block and the tuning step alike raise it.  A
    failing [init] or [index] command raises [CalledProcessError] at once;
    its streams were not captured and the script prints nothing more. *)
Theorem C6_failing_subprocess
        (graphrag : tool) (locale : string -> option string)
        (executable : string) (describe : exn -> string)
        (m : machine) (p : process) (l : listing) :
  has_nul executable = false ->
  exit_status p <> 0%Z ->
  (forall workspace query out err,
      has_nul workspace = false -> has_nul query = false ->
      decoded locale p = Some (out, err) ->
      graphrag false (query_cmd executable workspace query) (cwd m) = (p, l) ->
      querying graphrag locale executable workspace query m =
      (Raised (CalledProcessError (query_cmd executable workspace query)
                 (exit_status p) (Some out) (Some err)),
       mk_machine l
         (console m
            ++ Printed "[INFO] Running a query with GraphRAG..."
            :: Spawned (query_cmd executable workspace query) false true
            :: failure_report out err))) /\
  (forall m0 out err,
      decoded locale p = Some (out, err) ->
      before_query_test_integration graphrag locale executable m0
        = (Returned tt, m) ->
      graphrag false
        (query_cmd executable test_integration.WORKSPACE test_integration.QUERY)
        (cwd m) = (p, l) ->
      test_integration.script graphrag locale executable m0 =
      (Raised (CalledProcessError
                 (query_cmd executable test_integration.WORKSPACE
                            test_integration.QUERY)
                 (exit_status p) (Some out) (Some err)),
       mk_machine l
         (console m
            ++ Printed "[INFO] Running a query with GraphRAG..."
            :: Spawned (query_cmd executable test_integration.WORKSPACE
                                  test_integration.QUERY) false true
            :: failure_report out err))) /\
  (forall m0 out err,
      decoded locale p = Some (out, err) ->
      before_query_data_ingestion graphrag locale executable describe m0
        = (Returned tt, m) ->
      graphrag false
        (query_cmd executable data_ingestion.WORKSPACE data_ingestion.QUERY)
        (cwd m) = (p, l) ->
      data_ingestion.script graphrag locale executable describe m0 =
      (Raised (CalledProcessError
                 (query_cmd executable data_ingestion.WORKSPACE
                            data_ingestion.QUERY)
                 (exit_status p) (Some out) (Some err)),
       mk_machine l
         (console m
            ++ Printed "[INFO] Running a query with GraphRAG..."
            :: Spawned (query_cmd executable data_ingestion.WORKSPACE
                                  data_ingestion.QUERY) false true
            :: failure_report out err))) /\
  (forall out err,
      decoded locale p = Some (out, err) ->
      graphrag true (tune_cmd executable data_ingestion.WORKSPACE) (cwd m)
        = (p, l) ->
      data_ingestion.tuning graphrag locale executable describe m =
      (Returned tt,
       mk_machine l
         (console m
            ++ [Printed "[INFO] Running auto prompt tuning for domain-adapted prompts...";
                Printed "[INFO] Running auto prompt tuning...";
                Spawned (tune_cmd executable data_ingestion.WORKSPACE) true true;
                Printed (tuning_error_line describe executable
                           (exit_status p) out err);
                Printed ("[ERROR] stderr: " ++ err);
                Printed "[WARNING] Auto prompt tuning failed, proceeding with default prompts"]))) /\
  (decoded locale p = None ->
   (forall workspace query,
       has_nul workspace = false -> has_nul query = false ->
       graphrag false (query_cmd executable workspace query) (cwd m) = (p, l) ->
       querying graphrag locale executable workspace query m =
       (Raised UnicodeDecodeError,
        mk_machine l
          (console m
             ++ [Printed "[INFO] Running a query with GraphRAG...";
                 Spawned (query_cmd executable workspace query) false true]))) /\
   (graphrag true (tune_cmd executable data_ingestion.WORKSPACE) (cwd m)
      = (p, l) ->
    data_ingestion.tuning graphrag locale executable describe m =
    (Raised UnicodeDecodeError,
     mk_machine l
       (console m
          ++ [Printed "[INFO] Running auto prompt tuning for domain-adapted prompts...";
              Printed "[INFO] Running auto prompt tuning...";
              Spawned (tune_cmd executable data_ingestion.WORKSPACE) true true])))) /\
  (graphrag true (index_cmd executable data_ingestion.WORKSPACE) (cwd m) = (p, l) ->
   data_ingestion.indexing graphrag locale executable m =
   (Raised (CalledProcessError (index_cmd executable data_ingestion.WORKSPACE)
              (exit_status p) None None),
    mk_machine l
      (console m
         ++ [Printed "[INFO] Indexing input file with GraphRAG...";
             Spawned (index_cmd executable data_ingestion.WORKSPACE) true false]))) /\
  (List.length (existing_key_files (cwd m)) < 2 ->
   graphrag true (index_cmd executable test_integration.WORKSPACE) (cwd m) = (p, l) ->
   test_integration.indexing graphrag locale executable m =
   (Raised (CalledProcessError (index_cmd executable test_integration.WORKSPACE)
              (exit_status p) None None),
    mk_machine l
      (console m
         ++ [Printed "[INFO] Indexing input file with GraphRAG...";
             Spawned (index_cmd executable test_integration.WORKSPACE) true false]))) /\
  (path_exists (components (os_path_join data_ingestion.WORKSPACE ".env")) (cwd m)
   && path_exists (components (os_path_join data_ingestion.WORKSPACE "settings.yaml"))
                  (cwd m) = false ->
   graphrag false (init_cmd executable data_ingestion.WORKSPACE) (cwd m) = (p, l) ->
   data_ingestion.initializing graphrag locale executable m =
   (Raised (CalledProcessError (init_cmd executable data_ingestion.WORKSPACE)
              (exit_status p) None None),
    mk_machine l
      (console m
         ++ [Printed "[INFO] Initializing GraphRAG workspace...";
             Spawned (init_cmd executable data_ingestion.WORKSPACE) false false]))).
Proof.
  intros Hex Hrc.
  pose proof Hrc as Hrcb. apply Z.eqb_neq in Hrcb.
  destruct QUERY_nul as [Hq1 Hq2].
  split.
  { intros ws q out err Hws Hq Hd E. apply querying_fails; try assumption.
    now apply query_cmd_nul. }
  split.
  { intros m0 out err Hd Hpre E. rewrite test_integration_script_split.
    rewrite (bind_returned _ _ _ _ _ Hpre).
    apply querying_fails; try assumption. now apply query_cmd_nul. }
  split.
  { intros m0 out err Hd Hpre E. rewrite data_ingestion_script_split.
    rewrite (bind_returned _ _ _ _ _ Hpre).
    apply querying_fails; try assumption. now apply query_cmd_nul. }
  split.
  { intros out err Hd E. rewrite (tuning_runs _ _ _ _ _ Hex).
    rewrite E. cbn [fst snd]. rewrite Hd.
    unfold tuning_report, tuning_error_line. rewrite Hrcb.
    rewrite <- !app_assoc. reflexivity. }
  split.
  { intros Hd. split.
    - intros ws q Hws Hq E.
      apply (querying_undecodable graphrag locale executable ws q m p l);
        try assumption.
      now apply query_cmd_nul.
    - intros E. rewrite (tuning_runs _ _ _ _ _ Hex).
      rewrite E. cbn [fst snd]. now rewrite Hd. }
  split.
  { intros E. unfold data_ingestion.indexing.
    unfold bind at 1. unfold print at 1, modify at 1. unfold bind.
    fold (index_cmd executable data_ingestion.WORKSPACE).
    rewrite (subprocess_run_uncaptured graphrag locale _ true _ p l);
      [|now apply index_cmd_nul|exact E].
    rewrite Hrcb. simpl. rewrite <- app_assoc. reflexivity. }
  split.
  { intros Hlen E. rewrite (indexing_run _ _ _ _ Hlen). unfold bind.
    rewrite (subprocess_run_uncaptured graphrag locale _ true _ p l);
      [|now apply index_cmd_nul|exact E].
    rewrite Hrcb. simpl. rewrite <- app_assoc. reflexivity. }
  intros Hexi E. unfold data_ingestion.initializing.
  unfold bind at 1. unfold os_path_exists at 1, gets at 1.
  unfold bind at 1. unfold os_path_exists at 1, gets at 1.
  rewrite Hexi. cbn [negb].
  unfold bind at 1. unfold print at 1, modify at 1. unfold bind.
  fold (init_cmd executable data_ingestion.WORKSPACE).
  rewrite (subprocess_run_uncaptured graphrag locale _ false _ p l);
    [|now apply init_cmd_nul|exact E].
  rewrite Hrcb. simpl. rewrite <- app_assoc. reflexivity.
Qed.

(** A tool that fails the named subcommand and nothing else. *)
Definition failing_at (subcommand : string) : tool :=
  fun _ cmd l =>
    (mk_process (if String.eqb (nth 3 cmd "") subcommand then 1 else 0)
                "partial answer" "rate limit exceeded",
     l).

Lemma C6_witness :
  let m := mk_machine finished_workspace [] in
  let p := mk_process 1 "partial answer" "rate limit exceeded" in
  has_nul "python" = false /\
  exit_status p <> 0%Z /\
  querying (failing_at "query") plain "python" "./msgragtest" "What?" m =
  (Raised (CalledProcessError (query_cmd "python" "./msgragtest" "What?")
             1 (Some "partial answer") (Some "rate limit exceeded")),
   mk_machine finished_workspace
     (Printed "[INFO] Running a query with GraphRAG..."
      :: Spawned (query_cmd "python" "./msgragtest" "What?") false true
      :: failure_report "partial answer" "rate limit exceeded")).
Proof.
  intros m p.
  assert (Hex : has_nul "python" = false) by reflexivity.
  assert (Hrc : exit_status p <> 0%Z) by discriminate.
  split; [exact Hex|]. split; [exact Hrc|].
  exact (proj1 (C6_failing_subprocess (failing_at "query") plain "python"
                  (fun _ => "") m p finished_workspace Hex Hrc)
               "./msgragtest" "What?" "partial answer" "rate limit exceeded"
               eq_refl eq_refl eq_refl eq_refl).
Defined.

(** C6 as the specification states it fails: when the prompt tuning exits
    with status 1, [data_ingestion.py] prints the error and goes on; the
    index and the query commands are run and the script ends normally. *)
Lemma C6_counterexample :
  let r := data_ingestion.script (failing_at "prompt-tune") plain "python"
             (fun _ => "failed") (mk_machine finished_workspace []) in
  exit_status (fst (failing_at "prompt-tune" true
                      (tune_cmd "python" data_ingestion.WORKSPACE)
                      finished_workspace)) = 1%Z /\
  fst r = Returned tt /\
  In (Printed "[ERROR] stderr: rate limit exceeded") (console (snd r)) /\
  In (Spawned (index_cmd "python" data_ingestion.WORKSPACE) true false)
     (console (snd r)) /\
  In (Spawned (query_cmd "python" data_ingestion.WORKSPACE data_ingestion.QUERY)
              false true)
     (console (snd r)).
Proof.
  vm_compute. repeat split; auto 20.
Qed.

(** Captured output that is not text in the locale: [data_ingestion.py]
    stops at the prompt tuning, whose status was zero, and
    [test-integration.py] at the query. *)
Example scripts_with_output_that_does_not_decode :
  let a := data_ingestion.script latin_tool utf8_text "python"
             (fun _ => "") (mk_machine finished_workspace []) in
  let b := test_integration.script latin_tool utf8_text "python"
             (mk_machine finished_workspace []) in
  fst a = Raised UnicodeDecodeError /\
  last (console (snd a)) (Printed "")
  = Spawned (tune_cmd "python" data_ingestion.WORKSPACE) true true /\
  fst b = Raised UnicodeDecodeError /\
  last (console (snd b)) (Printed "")
  = Spawned (query_cmd "python" test_integration.WORKSPACE
                       test_integration.QUERY) false true.
Proof. vm_compute. repeat split. Qed.

(** * Further properties *)

(** ** A batch size that is not positive *)

Lemma negative_loop (B : Z) (gs : groups) (s : state) :
  (B < 0)%Z ->
  (forall k fs, In (k, fs) gs -> fs <> []) ->
  for_each gs (fun '(prefix, files) =>
    if (Z.of_nat (List.length files) <=? B)%Z then
      let subdir := resolve prefix in
      mkdir_exist_ok subdir ;;
      append_created subdir ;;
      for_each files (fun file => shutil_move file subdir)
    else
      parts <- chunks files B ;;
      for_each (enumerate 1 parts) (fun '(i, chunk) =>
        let subdir := resolve (prefix ++ "_part" ++ str i)%string in
        mkdir_exist_ok subdir ;;
        append_created subdir ;;
        for_each chunk (fun file => shutil_move file subdir))) s
  = (Returned tt, s).
Proof.
  intros HB. induction gs as [|(prefix, files) r IH]; intros Hne; [reflexivity|].
  cbn [for_each]. unfold bind at 1.
  destruct (Z.leb_spec (Z.of_nat (List.length files)) B) as [Hle|Hgt]; [lia|].
  unfold bind at 1.
  assert (E : chunks files B s = (Returned [], s)).
  { unfold chunks. destruct (Z.eqb_spec B 0); [lia|].
    destruct (Z.ltb_spec B 0); [reflexivity | lia]. }
  rewrite E. cbn [enumerate for_each]. unfold ret at 1.
  apply IH. intros k fs H. apply (Hne k). now right.
Qed.

Lemma zero_loop (g : string * list string) (gs : groups) (s : state) :
  snd g <> [] ->
  for_each (g :: gs) (fun '(prefix, files) =>
    if (Z.of_nat (List.length files) <=? 0)%Z then
      let subdir := resolve prefix in
      mkdir_exist_ok subdir ;;
      append_created subdir ;;
      for_each files (fun file => shutil_move file subdir)
    else
      parts <- chunks files 0 ;;
      for_each (enumerate 1 parts) (fun '(i, chunk) =>
        let subdir := resolve (prefix ++ "_part" ++ str i)%string in
        mkdir_exist_ok subdir ;;
        append_created subdir ;;
        for_each chunk (fun file => shutil_move file subdir))) s
  = (Raised ValueError, s).
Proof.
  destruct g as [prefix files]. simpl snd. intros Hne.
  cbn [for_each]. unfold bind at 1.
  destruct (Z.leb_spec (Z.of_nat (List.length files)) 0) as [Hle|Hgt].
  - destruct files; [congruence | simpl in Hle; lia].
  - reflexivity.
Qed.

Lemma group_by_prefix_nil files : group_by_prefix files = [] <-> files = [].
Proof.
  split.
  - intros E. pose proof (group_by_prefix_perm files) as H. rewrite E in H.
    simpl in H. now apply Permutation_nil in H.
  - now intros ->.
Qed.

(** X1. A batch size of zero makes the function raise [ValueError] as soon
    as one entry is enumerated ([range] refuses the step); a negative one
    makes it return the empty list.  Either way, and when nothing is
    enumerated, no directory is made and nothing is moved. *)
Theorem X1_batch_size_not_positive
        (input parent : listing) (name : string) (batch_size : Z) :
  (batch_size <= 0)%Z ->
  let r := split_input_by_source batch_size (start input parent name) in
  snd r = start input parent name /\
  ((batch_size < 0)%Z -> fst r = Returned []) /\
  (batch_size = 0%Z -> glob_txt input = [] -> fst r = Returned []) /\
  (batch_size = 0%Z -> glob_txt input <> [] -> fst r = Raised ValueError).
Proof.
  intros HB r. subst r. split; [now rewrite split_nonpositive|].
  assert (Hne : forall k fs,
             In (k, fs) (group_by_prefix (glob_txt input)) -> fs <> []).
  { intros k fs Hin. apply group_by_prefix_spec in Hin. tauto. }
  unfold split_input_by_source. rewrite bind_modify, bind_gets.
  cbn [inp with_created start].
  split; [|split].
  - intros Hneg. unfold bind at 1.
    rewrite negative_loop by assumption. reflexivity.
  - intros -> Hnone. rewrite Hnone. reflexivity.
  - intros -> Hsome.
    destruct (group_by_prefix (glob_txt input)) as [|g gs] eqn:E.
    + apply group_by_prefix_nil in E. contradiction.
    + unfold bind at 1. rewrite zero_loop; [reflexivity|].
      destruct g as [k fs]. apply (Hne k). now left.
Qed.

Lemma X1_witness :
  let input := [("a_1.txt", File "1")] in
  (0 <= 0)%Z /\
  split_input_by_source 0 (start input [] "input")
  = (Raised ValueError, start input [] "input").
Proof.
  intros input.
  assert (H : (0 <= 0)%Z) by lia.
  split; [exact H|].
  pose proof (X1_batch_size_not_positive input [] "input" 0 H) as (Hs & _ & _ & Hr).
  rewrite (surjective_pairing (split_input_by_source 0 (start input [] "input"))).
  rewrite Hs, Hr; [reflexivity | reflexivity | discriminate].
Defined.

(** ** How full the parts are *)

(** X2. When a group of [N] files is larger than the batch size [B], every
    part but the last holds exactly [B] files and the last holds the
    [N - (K-1) * B] that remain, at least one and at most [B]. *)
Theorem X2_part_sizes (batch_size : Z) (key : string) (files : list string) :
  (0 < batch_size)%Z ->
  (batch_size < Z.of_nat (List.length files))%Z ->
  let b := Z.to_nat batch_size in
  let N := List.length files in
  let parts := batches_of batch_size (key, files) in
  let K := List.length parts in
  2 <= K /\
  1 <= N - (K - 1) * b <= b /\
  forall i, i < K ->
    List.length (snd (nth i parts (EmptyString, []))) =
    if Nat.ltb (S i) K then b else N - (K - 1) * b.
Proof.
  intros HB Hgt b N parts K.
  destruct (batches_of_large batch_size key files HB Hgt) as (k & E & Hk & Hj).
  assert (EK : K = k) by (subst K parts; now rewrite E, length_map, length_seq).
  assert (Hb : 0 < b) by (subst b; lia).
  assert (Hup : N <= k * b).
  { assert (H : (Z.of_nat N <= Z.of_nat k * batch_size)%Z).
    { rewrite Hk. unfold ceil_div. subst N.
      pose proof (Z.div_mod (Z.of_nat (List.length files) + batch_size - 1)
                            batch_size) as Hdm.
      pose proof (Z.mod_pos_bound (Z.of_nat (List.length files) + batch_size - 1)
                                  batch_size) as Hmb.
      nia. }
    subst b. nia. }
  assert (Hk2 : 2 <= k).
  { destruct k as [|[|k]]; [| |lia]; subst b N; nia. }
  assert (Hlow : (k - 1) * b < N) by (apply (Hj (k - 1)); lia).
  rewrite EK. split; [exact Hk2|]. split; [nia|].
  intros i Hi. subst parts. rewrite E.
  rewrite (nth_indep _ (EmptyString, [])
             ((fun j => (part_name key (1 + j), slice files (j * b) (j * b + b))) 0))
    by (now rewrite length_map, length_seq).
  rewrite (map_nth (fun j => (part_name key (1 + j), slice files (j * b) (j * b + b)))).
  rewrite seq_nth by exact Hi. cbn [snd plus].
  rewrite slice_length. fold N.
  destruct (Nat.ltb_spec (S i) k) as [Hlt|Hge].
  - apply Nat.min_l. nia.
  - assert (i = k - 1) by lia. subst i. apply Nat.min_r. nia.
Qed.

Lemma X2_witness :
  (0 < 2)%Z /\
  (2 < Z.of_nat (List.length ["a_1.txt"; "a_2.txt"; "a_3.txt"; "a_4.txt"; "a_5.txt"]))%Z /\
  forall i, i < 3 ->
    List.length
      (snd (nth i (batches_of 2 ("a", ["a_1.txt"; "a_2.txt"; "a_3.txt";
                                        "a_4.txt"; "a_5.txt"]))
                (EmptyString, []))) =
    if Nat.ltb (S i) 3 then 2 else 1.
Proof.
  assert (H1 : (0 < 2)%Z) by lia.
  assert (H2 : (2 < Z.of_nat (List.length ["a_1.txt"; "a_2.txt"; "a_3.txt";
                                            "a_4.txt"; "a_5.txt"]))%Z)
    by (simpl; lia).
  split; [exact H1|]. split; [exact H2|].
  exact (proj2 (proj2 (X2_part_sizes 2 "a"
           ["a_1.txt"; "a_2.txt"; "a_3.txt"; "a_4.txt"; "a_5.txt"] H1 H2))).
Defined.

(** ** What leaves the input directory *)

Lemma plan_name_prefix B l name c :
  (0 < B)%Z -> In (name, c) (plan B l) ->
  exists f, In f (glob_txt l) /\ prefix_of f = prefix_of name.
Proof.
  intros HB Hin. unfold plan in Hin. apply in_flat_map in Hin.
  destruct Hin as ((key, files) & Hg & Hin).
  pose proof (group_key_no_underscore _ _ _ Hg) as Hkey.
  apply (batches_of_prefix B key files name c HB Hkey) in Hin.
  apply group_by_prefix_spec in Hg. destruct Hg as [-> Hne].
  destruct (with_prefix key (glob_txt l)) as [|f r] eqn:E; [congruence|].
  assert (Hf : In f (with_prefix key (glob_txt l))) by (rewrite E; now left).
  apply filter_In in Hf. destruct Hf as [Hf Hp]. apply String.eqb_eq in Hp.
  exists f. split; [exact Hf | congruence].
Qed.

Lemma resolve_Up name : resolve name = Up -> name = "..".
Proof.
  unfold resolve.
  destruct (String.eqb name ""); [discriminate|].
  destruct (String.eqb name "."); [discriminate|].
  destruct (String.eqb_spec name ".."); [auto | discriminate].
Qed.

(** X3. Unless the name of an enumerated entry begins with two dots and an
    underscore, or is two dots alone, (its key is then [..], which
    [input_path / key] takes for the parent directory), the function changes
    nothing outside the input directory, whatever the batch size and however
    the run ends. *)
Theorem X3_parent_untouched
        (input parent : listing) (name : string) (batch_size : Z) :
  (forall n, In n (glob_txt input) -> prefix_of n <> "..") ->
  let st' := snd (split_input_by_source batch_size (start input parent name)) in
  up st' = parent /\
  forall n, ~ In (Move n Up) (trace st').
Proof.
  intros Hkeys st'. subst st'.
  destruct (Z.ltb_spec 0 batch_size) as [HB|HB].
  - destruct (split_input_by_source batch_size (start input parent name))
      as [r st'] eqn:E.
    apply (split_sim kept kept_refl kept_trans kept_mkdir kept_move
                     kept_created) in E; [|exact HB].
    destruct E as (_ & tr & Et & Hb & [_ Hup] & _).
    simpl in Et, Hb, Hup. simpl snd. rewrite Et.
    assert (Hno : forall n, ~ In (Move n Up) tr).
    { intros n Hin. destruct Hb as [rest Hrest].
      assert (Hin' : In (Move n Up) (calls_of (plan batch_size input)))
        by (rewrite Hrest; apply in_or_app; now left).
      apply calls_of_moves in Hin'. destruct Hin' as ((nm, c) & Hp & _ & Hd).
      simpl in Hd. symmetry in Hd. apply resolve_Up in Hd. subst nm.
      destruct (plan_name_prefix _ _ _ _ HB Hp) as (f & Hf & Hpre).
      apply (Hkeys f Hf). rewrite Hpre. reflexivity. }
    split; [|exact Hno].
    apply Hup. unfold received.
    destruct (filter (is_move_to Up) tr) as [|c r'] eqn:Ef; [reflexivity|].
    exfalso.
    assert (Hc : In c (filter (is_move_to Up) tr)) by (rewrite Ef; now left).
    apply filter_In in Hc. destruct Hc as [Hc Hm].
    destruct c as [d|n [| |s]]; try discriminate. exact (Hno n Hc).
  - rewrite split_nonpositive by exact HB. simpl. split; [reflexivity|].
    intros n [].
Qed.

Lemma X3_witness :
  let input := [("a_1.txt", File "1"); ("_x.txt", File "2")] in
  (forall n, In n (glob_txt input) -> prefix_of n <> "..") /\
  up (snd (split_input_by_source 7500
             (start input [("other", Dir [])] "input")))
  = [("other", Dir [])].
Proof.
  intros input.
  assert (H : forall n, In n (glob_txt input) -> prefix_of n <> "..").
  { intros n [<-|[<-|[]]]; discriminate. }
  split; [exact H|].
  exact (proj1 (X3_parent_untouched input [("other", Dir [])] "input" 7500 H)).
Defined.

(** ** Running the function again *)

Lemma filter_none {A} (f : A -> bool) (l : list A) :
  (forall a, In a l -> f a = false) -> filter f l = [].
Proof.
  induction l as [|a l IH]; simpl; intros H; [reflexivity|].
  rewrite (H a (or_introl eq_refl)). apply IH. intros b Hb. apply H. now right.
Qed.

Lemma split_nothing_found (B : Z) (st : state) :
  glob_txt (inp st) = [] ->
  split_input_by_source B st = (Returned [], with_created [] st).
Proof.
  intros Hg. unfold split_input_by_source. rewrite bind_modify.
  unfold bind at 1. unfold gets at 1. cbn [inp with_created]. rewrite Hg.
  reflexivity.
Qed.

(** X4. After a run that met no collision (the conditions of C1) and whose
    destination names do not themselves end in [.txt], no entry at the top
    level of the input directory ends in [.txt]: calling the function again,
    with any batch size, creates nothing, moves nothing and returns the empty
    list. *)
Theorem X4_second_run_moves_nothing
        (input parent : listing) (name : string) (batch_size : Z) :
  (0 < batch_size)%Z ->
  NoDup (names input) ->
  (forall b, In b (plan batch_size input) ->
             free_for input b /\ endswith ".txt" (fst b) = false) ->
  exists ds st',
    split_input_by_source batch_size (start input parent name)
      = (Returned ds, st') /\
    glob_txt (inp st') = [] /\
    forall again,
      split_input_by_source again (start (inp st') (up st') name)
      = (Returned [], start (inp st') (up st') name).
Proof.
  intros HB Hnd Hfree.
  pose proof (all_files_plan batch_size input HB) as Hperm.
  assert (Hall : NoDup (all_files (plan batch_size input))).
  { apply (Permutation_NoDup (Permutation_sym Hperm)).
    now apply glob_txt_NoDup. }
  assert (Hglob : forall f, In f (all_files (plan batch_size input)) <->
                            In f (glob_txt input)).
  { intros f. split; apply Permutation_in;
      [exact Hperm | exact (Permutation_sym Hperm)]. }
  assert (Hexists : forall f, In f (glob_txt input) -> lookup f input <> None).
  { intros f Hf Hl. apply lookup_None in Hl. apply Hl.
    apply glob_txt_spec in Hf. tauto. }
  destruct (run_batches_ok (plan batch_size input)
                           (with_created [] (start input parent name)))
    as (st' & Hrun & _ & _ & _ & Hframe & Hplaced).
  { exact Hnd. }
  { now apply plan_NoDup. }
  { exact Hall. }
  { intros b Hb. destruct (Hfree b Hb) as ((Hord & Hroom) & Hend).
    split; [exact Hord|]. split; [|split].
    - intros Hin. apply Hglob in Hin.
      unfold glob_txt in Hin. apply filter_In in Hin. destruct Hin as [_ Hm].
      congruence.
    - destruct Hroom as [Hn|(L & HL & _ & Hf)]; [now left|].
      right. exists L. now split.
    - intros f Hf. apply Hexists. apply Hglob. unfold all_files.
      apply in_concat. exists (snd b). split; [|exact Hf].
      apply in_map_iff. now exists b. }
  simpl in Hframe.
  assert (Hnone : glob_txt (inp st') = []).
  { unfold glob_txt. apply filter_none. intros k Hk.
    destruct (in_dec string_dec k (all_files (plan batch_size input)))
      as [Hfile|Hfile].
    - exfalso. unfold all_files in Hfile. apply in_concat in Hfile.
      destruct Hfile as (c & Hc & Hkc). apply in_map_iff in Hc.
      destruct Hc as (b & <- & Hb).
      destruct (Hplaced b k Hb Hkc) as [Hgone _].
      apply lookup_None in Hgone. exact (Hgone Hk).
    - destruct (in_dec string_dec k (map fst (plan batch_size input)))
        as [Hdest|Hdest].
      + apply in_map_iff in Hdest. destruct Hdest as (b & <- & Hb).
        exact (proj2 (Hfree b Hb)).
      + destruct (endswith ".txt" k) eqn:E; [|reflexivity]. exfalso.
        apply Hfile. apply Hglob. unfold glob_txt. apply filter_In.
        split; [|exact E].
        assert (Hl : lookup k input <> None).
        { rewrite <- (Hframe k Hfile Hdest). intros Hl.
          apply lookup_None in Hl. exact (Hl Hk). }
        destruct (in_dec string_dec k (names input)) as [Hin|Hin];
          [exact Hin|]. exfalso. apply Hl. now apply lookup_None. }
  exists (created_dirs st'), st'. split.
  { rewrite split_input_by_source_plan by exact HB.
    rewrite bind_modify.
    exact (bind_returned _ (fun _ => gets created_dirs) _ _ _ Hrun). }
  split; [exact Hnone|].
  intros again. now rewrite split_nothing_found.
Qed.

Lemma X4_witness :
  let input := [("a_1.txt", File "1"); ("a_2.txt", File "2");
                ("b_1.txt", File "3"); ("notes.md", File "4")] in
  (0 < 1)%Z /\
  NoDup (names input) /\
  (forall b, In b (plan 1 input) ->
             free_for input b /\ endswith ".txt" (fst b) = false) /\
  exists ds st',
    split_input_by_source 1 (start input [] "input") = (Returned ds, st') /\
    glob_txt (inp st') = [] /\
    forall again,
      split_input_by_source again (start (inp st') (up st') "input")
      = (Returned [], start (inp st') (up st') "input").
Proof.
  intros input.
  assert (HB : (0 < 1)%Z) by lia.
  assert (Hnd : NoDup (names input)).
  { repeat constructor; simpl; intuition discriminate. }
  assert (Hfree : forall b, In b (plan 1 input) ->
                            free_for input b /\ endswith ".txt" (fst b) = false).
  { intros b Hb. vm_compute in Hb.
    destruct Hb as [<-|[<-|[<-|[]]]];
      (split; [split; [reflexivity | left; reflexivity] | reflexivity]). }
  split; [exact HB|]. split; [exact Hnd|]. split; [exact Hfree|].
  exact (X4_second_run_moves_nothing input [] "input" 1 HB Hnd Hfree).
Defined.

(** Why the destination names must not end in [.txt]: the directory the
    first run makes for [x.txt_1.txt] is named [x.txt], the second run
    enumerates it and stops when it moves it into itself. *)
Example second_run_finds_its_own_directory :
  let input := [("x.txt_1.txt", File "text")] in
  let st' := snd (split_input_by_source 7500 (start input [] "input")) in
  inp st' = [("x.txt", Dir [("x.txt_1.txt", File "text")])] /\
  fst (split_input_by_source 7500 (start (inp st') (up st') "input"))
  = Raised ShutilError.
Proof. split; reflexivity. Qed.

(** ** The order of the groups *)

(** The distinct elements of a list, each at the place where it comes
    first. *)
Fixpoint first_occurrences (l : list string) : list string :=
  match l with
  | [] => []
  | k :: r => k :: filter (fun k' => negb (String.eqb k' k)) (first_occurrences r)
  end.

Definition unseen (seen : list string) (k : string) : bool :=
  negb (existsb (String.eqb k) seen).

Lemma unseen_In seen k : unseen seen k = false <-> In k seen.
Proof.
  unfold unseen. rewrite negb_false_iff, existsb_exists. split.
  - intros (x & Hx & E). apply String.eqb_eq in E. now subst.
  - intros H. exists k. split; [exact H | apply String.eqb_refl].
Qed.

Lemma filter_filter {A} (f g : A -> bool) (l : list A) :
  filter f (filter g l) = filter (fun x => g x && f x) l.
Proof.
  induction l as [|a l IH]; simpl; [reflexivity|].
  destruct (g a); simpl; [destruct (f a)|]; now rewrite IH.
Qed.

Lemma contains_unseen p d : contains p d = negb (unseen (keys d) p).
Proof.
  unfold unseen. rewrite negb_involutive.
  destruct (contains p d) eqn:E; symmetry.
  - apply contains_keys in E. apply existsb_exists. exists p.
    split; [exact E | apply String.eqb_refl].
  - destruct (existsb (String.eqb p) (keys d)) eqn:E'; [|reflexivity].
    apply existsb_exists in E'. destruct E' as (x & Hx & Hp).
    apply String.eqb_eq in Hp. subst x. apply contains_keys in Hx. congruence.
Qed.

Lemma fold_keys_order files : forall d,
  keys (fold_left group_step files d) =
  keys d ++ filter (unseen (keys d)) (first_occurrences (map prefix_of files)).
Proof.
  induction files as [|f r IH]; intros d; simpl.
  - now rewrite app_nil_r.
  - rewrite IH, group_step_keys, contains_unseen.
    destruct (unseen (keys d) (prefix_of f)) eqn:E; simpl.
    + rewrite <- app_assoc. simpl. f_equal. f_equal.
      rewrite filter_filter. apply filter_ext. intros k.
      unfold unseen. rewrite existsb_app. simpl. rewrite orb_false_r.
      rewrite negb_orb. apply andb_comm.
    + f_equal. rewrite filter_filter. apply filter_ext_in. intros k _.
      destruct (String.eqb_spec k (prefix_of f)) as [->|_]; simpl;
        [now rewrite E | reflexivity].
Qed.

Lemma groups_by_keys (d : groups) :
  NoDup (keys d) -> d = map (fun k => (k, files_of k d)) (keys d).
Proof.
  induction d as [|(k, fs) r IH]; simpl; intros Hnd; [reflexivity|].
  inversion Hnd as [|? ? Hni Hnd']; subst.
  rewrite String.eqb_refl. f_equal.
  rewrite (IH Hnd') at 1. apply map_ext_in. intros k' Hk'.
  rewrite (neq_eqb k k'); [reflexivity|]. intros ->. exact (Hni Hk').
Qed.

(** X5. The grouping loop in full: the dictionary has one entry for each
    distinct prefix, in the order in which the prefixes first occur among the
    enumerated names, and the entry of a prefix lists the names that have it
    in the order they were enumerated. *)
Theorem X5_groups_in_order_of_first_occurrence (files : list string) :
  group_by_prefix files =
  map (fun k => (k, with_prefix k files))
      (first_occurrences (map prefix_of files)).
Proof.
  rewrite (groups_by_keys (group_by_prefix files))
    by apply group_by_prefix_NoDup.
  unfold group_by_prefix at 2. rewrite fold_keys_order. simpl.
  rewrite (filter_ext (unseen []) (fun _ => true)) by reflexivity.
  rewrite forallb_filter_id by (apply forallb_forall; reflexivity).
  apply map_ext. intros k. f_equal.
  unfold group_by_prefix. now rewrite files_of_fold.
Qed.

(** ** The directory after a run into new subdirectories *)

(** The entries of [l] other than those named in [files]. *)
Definition without (files : list string) (l : listing) : listing :=
  filter (fun e => negb (existsb (String.eqb (fst e)) files)) l.

(** The entries of [l] named in [files], in the order of [files]. *)
Definition picked (files : list string) (l : listing) : listing :=
  flat_map (fun f => match lookup f l with
                     | Some x => [(f, x)]
                     | None => []
                     end) files.

(** The subdirectory a batch makes. *)
Definition subdirectory_of (l : listing) (b : batch) : string * node :=
  (fst b, Dir (picked (snd b) l)).

Lemma unlink_filter n l :
  unlink n l = filter (fun e => negb (String.eqb (fst e) n)) l.
Proof.
  induction l as [|(k, x) r IH]; simpl; [reflexivity|].
  destruct (String.eqb k n); simpl; now rewrite IH.
Qed.

Lemma unlink_app n l1 l2 : unlink n (l1 ++ l2) = unlink n l1 ++ unlink n l2.
Proof. rewrite !unlink_filter. apply filter_app. Qed.

Lemma replace_last s x y l :
  ~ In s (names l) -> replace s y (l ++ [(s, x)]) = l ++ [(s, y)].
Proof.
  induction l as [|(k, z) r IH]; simpl; intros Hni.
  - now rewrite String.eqb_refl.
  - rewrite (neq_eqb k s) by tauto. rewrite IH by tauto. reflexivity.
Qed.

Lemma existsb_eqb_In k files :
  existsb (String.eqb k) files = true <-> In k files.
Proof.
  rewrite existsb_exists. split.
  - intros (x & Hx & E). apply String.eqb_eq in E. now subst.
  - intros H. exists k. split; [exact H | apply String.eqb_refl].
Qed.

Lemma existsb_eqb_not_In k files :
  existsb (String.eqb k) files = false <-> ~ In k files.
Proof.
  rewrite <- existsb_eqb_In. now destruct (existsb (String.eqb k) files).
Qed.

Lemma without_unlink f fs l : without fs (unlink f l) = without (f :: fs) l.
Proof.
  unfold without. rewrite unlink_filter, filter_filter. apply filter_ext.
  intros e. simpl. rewrite negb_orb. reflexivity.
Qed.

Lemma without_without fs gs l : without gs (without fs l) = without (fs ++ gs) l.
Proof.
  unfold without. rewrite filter_filter. apply filter_ext.
  intros e. now rewrite existsb_app, negb_orb.
Qed.

Lemma without_nil l : without [] l = l.
Proof.
  unfold without. apply forallb_filter_id. apply forallb_forall. reflexivity.
Qed.

Lemma lookup_without k fs l :
  lookup k (without fs l) =
  if existsb (String.eqb k) fs then None else lookup k l.
Proof.
  unfold without. induction l as [|(k', x) r IH]; simpl.
  - now destruct (existsb (String.eqb k) fs).
  - destruct (String.eqb_spec k' k) as [->|Hne].
    + destruct (existsb (String.eqb k) fs) eqn:E; simpl.
      * rewrite IH. reflexivity.
      * now rewrite String.eqb_refl.
    + destruct (existsb (String.eqb k') fs); simpl; [exact IH|].
      rewrite (neq_eqb k' k) by exact Hne. exact IH.
Qed.

Lemma names_without fs l :
  names (without fs l) =
  filter (fun k => negb (existsb (String.eqb k) fs)) (names l).
Proof.
  unfold without, names. induction l as [|(k, x) r IH]; simpl; [reflexivity|].
  destruct (existsb (String.eqb k) fs); simpl; now rewrite IH.
Qed.

Lemma picked_ext fs l l' :
  (forall f, In f fs -> lookup f l = lookup f l') -> picked fs l = picked fs l'.
Proof.
  unfold picked. induction fs as [|f fs IH]; simpl; intros H; [reflexivity|].
  rewrite (H f (or_introl eq_refl)). f_equal. apply IH.
  intros g Hg. apply H. now right.
Qed.

Lemma names_picked fs l :
  (forall f, In f fs -> In f (names l)) -> names (picked fs l) = fs.
Proof.
  unfold picked, names. induction fs as [|f fs IH]; simpl; intros H;
    [reflexivity|].
  rewrite map_app. rewrite IH by (intros g Hg; apply H; now right).
  destruct (lookup f l) as [x|] eqn:E; [reflexivity|].
  apply lookup_None in E. exfalso. apply E. apply H. now left.
Qed.

Lemma lookup_last k s x l :
  lookup k (l ++ [(s, x)]) =
  match lookup k l with
  | Some y => Some y
  | None => if String.eqb s k then Some x else None
  end.
Proof. exact (lookup_link k s x l). Qed.

(** Moving the files of a batch, one after the other, into the directory
    [s] that comes last and has none of their names. *)
Lemma moves_fresh s files : forall l0 L u nm cs tr,
  ~ In s (names l0) -> NoDup files ->
  (forall f, In f files -> In f (names l0) /\ lookup f L = None) ->
  for_each files (fun f => shutil_move f (Sub s))
           (mk_state (l0 ++ [(s, Dir L)]) u nm cs tr) =
  (Returned tt,
   mk_state (without files l0 ++ [(s, Dir (L ++ picked files l0))]) u nm cs
            (tr ++ map (fun f => Move f (Sub s)) files)).
Proof.
  induction files as [|f fs IH]; intros l0 L u nm cs tr Hs Hnd Hfiles.
  - simpl. now rewrite without_nil, !app_nil_r.
  - inversion Hnd as [|? ? Hf Hnd']; subst.
    destruct (Hfiles f (or_introl eq_refl)) as [Hin HL].
    destruct (lookup f l0) as [x|] eqn:Hx;
      [|apply lookup_None in Hx; contradiction].
    assert (Hsf : s <> f) by (intros ->; contradiction).
    cbn [for_each]. unfold bind.
    rewrite (move_ok f s x L).
    + unfold logged, with_inp.
      cbn [inp up input_name created_dirs trace].
      rewrite unlink_app. cbn [unlink].
      rewrite (neq_eqb s f) by exact Hsf.
      rewrite replace_last
        by (rewrite names_unlink; intros H; apply filter_In in H; tauto).
      unfold link. rewrite IH.
      * rewrite without_unlink.
        assert (Hp : picked (f :: fs) l0 = (f, x) :: picked fs (unlink f l0)).
        { unfold picked at 1. cbn [flat_map]. rewrite Hx. cbn [app].
          f_equal. fold (picked fs l0). apply picked_ext. intros g Hg.
          rewrite lookup_unlink. rewrite (neq_eqb f g); [reflexivity|].
          intros ->. contradiction. }
        rewrite Hp. cbn [map]. rewrite <- !app_assoc. reflexivity.
      * rewrite names_unlink. intros H. apply filter_In in H. tauto.
      * exact Hnd'.
      * intros g Hg. destruct (Hfiles g (or_intror Hg)) as [Hgin HgL].
        assert (Hgf : g <> f) by (intros ->; contradiction).
        split.
        -- rewrite names_unlink. apply filter_In. split; [exact Hgin|].
           now rewrite (neq_eqb g f).
        -- rewrite lookup_last, HgL. now rewrite (neq_eqb f g) by congruence.
    + cbn [inp]. rewrite lookup_last, Hx. reflexivity.
    + exact Hsf.
    + cbn [inp]. rewrite lookup_last.
      apply lookup_None in Hs. rewrite Hs. now rewrite String.eqb_refl.
    + exact HL.
Qed.

Lemma run_batch_fresh (b : string * list string) l u nm cs tr :
  ordinary (fst b) -> lookup (fst b) l = None -> NoDup (snd b) ->
  (forall f, In f (snd b) -> In f (names l)) ->
  run_batch b (mk_state l u nm cs tr) =
  (Returned tt,
   mk_state (without (snd b) l ++ [subdirectory_of l b]) u nm
            (cs ++ [Sub (fst b)]) (tr ++ calls_of_batch b)).
Proof.
  destruct b as [s files]. cbn [fst snd]. intros Hord Hnone Hnd Hfiles.
  unfold run_batch, append_created, calls_of_batch, subdirectory_of.
  cbn [fst snd]. rewrite Hord.
  unfold bind at 1. unfold mkdir_exist_ok. cbn [inp]. rewrite Hnone.
  rewrite bind_modify. unfold link, logged, with_inp, with_created.
  cbn [inp up input_name created_dirs trace].
  rewrite moves_fresh.
  - cbn [app]. rewrite <- app_assoc. reflexivity.
  - now apply lookup_None.
  - exact Hnd.
  - intros f Hf. split; [now apply Hfiles | reflexivity].
Qed.

Lemma run_batches_fresh (bs : list (string * list string)) : forall l u nm cs tr,
  NoDup (map fst bs) -> NoDup (all_files bs) ->
  (forall b, In b bs ->
     ordinary (fst b) /\ lookup (fst b) l = None /\
     forall f, In f (snd b) -> In f (names l)) ->
  for_each bs run_batch (mk_state l u nm cs tr) =
  (Returned tt,
   mk_state (without (all_files bs) l ++ map (subdirectory_of l) bs) u nm
            (cs ++ map (fun b => Sub (fst b)) bs) (tr ++ calls_of bs)).
Proof.
  induction bs as [|b bs IH]; intros l u nm cs tr Hnames Hfiles Hall.
  - simpl. unfold all_files. simpl. now rewrite without_nil, !app_nil_r.
  - inversion Hnames as [|? ? Hb Hnames']; subst.
    unfold all_files in Hfiles. cbn [map List.concat] in Hfiles.
    assert (Hsplit : forall f, In f (snd b) -> ~ In f (all_files bs))
      by (exact (NoDup_app_disjoint _ _ Hfiles)).
    destruct (Hall b (or_introl eq_refl)) as (Hord & Hnone & Hin).
    assert (Hmem : forall b' f, In b' bs -> In f (snd b') -> In f (all_files bs)).
    { intros b' f Hb' Hf. unfold all_files. apply in_concat.
      exists (snd b'). split; [|exact Hf]. apply in_map_iff. now exists b'. }
    assert (Hkeep : forall b' f, In b' bs -> In f (snd b') ->
              lookup f (without (snd b) l ++ [subdirectory_of l b]) = lookup f l).
    { intros b' f Hb' Hf. unfold subdirectory_of.
      rewrite lookup_last, lookup_without.
      assert (Hfb : ~ In f (snd b)).
      { intros H. exact (Hsplit f H (Hmem b' f Hb' Hf)). }
      apply existsb_eqb_not_In in Hfb. rewrite Hfb.
      destruct (Hall b' (or_intror Hb')) as (_ & _ & Hin').
      specialize (Hin' f Hf).
      destruct (lookup f l) eqn:E; [reflexivity|].
      apply lookup_None in E. contradiction. }
    cbn [for_each]. unfold bind.
    rewrite run_batch_fresh; try assumption;
      [|now apply NoDup_app_remove_r in Hfiles].
    rewrite IH.
    + f_equal. f_equal.
      * assert (Hlast : without (all_files bs) [subdirectory_of l b]
                          = [subdirectory_of l b]).
        { unfold without, subdirectory_of. cbn [filter fst].
          rewrite (proj2 (existsb_eqb_not_In (fst b) (all_files bs)));
            [reflexivity|].
          intros H. unfold all_files in H. apply in_concat in H.
          destruct H as (c & Hc & Hfc). apply in_map_iff in Hc.
          destruct Hc as (b' & <- & Hb').
          destruct (Hall b' (or_intror Hb')) as (_ & _ & Hin').
          apply lookup_None in Hnone. exact (Hnone (Hin' _ Hfc)). }
        unfold without at 1. rewrite filter_app.
        fold (without (all_files bs) (without (snd b) l)).
        fold (without (all_files bs) [subdirectory_of l b]).
        rewrite Hlast, without_without.
        change (all_files (b :: bs)) with (snd b ++ all_files bs).
        cbn [map]. rewrite <- app_assoc. f_equal.
        cbn [app]. f_equal. apply map_ext_in. intros b' Hb'.
        unfold subdirectory_of. f_equal. f_equal. apply picked_ext.
        intros f Hf. exact (Hkeep b' f Hb' Hf).
      * cbn [map]. rewrite <- app_assoc. reflexivity.
      * change (calls_of (b :: bs)) with (calls_of_batch b ++ calls_of bs).
        now rewrite <- app_assoc.
    + exact Hnames'.
    + now apply NoDup_app_remove_l in Hfiles.
    + intros b' Hb'. destruct (Hall b' (or_intror Hb')) as (Hord' & Hnone' & Hin').
      split; [exact Hord'|]. split.
      * unfold subdirectory_of. rewrite lookup_last, lookup_without, Hnone'.
        destruct (existsb (String.eqb (fst b')) (snd b));
          (rewrite (neq_eqb (fst b) (fst b')); [reflexivity|]);
          intros E; apply Hb; rewrite E; apply in_map_iff; now exists b'.
      * intros f Hf. apply (lookup_Some_In f (match lookup f l with
                                              | Some x => x | None => Dir [] end)).
        rewrite (Hkeep b' f Hb' Hf).
        destruct (lookup f l) eqn:E; [reflexivity|].
        apply lookup_None in E. exfalso. apply E. now apply Hin'.
Qed.

Lemma in_all_files (bs : list (string * list string)) b f :
  In b bs -> In f (snd b) -> In f (all_files bs).
Proof.
  intros Hb Hf. unfold all_files. apply in_concat.
  exists (snd b). split; [|exact Hf]. apply in_map_iff. now exists b.
Qed.

Lemma all_files_glob B l f :
  (0 < B)%Z -> In f (all_files (plan B l)) <-> In f (glob_txt l).
Proof.
  intros HB. pose proof (all_files_plan B l HB) as Hperm.
  split; apply Permutation_in; [exact Hperm | exact (Permutation_sym Hperm)].
Qed.

(** What is left at the top level is what was not enumerated. *)
Lemma without_enumerated B l :
  (0 < B)%Z ->
  without (all_files (plan B l)) l =
  filter (fun e => negb (endswith ".txt" (fst e))) l.
Proof.
  intros HB. unfold without. apply filter_ext_in. intros [k x] Hin.
  cbn [fst]. f_equal.
  destruct (endswith ".txt" k) eqn:E.
  - apply existsb_eqb_In. apply all_files_glob; [exact HB|].
    unfold glob_txt. apply filter_In. split; [|exact E].
    apply in_map_iff. now exists (k, x).
  - apply existsb_eqb_not_In. intros H. apply all_files_glob in H; [|exact HB].
    unfold glob_txt in H. apply filter_In in H. destruct H as [_ H]. congruence.
Qed.

(** The run when every destination is new, as one equation. *)
Lemma split_fresh (input parent : listing) (name : string) (B : Z) :
  (0 < B)%Z ->
  NoDup (names input) ->
  (forall b, In b (plan B input) ->
             ordinary (fst b) /\ lookup (fst b) input = None) ->
  split_input_by_source B (start input parent name) =
  (Returned (map (fun b => Sub (fst b)) (plan B input)),
   mk_state (without (all_files (plan B input)) input
               ++ map (subdirectory_of input) (plan B input))
            parent name
            (map (fun b => Sub (fst b)) (plan B input))
            (calls_of (plan B input))).
Proof.
  intros HB Hnd Hnew.
  rewrite split_input_by_source_plan by exact HB.
  rewrite bind_modify. unfold start, with_created.
  cbn [inp up input_name created_dirs trace].
  unfold bind. rewrite run_batches_fresh.
  - reflexivity.
  - now apply plan_NoDup.
  - apply (Permutation_NoDup (Permutation_sym (all_files_plan B input HB))).
    now apply glob_txt_NoDup.
  - intros b Hb. destruct (Hnew b Hb) as [Hord Hnone].
    split; [exact Hord|]. split; [exact Hnone|].
    intros f Hf.
    assert (Hg : In f (glob_txt input))
      by (apply (all_files_glob B); [exact HB | exact (in_all_files _ b f Hb Hf)]).
    unfold glob_txt in Hg. apply filter_In in Hg. tauto.
Qed.

Lemma lookup_app k l1 l2 :
  lookup k (l1 ++ l2) =
  match lookup k l1 with
  | Some x => Some x
  | None => lookup k l2
  end.
Proof.
  induction l1 as [|(k', x) r IH]; simpl; [reflexivity|].
  destruct (String.eqb k' k); [reflexivity | exact IH].
Qed.

Lemma lookup_subdirectory l (bs : list (string * list string)) b :
  NoDup (map fst bs) -> In b bs ->
  lookup (fst b) (map (subdirectory_of l) bs) = Some (Dir (picked (snd b) l)).
Proof.
  induction bs as [|b0 bs IH]; simpl; intros Hnd Hin; [destruct Hin|].
  inversion Hnd as [|? ? Hni Hnd']; subst.
  destruct Hin as [->|Hin].
  - now rewrite String.eqb_refl.
  - rewrite (neq_eqb (fst b0) (fst b)); [now apply IH|].
    intros E. apply Hni. rewrite E. apply in_map_iff. now exists b.
Qed.

Lemma NoDup_concat_in {A} (ls : list (list A)) l :
  NoDup (List.concat ls) -> In l ls -> NoDup l.
Proof.
  induction ls as [|l0 ls IH]; simpl; intros Hnd Hin; [destruct Hin|].
  destruct Hin as [->|Hin].
  - now apply NoDup_app_remove_r in Hnd.
  - apply IH; [|exact Hin]. now apply NoDup_app_remove_l in Hnd.
Qed.

Lemma lookup_picked fs l f :
  In f fs -> In f (names l) -> lookup f (picked fs l) = lookup f l.
Proof.
  intros Hf Hin. unfold picked.
  induction fs as [|g gs IH]; [destruct Hf|].
  cbn [flat_map].
  destruct (String.eqb_spec g f) as [->|Hne].
  - destruct (lookup f l) as [x|] eqn:Hx.
    + cbn [app lookup]. now rewrite String.eqb_refl.
    + apply lookup_None in Hx. contradiction.
  - destruct Hf as [->|Hf]; [contradiction|].
    destruct (lookup g l) as [x|]; [|now apply IH].
    cbn [app lookup]. rewrite (neq_eqb g f) by exact Hne. now apply IH.
Qed.

Lemma names_subdirectories l (bs : list (string * list string)) :
  names (map (subdirectory_of l) bs) = map fst bs.
Proof. unfold names. rewrite map_map. reflexivity. Qed.

(** X6. When the batch size is positive, the names of the input directory
    are distinct and every destination name is an ordinary entry name that
    the input directory does not have yet, the run is known in full.  The
    function returns the destinations in the order of the batches, and the
    calls it has made are, batch after batch, one [mkdir] and the moves of
    the batch.  Nothing outside the input directory changes.  In the input
    directory, whatever the order of its entries: the names are distinct and
    are the old names that do not end in [.txt] and the destination names;
    an entry that is not a destination is there as it was unless its name
    ends in [.txt], and is gone if it does; each destination is a directory
    whose entries are those of its batch and no other, as they were. *)
Theorem X6_run_into_new_subdirectories
        (input parent : listing) (name : string) (batch_size : Z) :
  (0 < batch_size)%Z ->
  NoDup (names input) ->
  (forall b, In b (plan batch_size input) ->
             ordinary (fst b) /\ lookup (fst b) input = None) ->
  exists st',
    split_input_by_source batch_size (start input parent name) =
    (Returned (map (fun b => Sub (fst b)) (plan batch_size input)), st') /\
    up st' = parent /\
    trace st' = calls_of (plan batch_size input) /\
    NoDup (names (inp st')) /\
    Permutation (names (inp st'))
                (filter (fun k => negb (endswith ".txt" k)) (names input)
                   ++ map fst (plan batch_size input)) /\
    (forall k, ~ In k (map fst (plan batch_size input)) ->
               lookup k (inp st') =
               if endswith ".txt" k then None else lookup k input) /\
    (forall b, In b (plan batch_size input) ->
       exists L,
         lookup (fst b) (inp st') = Some (Dir L) /\
         NoDup (names L) /\
         Permutation (names L) (snd b) /\
         forall f, In f (snd b) -> lookup f L = lookup f input).
Proof.
  intros HB Hnd Hnew.
  assert (Hall : NoDup (all_files (plan batch_size input))).
  { apply (Permutation_NoDup
             (Permutation_sym (all_files_plan batch_size input HB))).
    now apply glob_txt_NoDup. }
  assert (Hin : forall b f, In b (plan batch_size input) -> In f (snd b) ->
                            In f (names input)).
  { intros b f Hb Hf.
    assert (Hg : In f (glob_txt input))
      by (apply (all_files_glob batch_size);
          [exact HB | exact (in_all_files _ b f Hb Hf)]).
    unfold glob_txt in Hg. apply filter_In in Hg. tauto. }
  assert (Hkeep : names (without (all_files (plan batch_size input)) input)
                  = filter (fun k => negb (endswith ".txt" k)) (names input)).
  { rewrite names_without. apply filter_ext_in. intros k Hk. f_equal.
    destruct (endswith ".txt" k) eqn:E.
    - apply existsb_eqb_In. apply all_files_glob; [exact HB|].
      unfold glob_txt. apply filter_In. now split.
    - apply existsb_eqb_not_In. intros H.
      apply all_files_glob in H; [|exact HB].
      unfold glob_txt in H. apply filter_In in H. destruct H as [_ H].
      congruence. }
  eexists. split; [now apply split_fresh|].
  cbn [inp up trace].
  split; [reflexivity|]. split; [reflexivity|].
  assert (Hnames :
    names (without (all_files (plan batch_size input)) input
             ++ map (subdirectory_of input) (plan batch_size input))
    = filter (fun k => negb (endswith ".txt" k)) (names input)
        ++ map fst (plan batch_size input)).
  { unfold names at 1. rewrite map_app.
    fold (names (without (all_files (plan batch_size input)) input)).
    fold (names (map (subdirectory_of input) (plan batch_size input))).
    now rewrite Hkeep, names_subdirectories. }
  split.
  { rewrite Hnames. apply NoDup_app.
    - now apply NoDup_filter.
    - now apply plan_NoDup.
    - intros k Hk Hd. apply filter_In in Hk. destruct Hk as [Hk _].
      apply in_map_iff in Hd. destruct Hd as (b & <- & Hb).
      destruct (Hnew b Hb) as [_ Hnone]. apply lookup_None in Hnone.
      contradiction. }
  split; [now rewrite Hnames|]. split.
  - intros k Hk. rewrite lookup_app, lookup_without.
    assert (Hrest : lookup k (map (subdirectory_of input)
                                  (plan batch_size input)) = None).
    { apply lookup_None. now rewrite names_subdirectories. }
    destruct (endswith ".txt" k) eqn:E.
    + destruct (existsb (String.eqb k) (all_files (plan batch_size input)))
        eqn:Ex; [exact Hrest|].
      destruct (lookup k input) as [x|] eqn:Hx; [|exact Hrest].
      exfalso. apply existsb_eqb_not_In in Ex. apply Ex.
      apply all_files_glob; [exact HB|]. unfold glob_txt. apply filter_In.
      split; [|exact E]. now apply (lookup_Some_In k x).
    + assert (Ex : existsb (String.eqb k) (all_files (plan batch_size input))
                   = false).
      { apply existsb_eqb_not_In. intros H.
        apply all_files_glob in H; [|exact HB].
        unfold glob_txt in H. apply filter_In in H. destruct H as [_ H].
        congruence. }
      rewrite Ex. destruct (lookup k input); [reflexivity | exact Hrest].
  - intros b Hb. destruct (Hnew b Hb) as [_ Hnone].
    exists (picked (snd b) input). split.
    { rewrite lookup_app, lookup_without, Hnone.
      replace (if existsb (String.eqb (fst b))
                         (all_files (plan batch_size input))
               then None else None) with (@None node)
        by (now destruct (existsb _ _)).
      apply lookup_subdirectory; [now apply plan_NoDup | exact Hb]. }
    rewrite names_picked by (intros f Hf; exact (Hin b f Hb Hf)).
    split.
    { apply (NoDup_concat_in (map snd (plan batch_size input)));
        [exact Hall|]. apply in_map_iff. now exists b. }
    split; [apply Permutation_refl|].
    intros f Hf. apply lookup_picked; [exact Hf | exact (Hin b f Hb Hf)].
Qed.

Lemma X6_witness :
  let input := [("a_1.txt", File "1"); ("notes.md", File "4");
                ("a_2.txt", File "2"); ("b_1.txt", File "3")] in
  (0 < 7500)%Z /\
  NoDup (names input) /\
  (forall b, In b (plan 7500 input) ->
             ordinary (fst b) /\ lookup (fst b) input = None) /\
  exists st',
    split_input_by_source 7500 (start input [] "input") =
    (Returned [Sub "a"; Sub "b"], st') /\
    lookup "notes.md" (inp st') = Some (File "4") /\
    lookup "a_1.txt" (inp st') = None /\
    exists L,
      lookup "a" (inp st') = Some (Dir L) /\
      Permutation (names L) ["a_1.txt"; "a_2.txt"] /\
      lookup "a_2.txt" L = Some (File "2").
Proof.
  intros input.
  assert (HB : (0 < 7500)%Z) by lia.
  assert (Hnd : NoDup (names input)).
  { repeat constructor; simpl; intuition discriminate. }
  assert (Hnew : forall b, In b (plan 7500 input) ->
                           ordinary (fst b) /\ lookup (fst b) input = None).
  { intros b Hb. vm_compute in Hb.
    destruct Hb as [<-|[<-|[]]]; split; reflexivity. }
  split; [exact HB|]. split; [exact Hnd|]. split; [exact Hnew|].
  destruct (X6_run_into_new_subdirectories input [] "input" 7500 HB Hnd Hnew)
    as (st' & Hrun & _ & _ & _ & _ & Hother & Hdest).
  exists st'. split; [exact Hrun|].
  split.
  { apply (Hother "notes.md"). vm_compute. intuition discriminate. }
  split.
  { apply (Hother "a_1.txt"). vm_compute. intuition discriminate. }
  destruct (Hdest ("a", ["a_1.txt"; "a_2.txt"]) (or_introl eq_refl))
    as (L & HL & _ & Hperm & Hf).
  exists L. split; [exact HL|]. split; [exact Hperm|].
  exact (Hf "a_2.txt" (or_intror (or_introl eq_refl))).
Defined.

(** ** What [main] counts when the function has returned *)

(** [len(list(subdir.glob("*.txt")))] for a directory the function
    reported. *)
Definition file_count (st : state) (subdir : dest) : nat :=
  match subdir with
  | Sub s => List.length (glob_txt (entries_of s (inp st)))
  | Here => List.length (glob_txt (inp st))
  | Up => List.length (filter (endswith ".txt") (input_name st :: names (up st)))
  end.

(** [total_files], as the loop over [created_dirs] leaves it. *)
Definition total_files_organized (created : list dest) (st : state) : nat :=
  fold_left (fun total_files subdir => total_files + file_count st subdir)
            created 0.

Lemma fold_left_count {A} (f : A -> nat) (l : list A) (n : nat) :
  fold_left (fun t a => t + f a) l n = n + list_sum (map f l).
Proof.
  revert n. induction l as [|a l IH]; intros n; simpl; [lia|].
  rewrite IH. lia.
Qed.

(** X7. When every destination is new (the conditions of X6), the total that
    [main] reports after the run, the number of entries ending in [.txt] that
    it finds in the directories the function returned, is the number of
    entries ending in [.txt] that the input directory had before the run,
    which is the total [main] prints first. *)
Theorem X7_total_files_organized
        (input parent : listing) (name : string) (batch_size : Z) :
  (0 < batch_size)%Z ->
  NoDup (names input) ->
  (forall b, In b (plan batch_size input) ->
             ordinary (fst b) /\ lookup (fst b) input = None) ->
  exists created st',
    split_input_by_source batch_size (start input parent name)
      = (Returned created, st') /\
    (forall b, In b (plan batch_size input) ->
               file_count st' (Sub (fst b)) = List.length (snd b)) /\
    total_files_organized created st' = List.length (glob_txt input).
Proof.
  intros HB Hnd Hnew.
  eexists. eexists. split; [now apply split_fresh|].
  assert (Hcount : forall b, In b (plan batch_size input) ->
    List.length
      (glob_txt
         (entries_of (fst b)
            (without (all_files (plan batch_size input)) input
               ++ map (subdirectory_of input) (plan batch_size input))))
    = List.length (snd b)).
  { intros b Hb. destruct (Hnew b Hb) as [_ Hnone].
    unfold entries_of. rewrite lookup_app, lookup_without, Hnone.
    replace (if existsb (String.eqb (fst b)) (all_files (plan batch_size input))
             then None else None) with (@None node)
      by (now destruct (existsb _ _)).
    rewrite lookup_subdirectory; [|now apply plan_NoDup|exact Hb].
    assert (Hg : forall f, In f (snd b) -> In f (glob_txt input)).
    { intros f Hf. apply (all_files_glob batch_size); [exact HB|].
      exact (in_all_files _ b f Hb Hf). }
    unfold glob_txt at 1. rewrite names_picked.
    - rewrite forallb_filter_id; [reflexivity|].
      apply forallb_forall. intros f Hf. specialize (Hg f Hf).
      unfold glob_txt in Hg. apply filter_In in Hg. tauto.
    - intros f Hf. specialize (Hg f Hf).
      unfold glob_txt in Hg. apply filter_In in Hg. tauto. }
  split; [exact Hcount|].
  unfold total_files_organized. rewrite fold_left_count, map_map. simpl.
  rewrite (map_ext_in _ (fun b => List.length (snd b))) by exact Hcount.
  rewrite <- (Permutation_length (all_files_plan batch_size input HB)).
  unfold all_files. rewrite length_concat, map_map. reflexivity.
Qed.

Lemma X7_witness :
  let input := [("a_1.txt", File "1"); ("notes.md", File "4");
                ("a_2.txt", File "2"); ("b_1.txt", File "3")] in
  (0 < 1)%Z /\
  NoDup (names input) /\
  (forall b, In b (plan 1 input) ->
             ordinary (fst b) /\ lookup (fst b) input = None) /\
  exists created st',
    split_input_by_source 1 (start input [] "input") = (Returned created, st') /\
    (forall b, In b (plan 1 input) ->
               file_count st' (Sub (fst b)) = List.length (snd b)) /\
    total_files_organized created st' = 3.
Proof.
  intros input.
  assert (HB : (0 < 1)%Z) by lia.
  assert (Hnd : NoDup (names input)).
  { repeat constructor; simpl; intuition discriminate. }
  assert (Hnew : forall b, In b (plan 1 input) ->
                           ordinary (fst b) /\ lookup (fst b) input = None).
  { intros b Hb. vm_compute in Hb.
    destruct Hb as [<-|[<-|[<-|[]]]]; split; reflexivity. }
  split; [exact HB|]. split; [exact Hnd|]. split; [exact Hnew|].
  exact (X7_total_files_organized input [] "input" 1 HB Hnd Hnew).
Defined.

(** A destination that was there with a text file of its own: the total
    reported is one more than the number of files found. *)
Example total_counts_what_was_there :
  let input := [("a_1.txt", File "1"); ("a", Dir [("old.txt", File "0")])] in
  let r := split_input_by_source 7500 (start input [] "input") in
  List.length (glob_txt input) = 1 /\
  fst r = Returned [Sub "a"] /\
  total_files_organized [Sub "a"] (snd r) = 2.
Proof. repeat split. Qed.

(** ** Prompt tuning, in both scripts *)

(** X8. [run_auto_prompt_tuning], in both scripts, in full, for a workspace
    path that is not empty and does not end in a slash (the paths for which
    [os.path.join] puts a slash between its arguments, as [os_path_join]
    does) and any configuration path.  The function prints its first line.
    When the path of the interpreter, the workspace path or the
    configuration path holds a NUL character, [subprocess.run] raises
    [ValueError], which is not caught, and nothing is started.  Otherwise
    one process is started, with [NUMBA_DISABLE_JIT] set and the streams
    captured, and the file system is left as the process left it; when its
    output is not valid text in the locale, [UnicodeDecodeError] is raised
    and not caught; when it is, the function returns whether the process
    exited with status zero, having printed the two lines of success or the
    error and the captured error stream.  The configuration path defaults
    to [settings.yaml] in the workspace.  The command lines of the two
    scripts differ in the settings: [data_ingestion.py] asks for the
    discovery of entity types, [test-integration.py] forbids it. *)
Theorem X8_run_auto_prompt_tuning
        (graphrag : tool) (locale : string -> option string)
        (executable : string) (describe : exn -> string)
        (workspace_path : string) (config_path : option string) (m : machine) :
  workspace_path <> "" ->
  endswith "/" workspace_path = false ->
  let m0 := mk_machine (cwd m)
              (console m ++ [Printed "[INFO] Running auto prompt tuning..."]) in
  (let cmd := data_ingestion_tune_cmd executable workspace_path
                (config_or_default workspace_path config_path) in
   data_ingestion.run_auto_prompt_tuning graphrag locale executable describe
     workspace_path config_path m =
   if existsb has_nul cmd then (Raised ValueError, m0)
   else
     let p := fst (graphrag true cmd (cwd m)) in
     let l := snd (graphrag true cmd (cwd m)) in
     match decoded locale p with
     | None =>
         (Raised UnicodeDecodeError,
          mk_machine l (console m0 ++ [Spawned cmd true true]))
     | Some (out, err) =>
         (Returned (exit_status p =? 0)%Z,
          mk_machine l
            (console m0 ++ Spawned cmd true true
               :: tuning_report describe workspace_path cmd
                    (exit_status p) out err))
     end) /\
  (let cmd := test_integration_tune_cmd executable workspace_path
                (config_or_default workspace_path config_path) in
   test_integration.run_auto_prompt_tuning graphrag locale executable describe
     workspace_path config_path m =
   if existsb has_nul cmd then (Raised ValueError, m0)
   else
     let p := fst (graphrag true cmd (cwd m)) in
     let l := snd (graphrag true cmd (cwd m)) in
     match decoded locale p with
     | None =>
         (Raised UnicodeDecodeError,
          mk_machine l (console m0 ++ [Spawned cmd true true]))
     | Some (out, err) =>
         (Returned (exit_status p =? 0)%Z,
          mk_machine l
            (console m0 ++ Spawned cmd true true
               :: tuning_report describe workspace_path cmd
                    (exit_status p) out err))
     end) /\
  (forall config,
      existsb has_nul (data_ingestion_tune_cmd executable workspace_path config)
      = has_nul executable || has_nul workspace_path || has_nul config /\
      existsb has_nul (test_integration_tune_cmd executable workspace_path config)
      = has_nul executable || has_nul workspace_path || has_nul config) /\
  config_or_default workspace_path None
  = (workspace_path ++ "/settings.yaml")%string /\
  (forall cmd status out err c nj captured,
      ~ In (Spawned c nj captured)
           (tuning_report describe workspace_path cmd status out err)).
Proof.
  intros _ _ m0.
  split; [apply data_ingestion_tuning_runs|].
  split; [apply test_integration_tuning_runs|].
  split.
  { intros config.
    cbn [data_ingestion_tune_cmd test_integration_tune_cmd existsb].
    split;
      destruct (has_nul executable), (has_nul workspace_path), (has_nul config);
      reflexivity. }
  split; [reflexivity|].
  intros cmd status out err c nj captured. unfold tuning_report.
  destruct (status =? 0)%Z; simpl; intuition discriminate.
Qed.

Lemma X8_witness :
  "./msgragtest" <> "" /\
  endswith "/" "./msgragtest" = false /\
  test_integration.run_auto_prompt_tuning (failing_at "prompt-tune") plain
    "python" (fun _ => "status 1") "./msgragtest" None (mk_machine [] []) =
  (Returned false,
   mk_machine []
     [Printed "[INFO] Running auto prompt tuning...";
      Spawned (test_integration_tune_cmd "python" "./msgragtest"
                 "./msgragtest/settings.yaml") true true;
      Printed "[ERROR] Auto prompt tuning failed: status 1";
      Printed "[ERROR] stderr: rate limit exceeded"]).
Proof.
  assert (H1 : "./msgragtest" <> "") by discriminate.
  assert (H2 : endswith "/" "./msgragtest" = false) by reflexivity.
  split; [exact H1|]. split; [exact H2|].
  exact (proj1 (proj2 (X8_run_auto_prompt_tuning (failing_at "prompt-tune")
                         plain "python" (fun _ => "status 1") "./msgragtest"
                         None (mk_machine [] []) H1 H2))).
Defined.

(** A NUL character in the workspace path: nothing is started. *)
Example tuning_with_a_nul_in_the_path :
  let workspace := String "000"%char "x" in
  data_ingestion.run_auto_prompt_tuning quiet_tool plain "python"
    (fun _ => "") workspace None (mk_machine [] []) =
  (Raised ValueError,
   mk_machine [] [Printed "[INFO] Running auto prompt tuning..."]).
Proof. reflexivity. Qed.

(** Output that is not text in the locale: the process has run, and the
    function raises. *)
Example tuning_with_output_that_does_not_decode :
  fst (data_ingestion.run_auto_prompt_tuning latin_tool utf8_text
         "python" (fun _ => "") "./msgragtest" None (mk_machine [] []))
  = Raised UnicodeDecodeError.
Proof. reflexivity. Qed.

(** ** The processes a script starts, in order *)

Definition is_process (e : event) : bool :=
  match e with
  | Spawned _ _ _ => true
  | Printed _ => false
  end.

(** The processes among the events of the console. *)
Definition processes (evs : list event) : list event := filter is_process evs.

(** The run of [m] from [s] starts the processes [expected] in this order,
    and no other: all of them when it returns, the first few when it raises,
    and then the exception is one that [allowed] describes. *)
Definition runs {A} (m : M machine A) (s : machine) (expected : list event)
           (allowed : exn -> Prop) : Prop :=
  exists added,
    console (snd (m s)) = console s ++ added /\
    begins (processes added) expected /\
    match fst (m s) with
    | Returned _ => processes added = expected
    | Raised e => allowed e
    end.

Lemma processes_app l1 l2 : processes (l1 ++ l2) = processes l1 ++ processes l2.
Proof. apply filter_app. Qed.

Lemma runs_quiet {A} (m : M machine A) s allowed :
  (exists a, fst (m s) = Returned a) ->
  (exists added, console (snd (m s)) = console s ++ added /\
                 processes added = []) ->
  runs m s [] allowed.
Proof.
  intros [a Ha] (added & E & Hp). exists added. split; [exact E|].
  rewrite Hp, Ha. split; [apply begins_refl | reflexivity].
Qed.

Lemma runs_print text s allowed : runs (print text) s [] allowed.
Proof.
  apply runs_quiet; [now exists tt|]. exists [Printed text]. now split.
Qed.

Lemma runs_ret {A} (a : A) s allowed : runs (ret a) s [] allowed.
Proof.
  apply runs_quiet; [now exists a|]. exists []. simpl. now rewrite app_nil_r.
Qed.

Lemma runs_bind {A B} (m : M machine A) (k : A -> M machine B) s e1 e2 allowed :
  runs m s e1 allowed ->
  (forall a s1, m s = (Returned a, s1) -> runs (k a) s1 e2 allowed) ->
  runs (x <- m ;; k x) s (e1 ++ e2) allowed.
Proof.
  intros (a1 & E1 & B1 & R1) Hk. unfold runs, bind.
  destruct (m s) as [[a|e] s1] eqn:Em; cbn [fst snd] in *.
  - destruct (Hk a s1 eq_refl) as (a2 & E2 & B2 & R2).
    exists (a1 ++ a2). rewrite E2, E1, app_assoc, processes_app, R1.
    split; [reflexivity|]. split; [now apply begins_app_r|].
    destruct (fst (k a s1)); [now rewrite R2 | exact R2].
  - exists a1. split; [exact E1|]. split; [now apply begins_app_l | exact R1].
Qed.

Lemma runs_eq {A} (m m' : M machine A) s expected allowed :
  m s = m' s -> runs m' s expected allowed -> runs m s expected allowed.
Proof. unfold runs. now intros ->. Qed.

Lemma runs_subprocess_run graphrag locale cmd nj captured s
      (allowed : exn -> Prop) :
  existsb has_nul cmd = false ->
  (forall rc out err, rc <> 0%Z -> allowed (CalledProcessError cmd rc out err)) ->
  (captured = true -> allowed UnicodeDecodeError) ->
  runs (subprocess_run graphrag locale cmd nj captured) s
       [Spawned cmd nj captured] allowed.
Proof.
  intros Hn Hal Hdec. exists [Spawned cmd nj captured]. unfold subprocess_run.
  rewrite Hn. destruct (graphrag nj cmd (cwd s)) as [p l].
  destruct captured.
  - destruct (locale (stdout_bytes p)) as [out|];
      [destruct (locale (stderr_bytes p)) as [err|]|].
    + destruct (Z.eqb_spec (exit_status p) 0) as [Hrc|Hrc]; cbn [fst snd console];
        (split; [reflexivity|]); (split; [apply begins_refl|]);
        [reflexivity | now apply Hal].
    + cbn [fst snd console]. split; [reflexivity|].
      split; [apply begins_refl | now apply Hdec].
    + cbn [fst snd console]. split; [reflexivity|].
      split; [apply begins_refl | now apply Hdec].
  - destruct (Z.eqb_spec (exit_status p) 0) as [Hrc|Hrc]; cbn [fst snd console];
      (split; [reflexivity|]); (split; [apply begins_refl|]);
      [reflexivity | now apply Hal].
Qed.

Lemma makedirs_raises p : forall l e,
  makedirs p l = Raised e -> e = FileExistsError \/ e = NotADirectoryError.
Proof.
  induction p as [|c q IH]; intros l e; simpl; [discriminate|].
  destruct (lookup c l) as [[d|es]|]; [| |discriminate].
  - destruct q; intros [= <-]; auto.
  - destruct (makedirs q es) eqn:E; [discriminate|].
    intros [= <-]. exact (IH _ _ E).
Qed.

Lemma runs_os_makedirs path s (allowed : exn -> Prop) :
  allowed FileExistsError -> allowed NotADirectoryError ->
  runs (os_makedirs path) s [] allowed.
Proof.
  intros H1 H2. exists []. unfold os_makedirs.
  destruct (makedirs (components path) (cwd s)) as [l|e] eqn:E;
    cbn [fst snd console]; rewrite app_nil_r;
    (split; [reflexivity|]); (split; [apply begins_refl|]); [reflexivity|].
  destruct (makedirs_raises _ _ _ E) as [->| ->]; assumption.
Qed.

Lemma runs_querying graphrag locale executable workspace query s
      (allowed : exn -> Prop) :
  existsb has_nul (query_cmd executable workspace query) = false ->
  (forall rc out err,
      rc <> 0%Z ->
      allowed (CalledProcessError (query_cmd executable workspace query)
                                  rc out err)) ->
  allowed UnicodeDecodeError ->
  runs (querying graphrag locale executable workspace query) s
       [Spawned (query_cmd executable workspace query) false true] allowed.
Proof.
  intros Hn Hal Hdec. unfold querying.
  apply (runs_bind _ _ _ [] _ _ (runs_print _ _ _)). intros _ s1 _.
  apply (runs_bind _ _ _ [Spawned (query_cmd executable workspace query) false true] []).
  - destruct (graphrag false (query_cmd executable workspace query) (cwd s1))
      as [p l] eqn:E.
    destruct (decoded locale p) as [[out err]|] eqn:Hd.
    + unfold runs, run_query, try_except.
      fold (query_cmd executable workspace query).
      rewrite (subprocess_run_captured _ _ _ _ _ _ _ _ _ Hn E Hd).
      destruct (Z.eqb_spec (exit_status p) 0) as [Hrc|Hrc].
      * exists [Spawned (query_cmd executable workspace query) false true].
        cbn [fst snd console]. split; [reflexivity|].
        split; [apply begins_refl | reflexivity].
      * exists (Spawned (query_cmd executable workspace query) false true
                  :: failure_report out err).
        unfold bind, print, modify, raise. cbn [fst snd console cwd shown].
        rewrite <- !app_assoc. split; [reflexivity|].
        split; [apply begins_refl | now apply Hal].
    + unfold runs, run_query, try_except.
      fold (query_cmd executable workspace query).
      rewrite (subprocess_run_undecodable _ _ _ _ _ _ _ Hn E Hd).
      exists [Spawned (query_cmd executable workspace query) false true].
      cbn [fst snd console]. split; [reflexivity|].
      split; [apply begins_refl | exact Hdec].
  - intros result s2 _.
    apply (runs_bind _ _ _ [] [] _ (runs_print _ _ _)). intros _ s3 _.
    apply (runs_bind _ _ _ [] [] _ (runs_print _ _ _)). intros _ s4 _.
    apply runs_print.
Qed.

(** An exception that ends a script: a command of [cmds] that exited with a
    status other than zero, captured output that is not text in the
    locale, or [os.makedirs] meeting a regular file. *)
Definition ends_script (cmds : list (list string)) (e : exn) : Prop :=
  match e with
  | CalledProcessError cmd rc _ _ => rc <> 0%Z /\ In cmd cmds
  | UnicodeDecodeError => True
  | FileExistsError | NotADirectoryError => True
  | _ => False
  end.

(** The test of [# --- Initialize workspace ---]. *)
Definition initialised (l : listing) : bool :=
  path_exists (components (os_path_join data_ingestion.WORKSPACE ".env")) l &&
  path_exists (components (os_path_join data_ingestion.WORKSPACE "settings.yaml")) l.

(** The processes of [data_ingestion.py]. *)
Definition data_ingestion_processes (executable : string) (l : listing)
  : list event :=
  (if initialised l then []
   else [Spawned (init_cmd executable data_ingestion.WORKSPACE) false false])
    ++ [Spawned (tune_cmd executable data_ingestion.WORKSPACE) true true;
        Spawned (index_cmd executable data_ingestion.WORKSPACE) true false;
        Spawned (query_cmd executable data_ingestion.WORKSPACE
                           data_ingestion.QUERY) false true].

(** The commands whose status ends [data_ingestion.py]: the prompt tuning
    is not among them. *)
Definition data_ingestion_fatal (executable : string) : list (list string) :=
  [init_cmd executable data_ingestion.WORKSPACE;
   index_cmd executable data_ingestion.WORKSPACE;
   query_cmd executable data_ingestion.WORKSPACE data_ingestion.QUERY].

Lemma initializing_test graphrag locale executable m :
  data_ingestion.initializing graphrag locale executable m =
  (if initialised (cwd m)
   then print "[INFO] GraphRAG workspace already initialized."
   else
     print "[INFO] Initializing GraphRAG workspace..." ;;
     _ <- subprocess_run graphrag locale
            (init_cmd executable data_ingestion.WORKSPACE) false false ;;
     ret tt) m.
Proof.
  unfold data_ingestion.initializing.
  unfold bind at 1, os_path_exists at 1, gets at 1.
  unfold bind at 1, os_path_exists at 1, gets at 1.
  fold (initialised (cwd m)).
  destruct (initialised (cwd m)); reflexivity.
Qed.

Lemma processes_tuning_report describe workspace cmd status out err :
  processes (tuning_report describe workspace cmd status out err) = [].
Proof. unfold tuning_report. destruct (status =? 0)%Z; reflexivity. Qed.

Lemma runs_tuning graphrag locale executable describe s (allowed : exn -> Prop) :
  has_nul executable = false ->
  allowed UnicodeDecodeError ->
  runs (data_ingestion.tuning graphrag locale executable describe) s
       [Spawned (tune_cmd executable data_ingestion.WORKSPACE) true true]
       allowed.
Proof.
  intros Hex Hdec. unfold runs.
  rewrite (tuning_runs graphrag locale executable describe s Hex).
  destruct (decoded locale _) as [[out err]|]; cbn [fst snd console].
  - eexists. split; [rewrite <- app_assoc; reflexivity|].
    rewrite !processes_app, processes_tuning_report. cbn.
    split; [apply begins_refl | reflexivity].
  - eexists. split; [reflexivity|]. cbn.
    split; [apply begins_refl | exact Hdec].
Qed.

(** X9. [data_ingestion.py] from top to bottom, with any tool, any locale
    and any working directory, the path of the interpreter having no NUL
    character.  The processes it starts are, in this order: [init] (only
    when [.env] or [settings.yaml] is missing in the workspace),
    [prompt-tune], [index] and [query]; [prompt-tune] and [index] with
    [NUMBA_DISABLE_JIT] set, [prompt-tune] and [query] with the streams
    captured.  A run that ends normally has started them all; a run that
    ends in an exception has started the first few of them, and the
    exception is the [CalledProcessError] of [init], [index] or [query]
    with a status other than zero, the [UnicodeDecodeError] of captured
    output that is not text in the locale, or the error of [os.makedirs]
    meeting a regular file.  The status of the prompt tuning does not end
    the script. *)
Theorem X9_data_ingestion_processes
        (graphrag : tool) (locale : string -> option string)
        (executable : string) (describe : exn -> string) (m : machine) :
  has_nul executable = false ->
  runs (data_ingestion.script graphrag locale executable describe) m
       (data_ingestion_processes executable (cwd m))
       (ends_script (data_ingestion_fatal executable)).
Proof.
  intros Hex.
  unfold data_ingestion.script, data_ingestion_processes.
  apply runs_bind.
  - apply (runs_eq _ _ _ _ _ (initializing_test graphrag locale executable m)).
    destruct (initialised (cwd m)).
    + apply runs_print.
    + apply (runs_bind _ _ _ [] _ _ (runs_print _ _ _)). intros _ s1 _.
      apply (runs_bind _ _ _ [_] []); [|intros; apply runs_ret].
      apply runs_subprocess_run.
      * now apply init_cmd_nul.
      * intros rc out err Hrc. split; [exact Hrc | now left].
      * discriminate.
  - intros _ s1 _.
    apply (runs_bind _ _ _ [] _ _ (runs_os_makedirs _ _ _ I I)). intros _ s2 _.
    apply (runs_bind _ _ _ [Spawned (tune_cmd executable data_ingestion.WORKSPACE) true true]
                     [_; _]).
    + apply runs_tuning; [exact Hex | exact I].
    + intros _ s3 _.
      apply (runs_bind _ _ _ [_] [_]).
      * unfold data_ingestion.indexing.
        fold (index_cmd executable data_ingestion.WORKSPACE).
        apply (runs_bind _ _ _ [] _ _ (runs_print _ _ _)). intros _ s4 _.
        apply (runs_bind _ _ _ [_] []); [|intros; apply runs_ret].
        apply runs_subprocess_run.
        -- now apply index_cmd_nul.
        -- intros rc out err Hrc. split; [exact Hrc | right; now left].
        -- discriminate.
      * intros _ s4 _. apply runs_querying.
        -- now apply query_cmd_nul.
        -- intros rc out err Hrc.
           split; [exact Hrc | right; right; now left].
        -- exact I.
Qed.

Lemma X9_witness :
  has_nul "python" = false /\
  runs (data_ingestion.script (failing_at "index") plain "python"
          (fun _ => "")) (mk_machine [] [])
       [Spawned (init_cmd "python" "./msgragtest") false false;
        Spawned (tune_cmd "python" "./msgragtest") true true;
        Spawned (index_cmd "python" "./msgragtest") true false;
        Spawned (query_cmd "python" "./msgragtest"
                           "What does the US Coast Guard do?") false true]
       (ends_script (data_ingestion_fatal "python")).
Proof.
  assert (Hex : has_nul "python" = false) by reflexivity.
  split; [exact Hex|].
  exact (X9_data_ingestion_processes (failing_at "index") plain "python"
           (fun _ => "") (mk_machine [] []) Hex).
Defined.

(** [os.makedirs] of the input directory changes nothing in the output
    directory. *)
Lemma makedirs_input_output l l' q :
  makedirs ["msgragtest"; "input"] l = Returned l' ->
  path_exists ("msgragtest" :: "output" :: q) l' =
  path_exists ("msgragtest" :: "output" :: q) l.
Proof.
  cbn [makedirs]. intros H. unfold path_exists. cbn [lookup_path].
  destruct (lookup "msgragtest" l) as [[d|es]|] eqn:E.
  - discriminate.
  - destruct (lookup "input" es) as [[d|es2]|] eqn:E2.
    + discriminate.
    + injection H as <-. rewrite lookup_replace, String.eqb_refl, E.
      rewrite lookup_replace. reflexivity.
    + injection H as <-. rewrite lookup_replace, String.eqb_refl, E.
      rewrite lookup_link. destruct (lookup "output" es); reflexivity.
  - injection H as <-. rewrite lookup_link, E, String.eqb_refl. reflexivity.
Qed.

Lemma makedirs_input_key_files l l' :
  makedirs (components test_integration.INPUT_DIR) l = Returned l' ->
  existing_key_files l' = existing_key_files l.
Proof.
  change (components test_integration.INPUT_DIR) with ["msgragtest"; "input"].
  intros H. unfold existing_key_files. apply filter_ext_in.
  intros f [<-|[<-|[<-|[]]]];
    match goal with
    | |- context [components ?p] =>
        let c := eval vm_compute in (components p) in
        change (components p) with c
    end;
    exact (makedirs_input_output l l' _ H).
Qed.

Lemma indexing_test graphrag locale executable m :
  test_integration.indexing graphrag locale executable m =
  (if Nat.leb 2 (List.length (existing_key_files (cwd m)))
   then
     print (found_line (existing_key_files (cwd m))) ;;
     print (existing_line (existing_key_files (cwd m))) ;;
     print "[INFO] Using existing indexed data"
   else
     print "[INFO] Indexing input file with GraphRAG..." ;;
     _ <- subprocess_run graphrag locale
            (index_cmd executable test_integration.WORKSPACE) true false ;;
     ret tt) m.
Proof.
  destruct (Nat.leb_spec 2 (List.length (existing_key_files (cwd m))))
    as [Hlen|Hlen].
  - rewrite (indexing_skipped _ _ _ _ Hlen).
    unfold bind, print, modify. cbn [fst snd cwd console].
    rewrite <- !app_assoc. reflexivity.
  - rewrite (indexing_run _ _ _ _ Hlen). reflexivity.
Qed.

(** The processes of [test-integration.py]. *)
Definition test_integration_processes (executable : string) (l : listing)
  : list event :=
  (if Nat.leb 2 (List.length (existing_key_files l)) then []
   else [Spawned (index_cmd executable test_integration.WORKSPACE) true false])
    ++ [Spawned (query_cmd executable test_integration.WORKSPACE
                           test_integration.QUERY) false true].

Definition test_integration_fatal (executable : string) : list (list string) :=
  [index_cmd executable test_integration.WORKSPACE;
   query_cmd executable test_integration.WORKSPACE test_integration.QUERY].

(** X10. [test-integration.py] from top to bottom, with any tool, any
    locale and any working directory, the path of the interpreter having no
    NUL character.  The processes it starts are, in this order, [index]
    (only when fewer than two of the three expected output files exist when
    the script starts: making the input directory does not change that) and
    [query].  A run that ends normally has started them all; a run that ends
    in an exception has started the first few of them, and the exception is
    the [CalledProcessError] of [index] or [query] with a status other than
    zero, the [UnicodeDecodeError] of captured output that is not text in
    the locale, or the error of [os.makedirs] meeting a regular file. *)
Theorem X10_test_integration_processes
        (graphrag : tool) (locale : string -> option string)
        (executable : string) (m : machine) :
  has_nul executable = false ->
  runs (test_integration.script graphrag locale executable) m
       (test_integration_processes executable (cwd m))
       (ends_script (test_integration_fatal executable)).
Proof.
  intros Hex.
  unfold test_integration.script.
  apply (runs_bind _ _ _ [] _ _ (runs_os_makedirs _ _ _ I I)).
  intros [] s1 Hmk.
  assert (Hkeys : existing_key_files (cwd s1) = existing_key_files (cwd m)).
  { unfold os_makedirs in Hmk.
    destruct (makedirs (components test_integration.INPUT_DIR) (cwd m))
      as [l'|e] eqn:E; [|discriminate].
    injection Hmk as <-. cbn [cwd]. now apply makedirs_input_key_files. }
  unfold test_integration_processes. rewrite <- Hkeys.
  apply runs_bind.
  - apply (runs_eq _ _ _ _ _ (indexing_test graphrag locale executable s1)).
    destruct (Nat.leb 2 (List.length (existing_key_files (cwd s1)))).
    + apply (runs_bind _ _ _ [] [] _ (runs_print _ _ _)). intros _ s2 _.
      apply (runs_bind _ _ _ [] [] _ (runs_print _ _ _)). intros _ s3 _.
      apply runs_print.
    + apply (runs_bind _ _ _ [] _ _ (runs_print _ _ _)). intros _ s2 _.
      apply (runs_bind _ _ _ [_] []); [|intros; apply runs_ret].
      apply runs_subprocess_run.
      * now apply index_cmd_nul.
      * intros rc out err Hrc. split; [exact Hrc | now left].
      * discriminate.
  - intros _ s2 _. apply runs_querying.
    + now apply query_cmd_nul.
    + intros rc out err Hrc. split; [exact Hrc | right; now left].
    + exact I.
Qed.

Lemma X10_witness :
  has_nul "python" = false /\
  runs (test_integration.script latin_tool utf8_text "python")
       (mk_machine finished_workspace [])
       [Spawned (query_cmd "python" "./msgragtest" test_integration.QUERY)
                false true]
       (ends_script (test_integration_fatal "python")).
Proof.
  assert (Hex : has_nul "python" = false) by reflexivity.
  split; [exact Hex|].
  exact (X10_test_integration_processes latin_tool utf8_text "python"
           (mk_machine finished_workspace []) Hex).
Defined.

(** ** The two versions of [parse_html_to_chunks] *)

(** X11. The reader of [data_ingestion.py] against the one of
    [test-integration.py], on the same path and the same machine.  Both
    construct the section splitter first, and what its constructor raises
    is what they raise.  Then, when [open] raises, both raise its error.
    When it opens the path and the bytes are valid utf-8, both hand the same
    text to the splitters and have the same outcome, that of the splitters,
    and the first also prints which encoding it used.  When the bytes are
    not valid utf-8, the second raises [UnicodeDecodeError] and the first
    hands the latin-1 reading, each byte taken for the code point of its
    number, to the splitters.  Neither changes the file system, and the
    second prints nothing. *)
Theorem X11_the_two_readers
        (elsewhere : string -> os_error + string)
        (sp : splitters) (html_path : string)
        (headers : option (list (string * string)))
        (chunk_size chunk_overlap : Z) (m : machine) :
  let a := data_ingestion.parse_html_to_chunks elsewhere sp html_path headers
             chunk_size chunk_overlap m in
  let b := test_integration.parse_html_to_chunks elsewhere sp html_path headers
             chunk_size chunk_overlap m in
  (forall e,
      HTMLSectionSplitter sp (headers_or_default headers) = Raised e ->
      a = (Raised e, m) /\ b = (Raised e, m)) /\
  (forall splitter,
      HTMLSectionSplitter sp (headers_or_default headers) = Returned splitter ->
      (forall e,
          open_read elsewhere html_path (cwd m) = Raised e ->
          a = (Raised e, m) /\ b = (Raised e, m)) /\
      (forall data t,
          open_read elsewhere html_path (cwd m) = Returned data ->
          decode utf_8 data = Some t ->
          b = (chunks_of sp splitter chunk_size chunk_overlap
                         (universal_newlines t), m) /\
          a = (chunks_of sp splitter chunk_size chunk_overlap
                         (universal_newlines t),
               mk_machine (cwd m)
                 (console m ++ [debug_line html_path utf_8]))) /\
      (forall data,
          open_read elsewhere html_path (cwd m) = Returned data ->
          decode utf_8 data = None ->
          b = (Raised UnicodeDecodeError, m) /\
          a = (chunks_of sp splitter chunk_size chunk_overlap
                         (universal_newlines (bytes_of data)),
               mk_machine (cwd m)
                 (console m ++ [debug_line html_path latin_1])))) /\
  cwd (snd a) = cwd m /\
  snd b = m.
Proof.
  intros a b.
  assert (Hctor : forall e,
             HTMLSectionSplitter sp (headers_or_default headers) = Raised e ->
             a = (Raised e, m) /\ b = (Raised e, m)).
  { intros e He. subst a b.
    unfold data_ingestion.parse_html_to_chunks,
           test_integration.parse_html_to_chunks.
    unfold bind at 1 3. unfold lift at 1 3. rewrite He. split; reflexivity. }
  assert (Ha : forall splitter,
             HTMLSectionSplitter sp (headers_or_default headers)
               = Returned splitter ->
             a = match open_read elsewhere html_path (cwd m) with
                 | Raised e => (Raised e, m)
                 | Returned data =>
                     match decode utf_8 data with
                     | Some t =>
                         (chunks_of sp splitter chunk_size chunk_overlap
                                    (universal_newlines t),
                          mk_machine (cwd m)
                            (console m ++ [debug_line html_path utf_8]))
                     | None =>
                         (chunks_of sp splitter chunk_size chunk_overlap
                                    (universal_newlines (bytes_of data)),
                          mk_machine (cwd m)
                            (console m ++ [debug_line html_path latin_1]))
                     end
                 end).
  { intros splitter Hs. subst a.
    unfold data_ingestion.parse_html_to_chunks.
    unfold bind at 1. unfold lift at 1. rewrite Hs. unfold bind.
    destruct (open_read elsewhere html_path (cwd m)) as [data|e] eqn:E.
    - rewrite (decoding_decodes _ _ _ _ E).
      unfold data_ingestion.encodings. cbn [first_decoding].
      destruct (decode utf_8 data); reflexivity.
    - now rewrite (decoding_not_opened _ _ _ _ E). }
  assert (Hb : forall splitter,
             HTMLSectionSplitter sp (headers_or_default headers)
               = Returned splitter ->
             b = match open_read elsewhere html_path (cwd m) with
                 | Raised e => (Raised e, m)
                 | Returned data =>
                     match decode utf_8 data with
                     | Some t =>
                         (chunks_of sp splitter chunk_size chunk_overlap
                                    (universal_newlines t), m)
                     | None => (Raised UnicodeDecodeError, m)
                     end
                 end).
  { intros splitter Hs. subst b.
    unfold test_integration.parse_html_to_chunks.
    unfold bind at 1. unfold lift at 1. rewrite Hs.
    unfold bind, read_text.
    destruct (open_read elsewhere html_path (cwd m)) as [data|e];
      [|reflexivity].
    destruct (decode utf_8 data); reflexivity. }
  split; [exact Hctor|]. split.
  { intros splitter Hs. rewrite (Ha splitter Hs), (Hb splitter Hs).
    split; [|split].
    - intros e ->. split; reflexivity.
    - intros data t -> ->. split; reflexivity.
    - intros data -> ->. split; reflexivity. }
  destruct (HTMLSectionSplitter sp (headers_or_default headers))
    as [splitter|e] eqn:Es.
  - rewrite (Ha splitter eq_refl), (Hb splitter eq_refl).
    destruct (open_read elsewhere html_path (cwd m)) as [data|e];
      [|split; reflexivity].
    destruct (decode utf_8 data); split; reflexivity.
  - destruct (Hctor e eq_refl) as [-> ->]. split; reflexivity.
Qed.

Lemma X11_witness :
  let m := mk_machine [("page.htm", File e_acute)] [] in
  HTMLSectionSplitter one_piece (headers_or_default None) = Returned tt /\
  open_read nowhere "page.htm" (cwd m) = Returned e_acute /\
  decode utf_8 e_acute = None /\
  test_integration.parse_html_to_chunks nowhere one_piece "page.htm" None
    1000 100 m = (Raised UnicodeDecodeError, m) /\
  data_ingestion.parse_html_to_chunks nowhere one_piece "page.htm" None
    1000 100 m =
  (Returned [[233%N]], mk_machine (cwd m) [debug_line "page.htm" latin_1]).
Proof.
  intros m.
  assert (Hs : HTMLSectionSplitter one_piece (headers_or_default None)
               = Returned tt) by reflexivity.
  assert (Hfile : open_read nowhere "page.htm" (cwd m) = Returned e_acute)
    by reflexivity.
  assert (Hno : decode utf_8 e_acute = None) by reflexivity.
  split; [exact Hs|]. split; [exact Hfile|]. split; [exact Hno|].
  exact (proj2 (proj2 (proj1 (proj2 (X11_the_two_readers nowhere one_piece
                                       "page.htm" None 1000 100 m)) tt Hs))
               e_acute Hfile Hno).
Defined.

(** What [open] makes of paths that do not name a regular file of the
    working directory: a slash after the name of a regular file, a regular
    file taken for a directory, a directory, a name that is not there. *)
Example paths_that_do_not_open :
  let l := [("page.htm", File "text"); ("docs", Dir [])] in
  open_read nowhere "page.htm/" l = Raised NotADirectoryError /\
  open_read nowhere "page.htm/x.htm" l = Raised NotADirectoryError /\
  open_read nowhere "docs" l = Raised IsADirectoryError /\
  open_read nowhere "docs/../page.htm" l = Returned "text" /\
  open_read nowhere "other.htm" l = Raised FileNotFoundError /\
  open_read nowhere "" l = Raised FileNotFoundError /\
  open_read (fun _ => inr "far") "/page.htm" l = Returned "far" /\
  open_read (fun _ => inr "far") "../page.htm" l = Returned "far".
Proof. repeat split. Qed.

(** ** Making the input directory *)

Lemma replace_same k x l : lookup k l = Some x -> replace k x l = l.
Proof.
  induction l as [|(k', y) r IH]; simpl; [reflexivity|].
  destruct (String.eqb_spec k' k) as [->|Hne].
  - now intros [= ->].
  - intros H. now rewrite IH.
Qed.

Lemma replace_replace k x y l : replace k x (replace k y l) = replace k x l.
Proof.
  induction l as [|(k', z) r IH]; simpl; [reflexivity|].
  destruct (String.eqb k' k) eqn:E; simpl; rewrite E; [reflexivity|].
  now rewrite IH.
Qed.

Lemma makedirs_fresh_path q : makedirs q (fresh_path q) = Returned (fresh_path q).
Proof.
  induction q as [|c q IH]; [reflexivity|].
  cbn [fresh_path makedirs lookup]. rewrite String.eqb_refl, IH.
  cbn [replace]. now rewrite String.eqb_refl.
Qed.

(** What [os.makedirs] returns has the directory. *)
Lemma makedirs_makes p : forall l l',
  makedirs p l = Returned l' -> exists es, lookup_path p l' = Some (Dir es).
Proof.
  induction p as [|c q IH]; intros l l'; cbn [makedirs lookup_path].
  - intros [= <-]. now exists l.
  - destruct (lookup c l) as [[d|es]|] eqn:E; [discriminate| |].
    + destruct (makedirs q es) as [es'|e] eqn:Eq; [|discriminate].
      intros [= <-]. rewrite lookup_replace, String.eqb_refl, E.
      exact (IH _ _ Eq).
    + intros [= <-]. rewrite lookup_link, E, String.eqb_refl.
      destruct (IH _ _ (makedirs_fresh_path q)) as [es Hes]. now exists es.
Qed.

(** It removes nothing: a regular file keeps its contents and a directory
    stays a directory. *)
Lemma makedirs_keeps p : forall l l' q,
  makedirs p l = Returned l' ->
  (forall d, lookup_path q l = Some (File d) -> lookup_path q l' = Some (File d)) /\
  (forall es, lookup_path q l = Some (Dir es) ->
              exists es', lookup_path q l' = Some (Dir es')).
Proof.
  induction p as [|c p' IH]; intros l l' q; cbn [makedirs].
  - intros [= <-]. split; [auto | intros es H; now exists es].
  - destruct q as [|c0 q0].
    + intros _. cbn [lookup_path]. split; [discriminate|].
      intros es _. now exists l'.
    + cbn [lookup_path].
      destruct (lookup c l) as [[d|es]|] eqn:E; [discriminate| |].
      * destruct (makedirs p' es) as [es'|e] eqn:Eq; [|discriminate].
        intros [= <-]. rewrite lookup_replace.
        destruct (String.eqb_spec c c0) as [<-|Hne].
        -- rewrite E. exact (IH es es' q0 Eq).
        -- destruct (lookup c0 l) as [[d|es0]|]; split; try discriminate; eauto.
      * intros [= <-]. rewrite lookup_link.
        destruct (lookup c0 l) as [[d|es0]|]; split; try discriminate; eauto.
Qed.

(** A second call finds the directory and changes nothing. *)
Lemma makedirs_again p : forall l l',
  makedirs p l = Returned l' -> makedirs p l' = Returned l'.
Proof.
  induction p as [|c q IH]; intros l l'; cbn [makedirs].
  - now intros [= <-].
  - destruct (lookup c l) as [[d|es]|] eqn:E; [discriminate| |].
    + destruct (makedirs q es) as [es'|e] eqn:Eq; [|discriminate].
      intros [= <-]. rewrite lookup_replace, String.eqb_refl, E.
      rewrite (IH _ _ Eq). now rewrite replace_replace.
    + intros [= <-]. rewrite lookup_link, E, String.eqb_refl.
      rewrite makedirs_fresh_path. f_equal. apply replace_same.
      now rewrite lookup_link, E, String.eqb_refl.
Qed.

(** X12. [os.makedirs(INPUT_DIR, exist_ok=True)], the same statement in both
    scripts, in any working directory.  It raises exactly when [msgragtest]
    or [msgragtest/input] is a regular file, and then nothing has changed.
    Otherwise it returns; [msgragtest/input] is then a directory; every path
    that named a regular file still names it, with the same contents, and
    every path that named a directory still names one; nothing is printed;
    and the same statement executed again changes nothing. *)
Theorem X12_input_directory_is_made (m : machine) :
  data_ingestion.INPUT_DIR = test_integration.INPUT_DIR /\
  let r := os_makedirs data_ingestion.INPUT_DIR m in
  ((exists e, fst r = Raised e) <->
   (exists d, lookup_path ["msgragtest"] (cwd m) = Some (File d)) \/
   (exists d, lookup_path ["msgragtest"; "input"] (cwd m) = Some (File d))) /\
  (forall e, fst r = Raised e -> snd r = m) /\
  (fst r = Returned tt ->
   (exists es,
       lookup_path (components data_ingestion.INPUT_DIR) (cwd (snd r))
       = Some (Dir es)) /\
   (forall q d, lookup_path q (cwd m) = Some (File d) ->
                lookup_path q (cwd (snd r)) = Some (File d)) /\
   (forall q es, lookup_path q (cwd m) = Some (Dir es) ->
                 exists es', lookup_path q (cwd (snd r)) = Some (Dir es')) /\
   console (snd r) = console m /\
   os_makedirs data_ingestion.INPUT_DIR (snd r) = (Returned tt, snd r)).
Proof.
  split; [reflexivity|]. intros r. subst r. unfold os_makedirs.
  change (components data_ingestion.INPUT_DIR) with ["msgragtest"; "input"].
  destruct (makedirs ["msgragtest"; "input"] (cwd m)) as [l'|e] eqn:E;
    cbn [fst snd cwd console].
  - split; [|split; [discriminate|]].
    + split; [intros [e [=]]|]. intros H. exfalso. revert E H.
      cbn [makedirs lookup_path].
      destruct (lookup "msgragtest" (cwd m)) as [[d|es]|];
        [discriminate| |].
      * destruct (lookup "input" es) as [[d|es2]|]; [discriminate| |];
          intros _ [[d [=]]|[d [=]]].
      * intros _ [[d [=]]|[d [=]]].
    + intros _. split; [exact (makedirs_makes _ _ _ E)|].
      split; [intros q d; exact (proj1 (makedirs_keeps _ _ _ q E) d)|].
      split; [intros q es; exact (proj2 (makedirs_keeps _ _ _ q E) es)|].
      split; [reflexivity|].
      now rewrite (makedirs_again _ _ _ E).
  - split; [|split; [reflexivity | discriminate]].
    split; [intros _ | intros _; now exists e].
    revert E. cbn [makedirs lookup_path].
    destruct (lookup "msgragtest" (cwd m)) as [[d|es]|];
      [intros _; left; now exists d| |discriminate].
    destruct (lookup "input" es) as [[d|es2]|]; [|discriminate|discriminate].
    intros _. right. now exists d.
Qed.

Lemma X12_witness :
  let m := mk_machine [("notes.md", File "n")] [] in
  let r := os_makedirs data_ingestion.INPUT_DIR m in
  fst r = Returned tt /\
  lookup_path ["notes.md"] (cwd m) = Some (File "n") /\
  lookup_path ["notes.md"] (cwd (snd r)) = Some (File "n") /\
  os_makedirs data_ingestion.INPUT_DIR (snd r) = (Returned tt, snd r).
Proof.
  intros m r.
  assert (Hr : fst r = Returned tt) by reflexivity.
  assert (Hn : lookup_path ["notes.md"] (cwd m) = Some (File "n"))
    by reflexivity.
  split; [exact Hr|]. split; [exact Hn|].
  destruct (proj2 (proj2 (proj2 (X12_input_directory_is_made m))) Hr)
    as (_ & Hfiles & _ & _ & Hagain).
  split; [exact (Hfiles ["notes.md"] "n" Hn) | exact Hagain].
Defined.
